(** * eDOMOS door alarm controller: door state, alarm timer and event pipeline

    A shallow embedding of the control core of [door_alarm_system/app.py] and
    [door_alarm_system/app_with_html_errors.py]: the globals that carry the
    door and alarm state, [monitor_door], [alarm_timer], [log_event] and
    [send_alarm_email], with the tables of [models.py] they read and write.

    Conventions.
    - Python globals and the SQLite tables are fields of one [State] record
      that every function threads explicitly.
    - What the outside world decides (the clock, the sensor level, whether a
      commit or an SMTP command fails) is an argument of the function that
      asks for it, a "world" record, so every definition is executable.
    - A Python exception is the [Raise] case of [result]; state changes made
      before the exception stay, as in Python.
    - [time.time()] readings are rationals.  Every finite float is one, the
      constant [2.0] is exact, and the difference of two clock readings that
      lie within a factor two of each other is computed without rounding, so
      the comparison [time_diff < 2.0] is the comparison of rationals.
    - [print] output is kept only for [send_alarm_email], whose contract
      speaks about what is logged. *)

From Stdlib Require Import ZArith QArith Lqa Lia Bool String Ascii List.
From stdpp Require Import base option gmap strings list pretty.

Local Open Scope string_scope.
Local Open Scope Z_scope.
Local Open Scope list_scope.

(** ** Python values and control *)

Module Py.

(** The exception classes the modelled code can meet.  All of them derive
    from [Exception]. *)
Inductive exn : Type :=
| RuntimeError             (* RPi.GPIO: channel not readable *)
| ValueError               (* int() on a malformed setting *)
| OperationalError         (* SQLAlchemy: the commit failed *)
| ConnectionError          (* socket level failure, a subclass of OSError *)
| SMTPAuthenticationError  (* smtplib: login refused *)
| SMTPRecipientsRefused    (* smtplib: a subclass of SMTPException *)
| SMTPServerDisconnected   (* smtplib: a subclass of SMTPException *)
| SMTPException            (* smtplib: the base class itself *)
| OtherException.          (* any other subclass of Exception *)

(** The classes named in [except] clauses of the source, and [isinstance]. *)
Inductive exn_class : Type :=
| C_SMTPAuthenticationError
| C_SMTPException
| C_Exception.

Definition isinstance (e : exn) (c : exn_class) : bool :=
  match c, e with
  | C_Exception, _ => true
  | C_SMTPException, (SMTPAuthenticationError | SMTPRecipientsRefused
                      | SMTPServerDisconnected | SMTPException) => true
  | C_SMTPException, _ => false
  | C_SMTPAuthenticationError, SMTPAuthenticationError => true
  | C_SMTPAuthenticationError, _ => false
  end.

Inductive result (A : Type) : Type :=
| Ok (a : A)
| Raise (e : exn).
Arguments Ok {A} a.
Arguments Raise {A} e.

Definition is_ok {A} (r : result A) : bool :=
  match r with Ok _ => true | Raise _ => false end.

(** Truth value of a string: the empty string is false. *)
Definition truthy (s : string) : bool :=
  match s with EmptyString => false | String _ _ => true end.

(** Truth value of a nullable Boolean column: NULL is false. *)
Definition truthy_flag (b : option bool) : bool :=
  match b with Some true => true | _ => false end.

(** Strict comparison of clock readings. *)
Definition Qltb (a b : Q) : bool :=
  match (a ?= b)%Q with Lt => true | _ => false end.

End Py.

Export Py.

(** ** The tables of models.py *)

Record EventLog : Type := {
  ev_id : Z;                (* id, the integer primary key *)
  event_type : string;
  description : string;
  timestamp : Q             (* seconds; datetime.now(ist) *)
}.

Record EmailConfig : Type := {
  sender_email : string;
  app_password : string;
  recipient_emails : string;      (* comma separated *)
  is_configured : option bool     (* Boolean column, default False *)
}.

(** The [statistics] object of the broadcast payload. *)
Record Statistics : Type := {
  total_events : nat;
  door_open_events : nat;
  door_close_events : nat;
  alarm_events : nat
}.

(** The payload of the [new_event] message on the [/events] namespace. *)
Record Payload : Type := {
  p_event : EventLog;
  p_door_status : string;
  p_alarm_status : string;
  p_timer_set : string;
  p_last_event : option EventLog;
  p_statistics : Statistics
}.

(** A message handed to [server.sendmail]. *)
Record Mail : Type := {
  mail_from : string;
  mail_to : list string;
  mail_subject : string;
  mail_duration : Z
}.

(** Lines printed by [send_alarm_email]. *)
Inductive log_line : Type :=
| DEBUG_attempting (duration : Z)
| DEBUG_no_config
| DEBUG_not_configured
| DEBUG_incomplete (sender password recipients : bool)
| DEBUG_config_found (sender : string)
| DEBUG_recipients (recipients : string)
| DEBUG_connecting
| DEBUG_login
| DEBUG_sending (n : nat)
| SUCCESS_sent (recipients : list string)
| ERROR_authentication (e : exn)
| ERROR_smtp (e : exn)
| ERROR_unexpected (e : exn).

(** ** The process state *)

Record State : Type := {
  (* os.environ.get('TESTING') *)
  TESTING : bool;
  (* Global variables for door state *)
  door_open : bool;
  alarm_active : bool;
  timer_active : bool;
  timer_duration : Z;
  (* Duplicate prevention variables (app_with_html_errors.py) *)
  last_logged_door_state : option bool;
  last_logged_alarm_state : bool;
  last_event_timestamps : gmap string Q;
  (* tables *)
  event_log : list EventLog;
  setting : gmap string string;
  email_config : list EmailConfig;
  (* GPIO output levels by board pin: 22 green, 13 red, 16 white *)
  gpio_out : gmap Z bool;
  (* what left the process *)
  emitted : list Payload;
  outbox : list Mail;
  console : list log_line
}.

Definition set_door_open (b : bool) (s : State) : State :=
  {| TESTING := TESTING s; door_open := b; alarm_active := alarm_active s;
     timer_active := timer_active s; timer_duration := timer_duration s;
     last_logged_door_state := last_logged_door_state s;
     last_logged_alarm_state := last_logged_alarm_state s;
     last_event_timestamps := last_event_timestamps s;
     event_log := event_log s; setting := setting s;
     email_config := email_config s; gpio_out := gpio_out s;
     emitted := emitted s; outbox := outbox s; console := console s |}.

Definition set_alarm_active (b : bool) (s : State) : State :=
  {| TESTING := TESTING s; door_open := door_open s; alarm_active := b;
     timer_active := timer_active s; timer_duration := timer_duration s;
     last_logged_door_state := last_logged_door_state s;
     last_logged_alarm_state := last_logged_alarm_state s;
     last_event_timestamps := last_event_timestamps s;
     event_log := event_log s; setting := setting s;
     email_config := email_config s; gpio_out := gpio_out s;
     emitted := emitted s; outbox := outbox s; console := console s |}.

Definition set_timer_active (b : bool) (s : State) : State :=
  {| TESTING := TESTING s; door_open := door_open s;
     alarm_active := alarm_active s;
     timer_active := b; timer_duration := timer_duration s;
     last_logged_door_state := last_logged_door_state s;
     last_logged_alarm_state := last_logged_alarm_state s;
     last_event_timestamps := last_event_timestamps s;
     event_log := event_log s; setting := setting s;
     email_config := email_config s; gpio_out := gpio_out s;
     emitted := emitted s; outbox := outbox s; console := console s |}.

Definition set_timer_duration (d : Z) (s : State) : State :=
  {| TESTING := TESTING s; door_open := door_open s;
     alarm_active := alarm_active s;
     timer_active := timer_active s; timer_duration := d;
     last_logged_door_state := last_logged_door_state s;
     last_logged_alarm_state := last_logged_alarm_state s;
     last_event_timestamps := last_event_timestamps s;
     event_log := event_log s; setting := setting s;
     email_config := email_config s; gpio_out := gpio_out s;
     emitted := emitted s; outbox := outbox s; console := console s |}.

Definition set_last_logged_door_state (o : option bool) (s : State) : State :=
  {| TESTING := TESTING s; door_open := door_open s;
     alarm_active := alarm_active s;
     timer_active := timer_active s; timer_duration := timer_duration s;
     last_logged_door_state := o;
     last_logged_alarm_state := last_logged_alarm_state s;
     last_event_timestamps := last_event_timestamps s;
     event_log := event_log s; setting := setting s;
     email_config := email_config s; gpio_out := gpio_out s;
     emitted := emitted s; outbox := outbox s; console := console s |}.

Definition set_last_logged_alarm_state (b : bool) (s : State) : State :=
  {| TESTING := TESTING s; door_open := door_open s;
     alarm_active := alarm_active s;
     timer_active := timer_active s; timer_duration := timer_duration s;
     last_logged_door_state := last_logged_door_state s;
     last_logged_alarm_state := b;
     last_event_timestamps := last_event_timestamps s;
     event_log := event_log s; setting := setting s;
     email_config := email_config s; gpio_out := gpio_out s;
     emitted := emitted s; outbox := outbox s; console := console s |}.

Definition set_last_event_timestamps (m : gmap string Q) (s : State) : State :=
  {| TESTING := TESTING s; door_open := door_open s;
     alarm_active := alarm_active s;
     timer_active := timer_active s; timer_duration := timer_duration s;
     last_logged_door_state := last_logged_door_state s;
     last_logged_alarm_state := last_logged_alarm_state s;
     last_event_timestamps := m;
     event_log := event_log s; setting := setting s;
     email_config := email_config s; gpio_out := gpio_out s;
     emitted := emitted s; outbox := outbox s; console := console s |}.

Definition set_event_log (l : list EventLog) (s : State) : State :=
  {| TESTING := TESTING s; door_open := door_open s;
     alarm_active := alarm_active s;
     timer_active := timer_active s; timer_duration := timer_duration s;
     last_logged_door_state := last_logged_door_state s;
     last_logged_alarm_state := last_logged_alarm_state s;
     last_event_timestamps := last_event_timestamps s;
     event_log := l; setting := setting s;
     email_config := email_config s; gpio_out := gpio_out s;
     emitted := emitted s; outbox := outbox s; console := console s |}.

Definition set_gpio_out (g : gmap Z bool) (s : State) : State :=
  {| TESTING := TESTING s; door_open := door_open s;
     alarm_active := alarm_active s;
     timer_active := timer_active s; timer_duration := timer_duration s;
     last_logged_door_state := last_logged_door_state s;
     last_logged_alarm_state := last_logged_alarm_state s;
     last_event_timestamps := last_event_timestamps s;
     event_log := event_log s; setting := setting s;
     email_config := email_config s; gpio_out := g;
     emitted := emitted s; outbox := outbox s; console := console s |}.

Definition set_emitted (l : list Payload) (s : State) : State :=
  {| TESTING := TESTING s; door_open := door_open s;
     alarm_active := alarm_active s;
     timer_active := timer_active s; timer_duration := timer_duration s;
     last_logged_door_state := last_logged_door_state s;
     last_logged_alarm_state := last_logged_alarm_state s;
     last_event_timestamps := last_event_timestamps s;
     event_log := event_log s; setting := setting s;
     email_config := email_config s; gpio_out := gpio_out s;
     emitted := l; outbox := outbox s; console := console s |}.

Definition set_outbox (l : list Mail) (s : State) : State :=
  {| TESTING := TESTING s; door_open := door_open s;
     alarm_active := alarm_active s;
     timer_active := timer_active s; timer_duration := timer_duration s;
     last_logged_door_state := last_logged_door_state s;
     last_logged_alarm_state := last_logged_alarm_state s;
     last_event_timestamps := last_event_timestamps s;
     event_log := event_log s; setting := setting s;
     email_config := email_config s; gpio_out := gpio_out s;
     emitted := emitted s; outbox := l; console := console s |}.

Definition set_console (l : list log_line) (s : State) : State :=
  {| TESTING := TESTING s; door_open := door_open s;
     alarm_active := alarm_active s;
     timer_active := timer_active s; timer_duration := timer_duration s;
     last_logged_door_state := last_logged_door_state s;
     last_logged_alarm_state := last_logged_alarm_state s;
     last_event_timestamps := last_event_timestamps s;
     event_log := event_log s; setting := setting s;
     email_config := email_config s; gpio_out := gpio_out s;
     emitted := emitted s; outbox := outbox s; console := l |}.

(** The state right after the module is loaded and [init_system] has run on
    an empty database: every flag at its declared initial value, the default
    timer setting stored, the green LED on. *)
Definition initial_state (testing : bool) : State :=
  {| TESTING := testing; door_open := false; alarm_active := false;
     timer_active := false; timer_duration := 30;
     last_logged_door_state := None; last_logged_alarm_state := false;
     last_event_timestamps := ∅;
     event_log := []; setting := {[ "timer_duration" := "30" ]};
     email_config := [];
     gpio_out := if testing then ∅
                 else <[16 := false]> (<[13 := false]> {[ 22 := true ]});
     emitted := []; outbox := []; console := [] |}.

(** [GPIO.output(pin, level)], skipped when TESTING is set. *)
Definition GPIO_output (pin : Z) (level : bool) (s : State) : State :=
  if TESTING s then s else set_gpio_out (<[pin := level]> (gpio_out s)) s.

(** The two source files share [monitor_door], [alarm_timer] and
    [send_alarm_email] almost verbatim and differ in [log_event]; a
    definition that differs takes the file as an argument. *)
Inductive source_file : Type :=
| app_py
| app_with_html_errors_py.

(** ** The event pipeline: [log_event] *)

(** What the world decides during one call of [log_event]. *)
Record LogWorld : Type := {
  time_time : Q;               (* time.time(), read under event_lock *)
  datetime_now : Q;            (* datetime.now(ist) *)
  commit_raises : option exn;  (* db.session.commit() *)
  emit_raises : option exn     (* socketio.emit(...) *)
}.

(** The spec's two outcomes of a submission.  Python returns [None] in both
    cases; the distinction records which [return] was taken. *)
Inductive outcome : Type :=
| Deduplicated
| Accepted (p : Payload).

Definition is_accepted (r : result outcome) : bool :=
  match r with Ok (Accepted _) => true | _ => false end.

Definition is_rejected (r : result outcome) : bool :=
  match r with Ok Deduplicated => true | _ => false end.

(** [event_key = f"{event_type}_{description}"] *)
Definition event_key (event_type description : string) : string :=
  event_type +:+ "_" +:+ description.

(** Time-based duplicate prevention: [True] when the call returns here. *)
Definition time_based_duplicate (current_time : Q) (key : string)
    (s : State) : bool :=
  match last_event_timestamps s !! key with
  | Some last => Qltb (current_time - last)%Q 2%Q
  | None => false
  end.

(** State-based duplicate prevention.  [None] when the call returns here,
    otherwise the state with the flag of the event type updated. *)
Definition state_based_update (event_type : string) (s : State)
    : option State :=
  if String.eqb event_type "door_open" then
    match last_logged_door_state s with
    | Some true => None
    | _ => Some (set_last_logged_door_state (Some true) s)
    end
  else if String.eqb event_type "door_close" then
    match last_logged_door_state s with
    | Some false => None
    | _ => Some (set_last_logged_door_state (Some false) s)
    end
  else if String.eqb event_type "alarm_triggered" then
    if last_logged_alarm_state s then None
    else Some (set_last_logged_alarm_state true s)
  else Some s.

(** [last_event_timestamps[event_key] = current_time] *)
Definition stamp (current_time : Q) (key : string) (s : State) : State :=
  set_last_event_timestamps (<[key := current_time]> (last_event_timestamps s)) s.

(** The body of [with event_lock:].  The Boolean tells whether control
    falls through to the persistence block. *)
Definition dedup_section (w : LogWorld) (event_type description : string)
    (s : State) : State * bool :=
  let current_time := time_time w in
  let key := event_key event_type description in
  if time_based_duplicate current_time key s then (s, false)
  else match state_based_update event_type s with
       | None => (s, false)
       | Some s1 => (stamp current_time key s1, true)
       end.

(** The id SQLite gives to a row inserted without one: one more than the
    largest id in the table. *)
Definition next_id (l : list EventLog) : Z :=
  1 + fold_right (fun e m => Z.max (ev_id e) m) 0 l.

(** [db.session.add(event); db.session.commit()] *)
Definition db_insert (w : LogWorld) (event_type description : string)
    (s : State) : State * result EventLog :=
  match commit_raises w with
  | Some e => (s, Raise e)
  | None =>
      let event := {| ev_id := next_id (event_log s);
                      event_type := event_type;
                      description := description;
                      timestamp := datetime_now w |} in
      (set_event_log (event_log s ++ [event]) s, Ok event)
  end.

(** [EventLog.query.filter_by(event_type=ty).count()] *)
Definition count_by_type (ty : string) (l : list EventLog) : nat :=
  length (List.filter (fun e => String.eqb (event_type e) ty) l).

(** The four counters "Get updated statistics" computes. *)
Definition statistics (l : list EventLog) : Statistics :=
  {| total_events := length l;
     door_open_events := count_by_type "door_open" l;
     door_close_events := count_by_type "door_close" l;
     alarm_events := count_by_type "alarm_triggered" l |}.

(** [EventLog.query.order_by(EventLog.timestamp.desc()).first()]; among rows
    with the same timestamp SQL leaves the choice open, the earliest row is
    taken here. *)
Definition last_event (l : list EventLog) : option EventLog :=
  fold_left (fun best e =>
               match best with
               | None => Some e
               | Some b => if Qltb (timestamp b) (timestamp e)
                           then Some e else Some b
               end) l None.

(** "Prepare real-time status payload" *)
Definition status_payload (event : EventLog) (s : State) : Payload :=
  {| p_event := event;
     p_door_status := if door_open s then "Open" else "Closed";
     p_alarm_status := if alarm_active s then "Active" else "Inactive";
     p_timer_set := default "30" (setting s !! "timer_duration");
     p_last_event := last_event (event_log s);
     p_statistics := statistics (event_log s) |}.

(** Sending the payload to the subscribers.  app.py calls [socketio.emit]
    directly; app_with_html_errors.py goes through [broadcast_event], which
    wraps the call in [try ... except Exception]. *)
Definition broadcast (f : source_file) (w : LogWorld) (p : Payload)
    (s : State) : State * result unit :=
  match emit_raises w with
  | None => (set_emitted (emitted s ++ [p]) s, Ok tt)
  | Some e =>
      match f with
      | app_py => (s, Raise e)
      | app_with_html_errors_py => (s, Ok tt)
      end
  end.

(** The body of [with app.app_context():]. *)
Definition persist_and_broadcast (f : source_file) (w : LogWorld)
    (event_type description : string) (s : State) : State * result outcome :=
  match db_insert w event_type description s with
  | (s1, Raise e) => (s1, Raise e)
  | (s1, Ok event) =>
      let payload := status_payload event s1 in
      match broadcast f w payload s1 with
      | (s2, Raise e) => (s2, Raise e)
      | (s2, Ok _) => (s2, Ok (Accepted payload))
      end
  end.

(** [log_event(event_type, description)] *)
Definition log_event (f : source_file) (w : LogWorld)
    (event_type description : string) (s : State) : State * result outcome :=
  match f with
  | app_py => persist_and_broadcast f w event_type description s
  | app_with_html_errors_py =>
      match dedup_section w event_type description s with
      | (s1, false) => (s1, Ok Deduplicated)
      | (s1, true) => persist_and_broadcast f w event_type description s1
      end
  end.

(** A submission as the callers make it: the arguments and what the world
    decides during the call. *)
Record Submission : Type := {
  sub_world : LogWorld;
  sub_type : string;
  sub_description : string
}.

Definition submit (f : source_file) (x : Submission) (s : State)
    : State * result outcome :=
  log_event f (sub_world x) (sub_type x) (sub_description x) s.

(** Consecutive submissions, each running to its end before the next. *)
Fixpoint submit_all (f : source_file) (xs : list Submission) (s : State)
    : State * list (result outcome) :=
  match xs with
  | [] => (s, [])
  | x :: xs' =>
      let '(s1, r) := submit f x s in
      let '(s2, rs) := submit_all f xs' s1 in
      (s2, r :: rs)
  end.

(** A world in which nothing fails. *)
Definition calm (t : Q) : LogWorld :=
  {| time_time := t; datetime_now := t;
     commit_raises := None; emit_raises := None |}.

Definition at_time (t : Q) (event_type description : string) : Submission :=
  {| sub_world := calm t; sub_type := event_type;
     sub_description := description |}.

(** ** Stateful computations that may raise *)

Definition M (A : Type) : Type := State -> State * result A.

Definition ret {A} (a : A) : M A := fun s => (s, Ok a).

Definition raise {A} (e : exn) : M A := fun s => (s, Raise e).

Definition bind {A B} (m : M A) (k : A -> M B) : M B :=
  fun s => match m s with
           | (s1, Ok a) => k a s1
           | (s1, Raise e) => (s1, Raise e)
           end.

Notation "x <~ m ;; k" := (bind m (fun x => k))
  (at level 100, m at next level, right associativity).
Notation "m ;;; k" := (bind m (fun _ => k))
  (at level 100, right associativity).

(** A call that raises when the world says so. *)
Definition may_raise (o : option exn) : M unit :=
  match o with Some e => raise e | None => ret tt end.

Definition modify (g : State -> State) : M unit := fun s => (g s, Ok tt).

Definition print (l : log_line) : M unit :=
  modify (fun s => set_console (console s ++ [l]) s).

(** ** String helpers of the Python library *)

(** White space as [str.strip] sees it, for the ASCII range: the characters
    9 to 13 and 28 to 32. *)
Definition is_space (c : ascii) : bool :=
  let n := nat_of_ascii c in
  ((9 <=? n)%nat && (n <=? 13)%nat) || ((28 <=? n)%nat && (n <=? 32)%nat).

Fixpoint lstrip (s : string) : string :=
  match s with
  | String c s' => if is_space c then lstrip s' else s
  | EmptyString => EmptyString
  end.

Fixpoint rstrip (s : string) : string :=
  match s with
  | EmptyString => EmptyString
  | String c s' =>
      match rstrip s' with
      | EmptyString => if is_space c then EmptyString else String c EmptyString
      | r => String c r
      end
  end.

(** [s.strip()] *)
Definition strip (s : string) : string := rstrip (lstrip s).

(** [s.split(sep)] for a one character separator: never an empty list. *)
Fixpoint split (sep : ascii) (s : string) : list string :=
  match s with
  | EmptyString => [EmptyString]
  | String c s' =>
      if Ascii.eqb c sep then EmptyString :: split sep s'
      else match split sep s' with
           | x :: xs => String c x :: xs
           | [] => [String c EmptyString]
           end
  end.

Definition is_digit (c : ascii) : bool :=
  let n := nat_of_ascii c in (48 <=? n)%nat && (n <=? 57)%nat.

Definition digit_value (c : ascii) : Z := Z.of_nat (nat_of_ascii c) - 48.

(** The digits of an integer literal after its sign: decimal digits, with
    single underscores allowed between two digits.  [acc] is the value read
    so far and [prev] tells whether the previous character was a digit. *)
Fixpoint int_digits (s : string) (acc : Z) (prev : bool) : option Z :=
  match s with
  | EmptyString => if prev then Some acc else None
  | String c s' =>
      if is_digit c then int_digits s' (10 * acc + digit_value c) true
      else if Ascii.eqb c "_" then
             if prev then
               match s' with
               | String d _ => if is_digit d then int_digits s' acc false
                               else None
               | EmptyString => None
               end
             else None
           else None
  end.

(** White space as [int()] skips it around a literal: the characters 9 to
    13 and the space.  The characters 28 to 31, which [str.strip] removes,
    are not among them. *)
Definition is_int_space (c : ascii) : bool :=
  let n := nat_of_ascii c in
  ((9 <=? n)%nat && (n <=? 13)%nat) || (n =? 32)%nat.

Fixpoint skip_left (s : string) : string :=
  match s with
  | String c s' => if is_int_space c then skip_left s' else s
  | EmptyString => EmptyString
  end.

Fixpoint skip_right (s : string) : string :=
  match s with
  | EmptyString => EmptyString
  | String c s' =>
      match skip_right s' with
      | EmptyString =>
          if is_int_space c then EmptyString else String c EmptyString
      | r => String c r
      end
  end.

(** The number of digits of a literal, underscores not counted, and the
    largest number [int()] converts ([sys.int_info.default_max_str_digits];
    the program does not change it). *)
Fixpoint count_digits (s : string) : Z :=
  match s with
  | EmptyString => 0
  | String c s' => (if is_digit c then 1 else 0) + count_digits s'
  end.

Definition max_str_digits : Z := 4300.

(** [int(s)] for a string of ASCII characters: white space around, an
    optional sign, decimal digits, at most [max_str_digits] of them;
    [ValueError] otherwise.  [int()] also reads the decimal digits and the
    blanks of other scripts; a text with a character outside ASCII is
    rejected here, so a statement that rests on a rejection assumes ASCII
    text. *)
Definition int (s : string) : result Z :=
  let body := skip_right (skip_left s) in
  let '(negative, digits) :=
    match body with
    | String "-" r => (true, r)
    | String "+" r => (false, r)
    | _ => (false, body)
    end in
  if max_str_digits <? count_digits digits then Raise ValueError
  else
    match int_digits digits 0 false with
    | Some n => Ok (if negative then - n else n)
    | None => Raise ValueError
    end.

(** ** The notification dispatcher: [send_alarm_email] *)

(** What the world decides during one call of [send_alarm_email]. *)
Record MailWorld : Type := {
  query_raises : option exn;     (* EmailConfig.query.first() *)
  connect_raises : option exn;   (* smtplib.SMTP('smtp.gmail.com', 587) *)
  starttls_raises : option exn;  (* server.starttls() *)
  login_raises : option exn;     (* server.login(...) *)
  sendmail_raises : option exn;  (* server.sendmail(...) *)
  quit_raises : option exn       (* server.quit() *)
}.

Definition subject : string :=
  "🚨 DOOR ALARM TRIGGERED - BSM Security System".

(** [server.sendmail(sender, recipients, text)]: the message leaves the
    process when the call does not raise.  The body is the fixed template
    filled with the duration and the wall-clock time; the record keeps the
    duration. *)
Definition sendmail (w : MailWorld) (m : Mail) : M unit :=
  may_raise (sendmail_raises w) ;;;
  modify (fun s => set_outbox (outbox s ++ [m]) s).

(** The statements inside [try:]; an early [return] ends the computation
    with [ret tt]. *)
Definition send_alarm_email_try (w : MailWorld) (duration : Z) : M unit :=
  print (DEBUG_attempting duration) ;;;
  may_raise (query_raises w) ;;;
  fun s =>
  match head (email_config s) with
  | None => print DEBUG_no_config s
  | Some email_config =>
      if negb (truthy_flag (is_configured email_config)) then
        print DEBUG_not_configured s
      else if negb (truthy (sender_email email_config))
              || negb (truthy (app_password email_config))
              || negb (truthy (recipient_emails email_config)) then
        print (DEBUG_incomplete (truthy (sender_email email_config))
                                (truthy (app_password email_config))
                                (truthy (recipient_emails email_config))) s
      else
        (print (DEBUG_config_found (sender_email email_config)) ;;;
         print (DEBUG_recipients (recipient_emails email_config)) ;;;
         let recipients :=
           map strip (split "," (recipient_emails email_config)) in
         let msg := {| mail_from := sender_email email_config;
                       mail_to := recipients;
                       mail_subject := subject;
                       mail_duration := duration |} in
         print DEBUG_connecting ;;;
         may_raise (connect_raises w) ;;;
         may_raise (starttls_raises w) ;;;
         print DEBUG_login ;;;
         may_raise (login_raises w) ;;;
         print (DEBUG_sending (length recipients)) ;;;
         sendmail w msg ;;;
         may_raise (quit_raises w) ;;;
         print (SUCCESS_sent recipients)) s
  end.

(** The three [except] clauses, tried in the order of the source; an
    exception none of them matches propagates. *)
Definition send_alarm_email_except (e : exn) : M unit :=
  if isinstance e C_SMTPAuthenticationError then print (ERROR_authentication e)
  else if isinstance e C_SMTPException then print (ERROR_smtp e)
  else if isinstance e C_Exception then print (ERROR_unexpected e)
  else raise e.

(** [send_alarm_email(duration)] *)
Definition send_alarm_email (w : MailWorld) (duration : Z) : M unit :=
  fun s =>
  match send_alarm_email_try w duration s with
  | (s1, Ok tt) => (s1, Ok tt)
  | (s1, Raise e) => send_alarm_email_except e s1
  end.

(** A mail world in which nothing fails. *)
Definition mail_calm : MailWorld :=
  {| query_raises := None; connect_raises := None; starttls_raises := None;
     login_raises := None; sendmail_raises := None; quit_raises := None |}.

(** ** The countdown: [alarm_timer]

    The countdown runs in a thread of its own next to the thread of
    [monitor_door], and both read and write the door globals without a lock.
    The thread is therefore a machine that executes one statement per step,
    so that steps of other threads can fall between any two of them. *)

(** The statement the thread executes next. *)
Inductive timer_pc : Type :=
| T_start                 (* start_time = time.time() *)
| T_while                 (* while timer_active and (time.time() - start_time) < duration: *)
| T_check_on              (* if not timer_active or not door_open: break *)
| T_led_on                (* GPIO.output(13, GPIO.HIGH); time.sleep(0.5) *)
| T_check_off             (* if not timer_active or not door_open: break *)
| T_led_off               (* GPIO.output(13, GPIO.LOW); time.sleep(0.5) *)
| T_recheck               (* if timer_active and door_open: *)
| T_trigger_timer_active  (* timer_active = False *)
| T_trigger_alarm_active  (* alarm_active = True *)
| T_trigger_leds          (* GPIO.output(13, GPIO.LOW); GPIO.output(16, GPIO.HIGH) *)
| T_trigger_log           (* log_event('alarm_triggered', ...) *)
| T_trigger_email         (* send_alarm_email(duration) *)
| T_cancel_timer_active   (* timer_active = False *)
| T_cancel_alarm_active   (* alarm_active = False *)
| T_cancel_leds           (* GPIO.output(13, GPIO.LOW); GPIO.output(16, GPIO.LOW) *)
| T_finished              (* the function returned *)
| T_crashed (e : exn).    (* an exception left the function *)

(** The thread: where it is, its argument and its local variable. *)
Record Timer : Type := {
  pc : timer_pc;
  duration : Z;
  start_time : Q
}.

Definition goto (p : timer_pc) (t : Timer) : Timer :=
  {| pc := p; duration := duration t; start_time := start_time t |}.

(** [threading.Thread(target=alarm_timer, args=(duration,))] *)
Definition new_timer (duration : Z) : Timer :=
  {| pc := T_start; duration := duration; start_time := 0 |}.

(** [t.is_alive()] *)
Definition is_alive (t : Timer) : bool :=
  match pc t with
  | T_finished | T_crashed _ => false
  | _ => true
  end.

(** What the world decides during one step of the thread. *)
Record TimerWorld : Type := {
  clock : Q;              (* time.time() *)
  timer_log : LogWorld;
  timer_mail : MailWorld
}.

(** What an observer of the thread sees it do. *)
Inductive timer_event : Type :=
| Loop_elapsed                 (* the while test failed on the elapsed time *)
| Loop_inactive                (* the while test found timer_active False *)
| Loop_break                   (* a break was taken *)
| Recheck (b : bool)           (* the value of the final test *)
| Write_timer_active (b : bool)
| Write_alarm_active (b : bool)
| Submit (event_type description : string) (r : result outcome)
| Notify (duration : Z).       (* send_alarm_email was called *)

(** f'Alarm triggered after {duration} seconds' *)
Definition alarm_description (duration : Z) : string :=
  "Alarm triggered after " +:+ pretty duration +:+ " seconds".

(** One statement of [alarm_timer]. *)
Definition alarm_timer_step (f : source_file) (w : TimerWorld) (t : Timer)
    (s : State) : Timer * State * list timer_event :=
  match pc t with
  | T_start =>
      ({| pc := T_while; duration := duration t; start_time := clock w |},
       s, [])
  | T_while =>
      if timer_active s then
        if Qltb (clock w - start_time t)%Q (inject_Z (duration t))
        then (goto T_check_on t, s, [])
        else (goto T_recheck t, s, [Loop_elapsed])
      else (goto T_recheck t, s, [Loop_inactive])
  | T_check_on =>
      if negb (timer_active s) || negb (door_open s)
      then (goto T_recheck t, s, [Loop_break])
      else (goto T_led_on t, s, [])
  | T_led_on => (goto T_check_off t, GPIO_output 13 true s, [])
  | T_check_off =>
      if negb (timer_active s) || negb (door_open s)
      then (goto T_recheck t, s, [Loop_break])
      else (goto T_led_off t, s, [])
  | T_led_off => (goto T_while t, GPIO_output 13 false s, [])
  | T_recheck =>
      if timer_active s && door_open s
      then (goto T_trigger_timer_active t, s, [Recheck true])
      else (goto T_cancel_timer_active t, s, [Recheck false])
  | T_trigger_timer_active =>
      (goto T_trigger_alarm_active t, set_timer_active false s,
       [Write_timer_active false])
  | T_trigger_alarm_active =>
      (goto T_trigger_leds t, set_alarm_active true s,
       [Write_alarm_active true])
  | T_trigger_leds =>
      (goto T_trigger_log t, GPIO_output 16 true (GPIO_output 13 false s), [])
  | T_trigger_log =>
      let description := alarm_description (duration t) in
      match log_event f (timer_log w) "alarm_triggered" description s with
      | (s1, Ok o) =>
          (goto T_trigger_email t, s1,
           [Submit "alarm_triggered" description (Ok o)])
      | (s1, Raise e) =>
          (goto (T_crashed e) t, s1,
           [Submit "alarm_triggered" description (Raise e)])
      end
  | T_trigger_email =>
      match send_alarm_email (timer_mail w) (duration t) s with
      | (s1, Ok _) => (goto T_finished t, s1, [Notify (duration t)])
      | (s1, Raise e) => (goto (T_crashed e) t, s1, [Notify (duration t)])
      end
  | T_cancel_timer_active =>
      (goto T_cancel_alarm_active t, set_timer_active false s,
       [Write_timer_active false])
  | T_cancel_alarm_active =>
      (goto T_cancel_leds t, set_alarm_active false s,
       [Write_alarm_active false])
  | T_cancel_leds =>
      (goto T_finished t, GPIO_output 16 false (GPIO_output 13 false s), [])
  | T_finished | T_crashed _ => (t, s, [])
  end.

(** A run of the thread among other threads: at each slot either the timer
    executes its next statement, or some other thread changes the shared
    state in whatever way. *)
Inductive slot : Type :=
| Own (w : TimerWorld)
| Other (g : State -> State).

Fixpoint alarm_timer_run (f : source_file) (slots : list slot) (t : Timer)
    (s : State) : Timer * State * list timer_event :=
  match slots with
  | [] => (t, s, [])
  | Own w :: rest =>
      let '(t1, s1, ev) := alarm_timer_step f w t s in
      let '(t2, s2, tr) := alarm_timer_run f rest t1 s1 in
      (t2, s2, ev ++ tr)
  | Other g :: rest => alarm_timer_run f rest t (g s)
  end.

(** The thread's world when nothing fails and the clock shows [now]. *)
Definition tick (now : Q) : TimerWorld :=
  {| clock := now; timer_log := calm now; timer_mail := mail_calm |}.

(** ** The sampling loop: [monitor_door] *)

(** The statement the monitoring thread executes next. *)
Inductive monitor_pc : Type :=
| M_loop                (* while True: the TESTING test, GPIO.input(11), the edge tests *)
| M_open_door_open      (* door_open = True *)
| M_open_alarm_active   (* alarm_active = False *)
| M_open_timer_active   (* timer_active = True *)
| M_open_led            (* GPIO.output(16, GPIO.LOW) *)
| M_open_setting        (* timer_duration = int(timer_setting.value) if timer_setting else 30 *)
| M_open_log            (* log_event('door_open', 'Door opened') *)
| M_open_join           (* if timer_thread and timer_thread.is_alive(): timer_thread.join() *)
| M_open_start          (* timer_thread = threading.Thread(...); timer_thread.start() *)
| M_close_door_open     (* door_open = False *)
| M_close_alarm_active  (* alarm_active = False *)
| M_close_timer_active  (* timer_active = False *)
| M_close_alarm_state   (* last_logged_alarm_state = False; app_with_html_errors.py only *)
| M_close_leds          (* GPIO.output(13, GPIO.LOW); GPIO.output(16, GPIO.LOW) *)
| M_close_log           (* log_event('door_close', 'Door closed') *)
| M_sleep               (* time.sleep(0.1) *)
| M_crashed (e : exn).  (* an exception left the function: the thread is dead *)

(** What the world decides during one iteration of the loop. *)
Record MonitorWorld : Type := {
  gpio_input : result bool;   (* GPIO.input(11) == GPIO.HIGH *)
  monitor_log : LogWorld
}.

(** One statement of [monitor_door].  [alive] is what
    [timer_thread and timer_thread.is_alive()] evaluates to.  The result is
    [None] when the thread cannot move: it is dead, or it waits in [join].
    The third component is the thread started by the statement, if any. *)
Definition monitor_step (f : source_file) (w : MonitorWorld) (alive : bool)
    (at_ : monitor_pc) (s : State) : option (monitor_pc * State * option Timer) :=
  match at_ with
  | M_loop =>
      if TESTING s then Some (M_loop, s, None)   (* time.sleep(1); continue *)
      else match gpio_input w with
           | Raise e => Some (M_crashed e, s, None)
           | Ok door_is_open =>
               if door_is_open && negb (door_open s)
               then Some (M_open_door_open, s, None)
               else if negb door_is_open && door_open s
               then Some (M_close_door_open, s, None)
               else Some (M_sleep, s, None)
           end
  | M_open_door_open => Some (M_open_alarm_active, set_door_open true s, None)
  | M_open_alarm_active =>
      Some (M_open_timer_active, set_alarm_active false s, None)
  | M_open_timer_active => Some (M_open_led, set_timer_active true s, None)
  | M_open_led => Some (M_open_setting, GPIO_output 16 false s, None)
  | M_open_setting =>
      match setting s !! "timer_duration" with
      | Some value =>
          match int value with
          | Ok n => Some (M_open_log, set_timer_duration n s, None)
          | Raise e => Some (M_crashed e, s, None)
          end
      | None => Some (M_open_log, set_timer_duration 30 s, None)
      end
  | M_open_log =>
      match log_event f (monitor_log w) "door_open" "Door opened" s with
      | (s1, Ok _) => Some (M_open_join, s1, None)
      | (s1, Raise e) => Some (M_crashed e, s1, None)
      end
  | M_open_join => if alive then None else Some (M_open_start, s, None)
  | M_open_start => Some (M_sleep, s, Some (new_timer (timer_duration s)))
  | M_close_door_open =>
      Some (M_close_alarm_active, set_door_open false s, None)
  | M_close_alarm_active =>
      Some (M_close_timer_active, set_alarm_active false s, None)
  | M_close_timer_active =>
      Some (match f with
            | app_py => M_close_leds
            | app_with_html_errors_py => M_close_alarm_state
            end, set_timer_active false s, None)
  | M_close_alarm_state =>
      Some (M_close_leds, set_last_logged_alarm_state false s, None)
  | M_close_leds =>
      Some (M_close_log, GPIO_output 16 false (GPIO_output 13 false s), None)
  | M_close_log =>
      match log_event f (monitor_log w) "door_close" "Door closed" s with
      | (s1, Ok _) => Some (M_sleep, s1, None)
      | (s1, Raise e) => Some (M_crashed e, s1, None)
      end
  | M_sleep => Some (M_loop, s, None)
  | M_crashed _ => None
  end.

(** The statements of one iteration executed in a row, from the loop head
    until the thread is back there, dead, or waiting in [join]. *)
Fixpoint monitor_continue (f : source_file) (fuel : nat) (w : MonitorWorld)
    (alive : bool) (at_ : monitor_pc) (s : State) (started : option Timer)
    : monitor_pc * State * option Timer :=
  match fuel with
  | O => (at_, s, started)
  | S fuel' =>
      match at_ with
      | M_loop => (at_, s, started)
      | _ =>
          match monitor_step f w alive at_ s with
          | None => (at_, s, started)
          | Some (at', s', t) =>
              monitor_continue f fuel' w alive at' s'
                (match t with Some _ => t | None => started end)
          end
      end
  end.

Definition monitor_iteration (f : source_file) (w : MonitorWorld)
    (alive : bool) (s : State) : monitor_pc * State * option Timer :=
  match monitor_step f w alive M_loop s with
  | None => (M_loop, s, None)
  | Some (at', s', t) => monitor_continue f 12 w alive at' s' t
  end.

(** A monitor world in which the sensor shows [level] and nothing fails. *)
Definition sample (level : bool) (now : Q) : MonitorWorld :=
  {| gpio_input := Ok level; monitor_log := calm now |}.

(** ** The two threads together *)

Record System : Type := {
  shared : State;
  monitor : monitor_pc;
  timer_thread : option Timer
}.

(** [timer_thread and timer_thread.is_alive()] *)
Definition timer_alive (sys : System) : bool :=
  match timer_thread sys with
  | Some t => is_alive t
  | None => false
  end.

(** The scheduler gives the next step to one of the two threads. *)
Inductive turn : Type :=
| Monitor_turn (w : MonitorWorld)
| Timer_turn (w : TimerWorld).

(** One step of the system; [None] when the chosen thread cannot move. *)
Definition system_step (f : source_file) (x : turn) (sys : System)
    : option (System * list timer_event) :=
  match x with
  | Monitor_turn w =>
      match monitor_step f w (timer_alive sys) (monitor sys) (shared sys) with
      | None => None
      | Some (at', s', started) =>
          Some ({| shared := s'; monitor := at';
                   timer_thread := match started with
                                   | Some t => Some t
                                   | None => timer_thread sys
                                   end |}, [])
      end
  | Timer_turn w =>
      match timer_thread sys with
      | Some t =>
          if is_alive t then
            let '(t', s', ev) := alarm_timer_step f w t (shared sys) in
            Some ({| shared := s'; monitor := monitor sys;
                     timer_thread := Some t' |}, ev)
          else None
      | None => None
      end
  end.

Fixpoint system_run (f : source_file) (xs : list turn) (sys : System)
    : option (System * list timer_event) :=
  match xs with
  | [] => Some (sys, [])
  | x :: xs' =>
      match system_step f x sys with
      | None => None
      | Some (sys1, ev) =>
          match system_run f xs' sys1 with
          | None => None
          | Some (sys2, tr) => Some (sys2, ev ++ tr)
          end
      end
  end.

(** The system when [start_monitoring] has just started the monitor. *)
Definition boot (s : State) : System :=
  {| shared := s; monitor := M_loop; timer_thread := None |}.

(** ** Concurrent calls of [log_event]

    [log_event] is called from the monitoring thread, from the timer thread
    and from request handlers.  A call is a machine that executes one
    statement per step; [event_lock] is a [threading.Lock], free or held by
    one caller. *)

(** The statement a caller executes next. *)
Inductive log_pc : Type :=
| L_acquire                       (* with event_lock: (entering) *)
| L_time_check                    (* current_time = time.time(); the time-based test *)
| L_state_check                   (* the state-based tests and the flag update *)
| L_stamp                         (* last_event_timestamps[event_key] = current_time *)
| L_release (falls_through : bool)  (* leaving the with block, by return or at its end *)
| L_insert                        (* db.session.add(event); db.session.commit() *)
| L_payload (event : EventLog)    (* the statistics and the payload *)
| L_broadcast (p : Payload)       (* broadcast_event(payload) / socketio.emit(...) *)
| L_returned (o : outcome)
| L_raised (e : exn).

(** A caller: where it is, its arguments and its local [current_time]. *)
Record Caller : Type := {
  at_line : log_pc;
  arg_type : string;
  arg_description : string;
  current_time : Q
}.

Definition move (l : log_pc) (c : Caller) : Caller :=
  {| at_line := l; arg_type := arg_type c;
     arg_description := arg_description c;
     current_time := current_time c |}.

(** A fresh call.  app.py has no [with event_lock:] block. *)
Definition call (f : source_file) (event_type description : string) : Caller :=
  {| at_line := match f with
                | app_py => L_insert
                | app_with_html_errors_py => L_acquire
                end;
     arg_type := event_type; arg_description := description;
     current_time := 0 |}.

Record Pool : Type := {
  pool_state : State;
  event_lock : option nat;      (* the caller that holds the lock *)
  callers : list Caller
}.

Definition pool_update (i : nat) (c : Caller) (s : State) (lock : option nat)
    (p : Pool) : Pool :=
  {| pool_state := s; event_lock := lock; callers := <[i := c]> (callers p) |}.

(** Caller [i] executes its next statement; [None] when it cannot: it has
    returned, or it waits for the lock. *)
Definition pool_step (f : source_file) (i : nat) (w : LogWorld) (p : Pool)
    : option Pool :=
  match callers p !! i with
  | None => None
  | Some c =>
      let s := pool_state p in
      let key := event_key (arg_type c) (arg_description c) in
      match at_line c with
      | L_acquire =>
          match event_lock p with
          | None => Some (pool_update i (move L_time_check c) s (Some i) p)
          | Some _ => None
          end
      | L_time_check =>
          let c1 := {| at_line := if time_based_duplicate (time_time w) key s
                                  then L_release false else L_state_check;
                       arg_type := arg_type c;
                       arg_description := arg_description c;
                       current_time := time_time w |} in
          Some (pool_update i c1 s (event_lock p) p)
      | L_state_check =>
          match state_based_update (arg_type c) s with
          | None =>
              Some (pool_update i (move (L_release false) c) s (event_lock p) p)
          | Some s1 =>
              Some (pool_update i (move L_stamp c) s1 (event_lock p) p)
          end
      | L_stamp =>
          Some (pool_update i (move (L_release true) c)
                  (stamp (current_time c) key s) (event_lock p) p)
      | L_release falls_through =>
          Some (pool_update i
                  (move (if falls_through then L_insert
                         else L_returned Deduplicated) c) s None p)
      | L_insert =>
          match db_insert w (arg_type c) (arg_description c) s with
          | (s1, Ok event) =>
              Some (pool_update i (move (L_payload event) c) s1 (event_lock p) p)
          | (s1, Raise e) =>
              Some (pool_update i (move (L_raised e) c) s1 (event_lock p) p)
          end
      | L_payload event =>
          Some (pool_update i (move (L_broadcast (status_payload event s)) c)
                  s (event_lock p) p)
      | L_broadcast payload =>
          match broadcast f w payload s with
          | (s1, Ok _) =>
              Some (pool_update i (move (L_returned (Accepted payload)) c)
                      s1 (event_lock p) p)
          | (s1, Raise e) =>
              Some (pool_update i (move (L_raised e) c) s1 (event_lock p) p)
          end
      | L_returned _ | L_raised _ => None
      end
  end.

(** A schedule names, step by step, the caller that moves and its world. *)
Fixpoint pool_run (f : source_file) (schedule : list (nat * LogWorld))
    (p : Pool) : option Pool :=
  match schedule with
  | [] => Some p
  | (i, w) :: rest =>
      match pool_step f i w p with
      | None => None
      | Some p1 => pool_run f rest p1
      end
  end.

(** The pool before any caller has moved. *)
Definition pool_start (f : source_file) (s : State)
    (calls : list (string * string)) : Pool :=
  {| pool_state := s; event_lock := None;
     callers := map (fun a => call f (fst a) (snd a)) calls |}.

(** Inside the [with event_lock:] block. *)
Definition in_lock_block (c : Caller) : bool :=
  match at_line c with
  | L_time_check | L_state_check | L_stamp | L_release _ => true
  | _ => false
  end.

(** Between the dedup check and the end of the broadcast: the sequence the
    spec wants serialized. *)
Definition in_pipeline (c : Caller) : bool :=
  match at_line c with
  | L_time_check | L_state_check | L_stamp | L_release _
  | L_insert | L_payload _ | L_broadcast _ => true
  | _ => false
  end.

(** The caller has passed both duplicate tests. *)
Definition passed_dedup (c : Caller) : bool :=
  match at_line c with
  | L_stamp | L_release true | L_insert | L_payload _ | L_broadcast _
  | L_returned (Accepted _) | L_raised _ => true
  | _ => false
  end.

Definition caller_key (c : Caller) : string :=
  event_key (arg_type c) (arg_description c).

(** ** Counting what is stored *)

(** The rows of the log that carry a given type and description. *)
Definition count_pair (ty d : string) (l : list EventLog) : nat :=
  length (List.filter (fun e => String.eqb (event_type e) ty
                                && String.eqb (description e) d) l).

(** The three event types that have a counter in the statistics. *)
Definition counted_type (ty : string) : bool :=
  String.eqb ty "door_open" || String.eqb ty "door_close"
  || String.eqb ty "alarm_triggered".

(** The clock reading of a submission. *)
Definition sub_time (x : Submission) : Q := time_time (sub_world x).

(** The rows whose type has a counter in the statistics. *)
Definition counted_rows (l : list EventLog) : list EventLog :=
  List.filter (fun e => counted_type (event_type e)) l.

(** The sum of the three per-type counters of a statistics object. *)
Definition per_type_sum (st : Statistics) : nat :=
  door_open_events st + door_close_events st + alarm_events st.

(** ** Vocabulary of the statements about the dispatcher *)

(** The row is marked configured and has a sender, a password and
    recipients: the negation of the three early returns. *)
Definition config_ready (c : EmailConfig) : bool :=
  truthy_flag (is_configured c) && truthy (sender_email c)
  && truthy (app_password c) && truthy (recipient_emails c).

(** Two states that differ at most in the console and the outbox. *)
Definition same_but_mail (s s' : State) : Prop :=
  TESTING s' = TESTING s /\ door_open s' = door_open s /\
  alarm_active s' = alarm_active s /\ timer_active s' = timer_active s /\
  timer_duration s' = timer_duration s /\
  last_logged_door_state s' = last_logged_door_state s /\
  last_logged_alarm_state s' = last_logged_alarm_state s /\
  last_event_timestamps s' = last_event_timestamps s /\
  event_log s' = event_log s /\ setting s' = setting s /\
  email_config s' = email_config s /\ gpio_out s' = gpio_out s /\
  emitted s' = emitted s.

(** Computations that touch nothing but the console and the outbox. *)
Definition mail_only {A} (m : M A) : Prop :=
  forall s s' r, m s = (s', r) -> same_but_mail s s'.

(** The line an [except] clause prints for an exception. *)
Definition error_line (e : exn) : log_line :=
  match e with
  | SMTPAuthenticationError => ERROR_authentication e
  | SMTPRecipientsRefused | SMTPServerDisconnected | SMTPException =>
      ERROR_smtp e
  | _ => ERROR_unexpected e
  end.

(** ** Vocabulary of the statements about the countdown *)

(** The three ways out of the blink loop. *)
Definition loop_exit (ev : timer_event) : bool :=
  match ev with
  | Loop_elapsed | Loop_inactive | Loop_break => true
  | _ => false
  end.

(** The two early ways out: the door was seen closed or the timer
    deactivated. *)
Definition early_exit (ev : timer_event) : bool :=
  match ev with
  | Loop_inactive | Loop_break => true
  | _ => false
  end.

(** What the thread does after the final test when the submission of the
    alarm event ends with [r]. *)
Definition after_flags (d : Z) (r : result outcome) : list timer_event :=
  match r with
  | Ok _ => [Submit "alarm_triggered" (alarm_description d) r; Notify d]
  | Raise _ => [Submit "alarm_triggered" (alarm_description d) r]
  end.

(** The observable rest of a run from the final test on: [b] is the value
    of the test. *)
Definition decision_trace (d : Z) (b : bool) (r : result outcome)
    : list timer_event :=
  if b then [Recheck true; Write_timer_active false; Write_alarm_active true]
            ++ after_flags d r
  else [Recheck false; Write_timer_active false; Write_alarm_active false].

Definition final_pc (b : bool) (r : result outcome) : timer_pc :=
  if b then match r with Ok _ => T_finished | Raise e => T_crashed e end
  else T_finished.

(** The traces a thread standing at [p] can still produce before it ends,
    with the statement it ends at. *)
Definition remaining (d : Z) (p : timer_pc) (tr : list timer_event)
    (fin : timer_pc) : Prop :=
  match p with
  | T_start | T_while | T_check_on | T_led_on | T_check_off | T_led_off =>
      exists how b r, loop_exit how = true /\
                      tr = how :: decision_trace d b r /\ fin = final_pc b r
  | T_recheck => exists b r, tr = decision_trace d b r /\ fin = final_pc b r
  | T_trigger_timer_active =>
      exists r, tr = [Write_timer_active false; Write_alarm_active true]
                     ++ after_flags d r /\ fin = final_pc true r
  | T_trigger_alarm_active =>
      exists r, tr = [Write_alarm_active true] ++ after_flags d r /\
                fin = final_pc true r
  | T_trigger_leds | T_trigger_log =>
      exists r, tr = after_flags d r /\ fin = final_pc true r
  | T_trigger_email => tr = [Notify d] /\ fin = T_finished
  | T_cancel_timer_active =>
      tr = [Write_timer_active false; Write_alarm_active false] /\
      fin = T_finished
  | T_cancel_alarm_active =>
      tr = [Write_alarm_active false] /\ fin = T_finished
  | T_cancel_leds => tr = [] /\ fin = T_finished
  | T_finished => tr = [] /\ fin = T_finished
  | T_crashed e => tr = [] /\ fin = T_crashed e
  end.

(** The state after one iteration of the monitor run in a row. *)
Definition after_monitor_iteration (f : source_file) (w : MonitorWorld)
    (alive : bool) (s : State) : State :=
  snd (fst (monitor_iteration f w alive s)).

(** ** Vocabulary of the statements about concurrent submissions *)

(** The caller has passed both duplicate tests and written its stamp. *)
Definition stamped (c : Caller) : bool :=
  match at_line c with
  | L_release true | L_insert | L_payload _ | L_broadcast _
  | L_returned (Accepted _) | L_raised _ => true
  | _ => false
  end.

(** What holds of caller [i] in every pool reached from a fresh one: it is
    inside the lock block exactly while it holds the lock; between the
    time-based test and its stamp, the stamp of its key, if any, is two
    seconds or more older than its clock reading; after its stamp, the
    stamp of its key is not older than its clock reading. *)
Definition caller_invariant (p : Pool) (i : nat) (c : Caller) : Prop :=
  (in_lock_block c = true <-> event_lock p = Some i) /\
  (at_line c = L_state_check \/ at_line c = L_stamp ->
   forall t, last_event_timestamps (pool_state p) !! caller_key c = Some t ->
             (2 <= current_time c - t)%Q) /\
  (stamped c = true ->
   exists t, last_event_timestamps (pool_state p) !! caller_key c = Some t /\
             (current_time c <= t)%Q).

(** Two callers with one key that both passed the duplicate tests read the
    clock two seconds or more apart. *)
Definition apart (ci cj : Caller) : Prop :=
  passed_dedup ci = true -> passed_dedup cj = true ->
  caller_key ci = caller_key cj ->
  (2 <= current_time ci - current_time cj)%Q \/
  (2 <= current_time cj - current_time ci)%Q.

Definition pool_invariant (p : Pool) : Prop :=
  (forall i c, callers p !! i = Some c -> caller_invariant p i c) /\
  (forall i j ci cj, i <> j ->
     callers p !! i = Some ci -> callers p !! j = Some cj -> apart ci cj).

(** ** Vocabulary of further statements about the countdown *)

Definition is_own (x : slot) : bool :=
  match x with Own _ => true | Other _ => false end.

(** The number of statements the timer executes itself during a run. *)
Definition own_count (slots : list slot) : nat :=
  length (List.filter is_own slots).

(** An upper bound on the statements the thread still executes once the
    duration has elapsed. *)
Definition steps_left (p : timer_pc) : nat :=
  match p with
  | T_start => 12
  | T_check_on => 11
  | T_led_on => 10
  | T_check_off => 9
  | T_led_off => 8
  | T_while => 7
  | T_recheck => 6
  | T_trigger_timer_active => 5
  | T_trigger_alarm_active => 4
  | T_trigger_leds => 3
  | T_trigger_log => 2
  | T_trigger_email => 1
  | T_cancel_timer_active => 3
  | T_cancel_alarm_active => 2
  | T_cancel_leds => 1
  | T_finished | T_crashed _ => 0
  end.

(** The statements before the final test. *)
Definition before_recheck (p : timer_pc) : bool :=
  match p with
  | T_start | T_while | T_check_on | T_led_on | T_check_off | T_led_off => true
  | _ => false
  end.

(** ** Vocabulary of further statements about the dispatcher *)

(** The message [send_alarm_email] composes from a configuration row. *)
Definition alarm_mail (c : EmailConfig) (duration : Z) : Mail :=
  {| mail_from := sender_email c;
     mail_to := map strip (split "," (recipient_emails c));
     mail_subject := subject;
     mail_duration := duration |}.

(** The first exception among the operations that precede the hand-over of
    the message, in the order of the source. *)
Definition failure_before_send (w : MailWorld) : option exn :=
  match query_raises w with
  | Some e => Some e
  | None =>
      match connect_raises w with
      | Some e => Some e
      | None =>
          match starttls_raises w with
          | Some e => Some e
          | None =>
              match login_raises w with
              | Some e => Some e
              | None => sendmail_raises w
              end
          end
      end
  end.

(** The [email_config] table replaced, as [configure_email] commits it. *)
Definition set_email_config (l : list EmailConfig) (s : State) : State :=
  {| TESTING := TESTING s; door_open := door_open s;
     alarm_active := alarm_active s;
     timer_active := timer_active s; timer_duration := timer_duration s;
     last_logged_door_state := last_logged_door_state s;
     last_logged_alarm_state := last_logged_alarm_state s;
     last_event_timestamps := last_event_timestamps s;
     event_log := event_log s; setting := setting s;
     email_config := l; gpio_out := gpio_out s;
     emitted := emitted s; outbox := outbox s; console := console s |}.

(** A state with one complete, enabled configuration row, as saved from the
    settings page. *)
Definition configured_state : State :=
  set_email_config
    [{| sender_email := "door@example.org";
        app_password := "app-password";
        recipient_emails := "guard@example.org, owner@example.org";
        is_configured := Some true |}]
    (initial_state false).

(** ** Users and the routes that change the configuration

    [init_system] and the routes [create_user], [manage_user] and
    [update_settings] are the same in both files; they differ only through
    the [log_event] they call.  [test_event] is a route of app.py.  A
    handler receives the row Flask-Login loaded for the session
    ([current_user]) and what it reads of the request, and returns its
    response next to the new state.  JSON bodies are objects whose values
    have the type the handler expects; the debugging [print]s of the
    handlers are left out. *)

(** [generate_password_hash(password)], kept symbolic. *)
Inductive PasswordHash : Type :=
| generate_password_hash (password : string).

(** A row of the table [user] of [models.py]. *)
Record User : Type := {
  user_id : Z;
  username : string;                (* unique, not null *)
  password_hash : PasswordHash;
  is_admin : bool;                  (* default False *)
  permissions : string              (* comma separated, default "dashboard" *)
}.

(** The database with the [user] table next to the tables of [State]. *)
Record Site : Type := {
  core : State;
  users : list User
}.

Definition set_core (s : State) (site : Site) : Site :=
  {| core := s; users := users site |}.

Definition set_users (l : list User) (site : Site) : Site :=
  {| core := core site; users := l |}.

Definition set_setting (m : gmap string string) (s : State) : State :=
  {| TESTING := TESTING s; door_open := door_open s;
     alarm_active := alarm_active s;
     timer_active := timer_active s; timer_duration := timer_duration s;
     last_logged_door_state := last_logged_door_state s;
     last_logged_alarm_state := last_logged_alarm_state s;
     last_event_timestamps := last_event_timestamps s;
     event_log := event_log s; setting := m;
     email_config := email_config s; gpio_out := gpio_out s;
     emitted := emitted s; outbox := outbox s; console := console s |}.

(** [sep.join(l)] *)
Fixpoint join (sep : string) (l : list string) : string :=
  match l with
  | [] => ""
  | x :: rest =>
      match rest with
      | [] => x
      | _ :: _ => x +:+ sep +:+ join sep rest
      end
  end.

(** [str(n)] for an integer. *)
Definition str_int (n : Z) : string := pretty n.

(** The guard of the permission-protected routes:
    ['p' in current_user.permissions.split(',')]. *)
Definition has_permission (p : string) (u : User) : bool :=
  bool_decide (p ∈ split "," (permissions u)).

(** The primary key SQLite gives a new row of [user]. *)
Definition next_user_id (l : list User) : Z :=
  1 + fold_right (fun u m => Z.max (user_id u) m) 0 l.

(** [User.query.filter_by(username=name).first()] *)
Definition find_username (name : string) (l : list User) : option User :=
  List.find (fun u => String.eqb (username u) name) l.

(** [User.query.get(user_id)] and [load_user] *)
Definition find_user_id (uid : Z) (l : list User) : option User :=
  List.find (fun u => user_id u =? uid) l.

(** [init_system()]: the default administrator and the default timer setting
    are created when absent, then the LEDs are set.  The administrator gets
    the column default of [permissions]. *)
Definition default_admin (l : list User) : User :=
  {| user_id := next_user_id l; username := "admin";
     password_hash := generate_password_hash "admin";
     is_admin := true; permissions := "dashboard" |}.

Definition init_system (site : Site) : Site :=
  let users1 :=
    match find_username "admin" (users site) with
    | Some _ => users site
    | None => users site ++ [default_admin (users site)]
    end in
  let s := core site in
  let s1 :=
    match setting s !! "timer_duration" with
    | Some _ => s
    | None => set_setting (<["timer_duration" := "30"]> (setting s)) s
    end in
  {| core := GPIO_output 16 false (GPIO_output 13 false (GPIO_output 22 true s1));
     users := users1 |}.

(** What the world decides during one request: whether the commit of the
    handler itself fails, and what happens inside its call of [log_event]. *)
Record RouteWorld : Type := {
  route_commit_raises : option exn;
  route_log : LogWorld
}.

(** The messages a handler flashes. *)
Inductive flash : Type :=
| Permission_denied
| Username_too_short     (* 'Username must be at least 4 characters long' *)
| Password_too_short     (* 'Password must be at least 6 characters long' *)
| No_permission_selected (* 'Please select at least one permission for the user' *)
| User_already_exists (name : string)
| User_created (name : string)
| Error_creating_user (e : exn).

(** The responses of the handlers. *)
Inductive response : Type :=
| Json_success
| Json_error (message : string) (status : Z)
| To_admin_panel (flashes : list flash).

(** [update_settings()].  [data] is what the handler reads of the body:
    nothing when the key 'timer_duration' is absent, otherwise the text
    [str()] gives for its value, which is also what the f-string of the
    description inserts. *)
Definition update_settings (f : source_file) (w : RouteWorld)
    (current_user : User) (data : option string) (s : State)
    : State * result response :=
  if negb (has_permission "controls" current_user) then
    (s, Ok (Json_error "Permission denied" 403))
  else
    match data with
    | Some text =>
        match setting s !! "timer_duration" with
        | Some _ =>
            match route_commit_raises w with
            | Some e => (s, Raise e)
            | None =>
                let s1 :=
                  set_setting (<["timer_duration" := text]> (setting s)) s in
                match log_event f (route_log w) "setting_changed"
                        ("Timer duration changed to " +:+ text +:+ " seconds")
                        s1 with
                | (s2, Ok _) => (s2, Ok Json_success)
                | (s2, Raise e) => (s2, Raise e)
                end
            end
        | None => (s, Ok (Json_error "Invalid setting" 400))
        end
    | None => (s, Ok (Json_error "Invalid setting" 400))
    end.

(** [test_event()] of app.py, with the two keys of the body when present.
    In app_with_html_errors.py the function stands only behind the text
    that ends the module, after the note that the test routes were removed:
    that file serves no such route. *)
Definition test_event (w : LogWorld) (current_user : User)
    (event_type description : option string) (s : State)
    : State * result response :=
  if is_admin current_user then
    match log_event app_py w (default "door_open" event_type)
            (default "Test event" description) s with
    | (s1, Ok _) => (s1, Ok Json_success)
    | (s1, Raise e) => (s1, Raise e)
    end
  else (s, Ok (Json_error "Permission denied" 403)).

(** What [create_user] reads of the submitted form. *)
Record CreateUserForm : Type := {
  form_username : option string;       (* form.username.data *)
  form_password : option string;       (* form.password.data *)
  form_is_admin : bool;                (* form.is_admin.data *)
  form_permissions : list string;      (* form.permissions.data, [] for None *)
  request_permissions : list string    (* request.form.getlist('permissions') *)
}.

(** [len(s)], the number of characters.  A string holds the UTF-8 bytes of
    the text, and a character starts at every byte that is not a
    continuation byte (128 to 191). *)
Fixpoint len (s : string) : nat :=
  match s with
  | EmptyString => O
  | String c s' =>
      let n := nat_of_ascii c in
      if (128 <=? n)%nat && (n <=? 191)%nat then len s' else S (len s')
  end.

(** [not x or len(x) < n] *)
Definition too_short (n : nat) (x : option string) : bool :=
  match x with
  | None => true
  | Some v => (len v <? n)%nat
  end.

Definition selected_permissions (form : CreateUserForm) : list string :=
  match form_permissions form with
  | [] => request_permissions form
  | _ :: _ => form_permissions form
  end.

Definition validation_errors (form : CreateUserForm) : list flash :=
  (if too_short 4 (form_username form) then [Username_too_short] else [])
  ++ (if too_short 6 (form_password form) then [Password_too_short] else [])
  ++ (match selected_permissions form with
      | [] => [No_permission_selected]
      | _ :: _ => []
      end).

Definition new_user (l : list User) (name password : string)
    (admin : bool) (perms : list string) : User :=
  {| user_id := next_user_id l; username := name;
     password_hash := generate_password_hash password;
     is_admin := admin;
     permissions := match perms with
                    | [] => "dashboard"
                    | _ :: _ => join "," perms
                    end |}.

(** [create_user()].  The response is always the redirect to the admin
    panel; what differs is what has been flashed. *)
Definition create_user (f : source_file) (w : RouteWorld)
    (current_user : User) (form : CreateUserForm) (site : Site)
    : Site * response :=
  if negb (is_admin current_user) then
    (site, To_admin_panel [Permission_denied])
  else
    match validation_errors form, form_username form, form_password form with
    | [], Some name, Some password =>
        match find_username name (users site) with
        | Some _ => (site, To_admin_panel [User_already_exists name])
        | None =>
            match route_commit_raises w with
            | Some e => (site, To_admin_panel [Error_creating_user e])
            | None =>
                let u := new_user (users site) name password
                           (form_is_admin form) (selected_permissions form) in
                let site1 := set_users (users site ++ [u]) site in
                match log_event f (route_log w) "user_created"
                        ("User " +:+ name +:+ " created by admin")
                        (core site1) with
                | (s2, Ok _) =>
                    (set_core s2 site1, To_admin_panel [User_created name])
                | (s2, Raise e) =>
                    (set_core s2 site1, To_admin_panel [Error_creating_user e])
                end
            end
        end
    | errors, _, _ => (site, To_admin_panel errors)
    end.

(** The two methods of [manage_user] with what a PUT reads of its body:
    [data.get('is_admin', False)] and [data.get('permissions', '')]. *)
Inductive method : Type :=
| PUT (new_is_admin : option bool) (new_permissions : option string)
| DELETE.

Definition update_user (uid : Z) (admin : bool) (perms : string)
    (l : list User) : list User :=
  map (fun u => if user_id u =? uid
                then {| user_id := user_id u; username := username u;
                        password_hash := password_hash u;
                        is_admin := admin; permissions := perms |}
                else u) l.

Definition delete_user (uid : Z) (l : list User) : list User :=
  List.filter (fun u => negb (user_id u =? uid)) l.

(** [manage_user(user_id)] *)
Definition manage_user (f : source_file) (w : RouteWorld)
    (current_user : User) (uid : Z) (m : method) (site : Site)
    : Site * result response :=
  if negb (is_admin current_user) then
    (site, Ok (Json_error "Permission denied" 403))
  else
    match find_user_id uid (users site) with
    | None => (site, Ok (Json_error "User not found" 404))
    | Some user =>
        match m with
        | PUT new_is_admin new_permissions =>
            match route_commit_raises w with
            | Some e => (site, Raise e)
            | None =>
                let site1 :=
                  set_users (update_user uid (default false new_is_admin)
                               (default "" new_permissions) (users site))
                    site in
                match log_event f (route_log w) "user_updated"
                        ("User " +:+ username user
                         +:+ " permissions updated by admin")
                        (core site1) with
                | (s2, Ok _) => (set_core s2 site1, Ok Json_success)
                | (s2, Raise e) => (set_core s2 site1, Raise e)
                end
            end
        | DELETE =>
            if String.eqb (username user) "admin" then
              (site, Ok (Json_error "Cannot delete admin user" 403))
            else
              match route_commit_raises w with
              | Some e => (site, Raise e)
              | None =>
                  let site1 :=
                    set_users (delete_user uid (users site)) site in
                  match log_event f (route_log w) "user_deleted"
                          ("User " +:+ username user +:+ " deleted by admin")
                          (core site1) with
                  | (s2, Ok _) => (set_core s2 site1, Ok Json_success)
                  | (s2, Raise e) => (set_core s2 site1, Raise e)
                  end
              end
        end
    end.

(** A request as the server receives it: the user id of the session, what
    the world decides while it is served, and the route with its input. *)
Inductive route : Type :=
| Create_user (form : CreateUserForm)
| Manage_user (uid : Z) (m : method)
| Update_settings (data : option string)
| Test_event (event_type description : option string).

Record Request : Type := {
  session_user : Z;
  request_world : RouteWorld;
  request_route : route
}.

(** One request: [login_required] sends a session without a user row to the
    login page; otherwise the handler runs with [current_user] the row
    [load_user] returns.  A request for a route the file does not serve is
    answered with 404 and changes nothing. *)
Definition serve (f : source_file) (r : Request) (site : Site) : Site :=
  match find_user_id (session_user r) (users site) with
  | None => site
  | Some current_user =>
      match request_route r with
      | Create_user form =>
          fst (create_user f (request_world r) current_user form site)
      | Manage_user uid m =>
          fst (manage_user f (request_world r) current_user uid m site)
      | Update_settings data =>
          set_core (fst (update_settings f (request_world r) current_user
                           data (core site))) site
      | Test_event ty d =>
          match f with
          | app_py =>
              set_core (fst (test_event (route_log (request_world r))
                               current_user ty d (core site))) site
          | app_with_html_errors_py => site
          end
      end
  end.

(** Requests served one after the other. *)
Definition serve_all (f : source_file) (rs : list Request) (site : Site)
    : Site :=
  fold_left (fun site r => serve f r site) rs site.

(** ** Vocabulary of the statements about users and routes *)

Definition usernames (site : Site) : list string := map username (users site).

Definition no_admin (site : Site) : Prop :=
  Forall (fun u => is_admin u = false) (users site).

Fixpoint contains (c : ascii) (s : string) : bool :=
  match s with
  | EmptyString => false
  | String c' s' => Ascii.eqb c' c || contains c s'
  end.

(** A world in which the commit of the handler succeeds. *)
Definition route_calm (t : Q) : RouteWorld :=
  {| route_commit_raises := None; route_log := calm t |}.

(** An empty database before [init_system] has run. *)
Definition blank_site (testing : bool) : Site :=
  {| core := {| TESTING := testing; door_open := false; alarm_active := false;
                timer_active := false; timer_duration := 30;
                last_logged_door_state := None;
                last_logged_alarm_state := false;
                last_event_timestamps := ∅;
                event_log := []; setting := ∅; email_config := [];
                gpio_out := ∅; emitted := []; outbox := []; console := [] |};
     users := [] |}.

Fixpoint all_chars (p : ascii -> bool) (s : string) : bool :=
  match s with
  | EmptyString => true
  | String c s' => p c && all_chars p s'
  end.

(** An operator with the permissions of the dashboard and the controls, and
    the administrator [init_system] creates on an empty table. *)
Definition operator : User :=
  {| user_id := 2; username := "operator";
     password_hash := generate_password_hash "secret";
     is_admin := false; permissions := "dashboard,controls" |}.

Definition admin : User := default_admin [].

(** The user table keeps its two unique columns unique. *)
Definition users_ok (site : Site) : Prop :=
  NoDup (usernames site) /\ NoDup (map user_id (users site)).

(** The database after [init_system] has run on an empty one, and a form as
    the admin panel submits it. *)
Definition fresh_site : Site := init_system (blank_site false).

Definition guard_form : CreateUserForm :=
  {| form_username := Some "guard";
     form_password := Some "s3cret!";
     form_is_admin := false;
     form_permissions := ["dashboard"; "event_log"];
     request_permissions := ["dashboard"; "event_log"] |}.

(** The request by which user [u] rewrites the own row with an empty body. *)
Definition demote_self (w : RouteWorld) (u : User) : Request :=
  {| session_user := user_id u; request_world := w;
     request_route := Manage_user (user_id u) (PUT None None) |}.

(** A session of the administrator: a user is created, the deletion of
    'admin' is refused, the new user is made administrator and then takes
    the administrator's rights away. *)
Definition example_requests : list Request :=
  [ {| session_user := 1; request_world := route_calm 0;
       request_route := Create_user guard_form |};
    {| session_user := 1; request_world := route_calm 10;
       request_route := Manage_user 1 DELETE |};
    {| session_user := 1; request_world := route_calm 20;
       request_route := Manage_user 2 (PUT (Some true) (Some "admin")) |};
    {| session_user := 2; request_world := route_calm 30;
       request_route := Manage_user 1 (PUT None None) |} ].

(** A request during which the write to the event table fails, and one
    during which only the broadcast fails. *)
Definition log_commit_fails (t : Q) (e : exn) : RouteWorld :=
  {| route_commit_raises := None;
     route_log := {| time_time := t; datetime_now := t;
                     commit_raises := Some e; emit_raises := None |} |}.

Definition emit_fails (t : Q) (e : exn) : RouteWorld :=
  {| route_commit_raises := None;
     route_log := {| time_time := t; datetime_now := t;
                     commit_raises := None; emit_raises := Some e |} |}.

(** A text of ASCII characters only. *)
Definition is_ascii (s : string) : bool :=
  all_chars (fun c => (nat_of_ascii c <? 128)%nat) s.

(** * Properties *)

(** ** Clock comparisons *)

Lemma Qltb_lt a b : Qltb a b = true <-> (a < b)%Q.
Proof.
  unfold Qltb. rewrite Qlt_alt. destruct (a ?= b)%Q; split; congruence.
Qed.

Lemma Qltb_ge a b : Qltb a b = false <-> (b <= a)%Q.
Proof.
  split; intros H.
  - apply Qnot_lt_le. intros Hlt. apply Qltb_lt in Hlt. congruence.
  - destruct (Qltb a b) eqn:E; [|reflexivity].
    apply Qltb_lt in E. exfalso. eapply Qlt_not_le; eauto.
Qed.


(** ** The event pipeline, one call at a time *)

Section Pipeline.

Implicit Types (s : State) (w : LogWorld) (f : source_file).

(** The persistence block never touches the door flags or the dedup
    variables; it appends at most one row. *)
Lemma db_insert_frame w ty d s s' r :
  db_insert w ty d s = (s', r) ->
  door_open s' = door_open s /\ alarm_active s' = alarm_active s /\
  timer_active s' = timer_active s /\
  last_logged_door_state s' = last_logged_door_state s /\
  last_logged_alarm_state s' = last_logged_alarm_state s /\
  last_event_timestamps s' = last_event_timestamps s.
Proof.
  unfold db_insert. destruct (commit_raises w); intros [= <- <-]; cbn; auto 10.
Qed.

Lemma db_insert_log w ty d s s' r :
  db_insert w ty d s = (s', r) ->
  match r with
  | Ok e => event_log s' = event_log s ++ [e] /\
            event_type e = ty /\ description e = d
  | Raise _ => s' = s
  end.
Proof.
  unfold db_insert. destruct (commit_raises w); intros [= <- <-]; cbn; auto.
Qed.

Lemma broadcast_frame f w p s s' r :
  broadcast f w p s = (s', r) ->
  door_open s' = door_open s /\ alarm_active s' = alarm_active s /\
  timer_active s' = timer_active s /\
  last_logged_door_state s' = last_logged_door_state s /\
  last_logged_alarm_state s' = last_logged_alarm_state s /\
  last_event_timestamps s' = last_event_timestamps s /\
  event_log s' = event_log s.
Proof.
  unfold broadcast. destruct (emit_raises w), f; intros [= <- <-]; cbn; auto 10.
Qed.

Lemma persist_and_broadcast_frame f w ty d s s' r :
  persist_and_broadcast f w ty d s = (s', r) ->
  door_open s' = door_open s /\ alarm_active s' = alarm_active s /\
  timer_active s' = timer_active s /\
  last_logged_door_state s' = last_logged_door_state s /\
  last_logged_alarm_state s' = last_logged_alarm_state s /\
  last_event_timestamps s' = last_event_timestamps s.
Proof.
  unfold persist_and_broadcast.
  destruct (db_insert w ty d s) as [s1 [e|e]] eqn:Hi.
  - destruct (broadcast f w _ s1) as [s2 [u|e']] eqn:Hb; intros [= <- <-];
      apply db_insert_frame in Hi; apply broadcast_frame in Hb;
      intuition congruence.
  - intros [= <- <-]. now apply db_insert_frame in Hi.
Qed.

(** An accepted call appends exactly the event of its payload; a call that
    raises has appended it or nothing. *)
Lemma persist_and_broadcast_log f w ty d s s' r :
  persist_and_broadcast f w ty d s = (s', r) ->
  match r with
  | Ok (Accepted p) =>
      event_log s' = event_log s ++ [p_event p] /\
      event_type (p_event p) = ty /\ description (p_event p) = d /\
      p_statistics p = statistics (event_log s')
  | Ok Deduplicated => False
  | Raise _ => exists l, event_log s' = event_log s ++ l /\ (length l <= 1)%nat
  end.
Proof.
  unfold persist_and_broadcast.
  destruct (db_insert w ty d s) as [s1 [e|e]] eqn:Hi;
    pose proof (db_insert_log _ _ _ _ _ _ Hi) as Hl; cbn in Hl.
  - destruct Hl as (Hl & Hty & Hd).
    destruct (broadcast f w _ s1) as [s2 [u|e']] eqn:Hb; intros [= <- <-];
      apply broadcast_frame in Hb; destruct Hb as (_&_&_&_&_&_&Hb).
    + cbn. rewrite Hb. auto.
    + exists [e]. rewrite Hb. auto.
  - intros [= <- <-]. subst s1. exists []. rewrite app_nil_r. auto.
Qed.

(** The three exits of the lock block. *)
Lemma dedup_section_cases w ty d s :
  let key := event_key ty d in
  (time_based_duplicate (time_time w) key s = true /\
   dedup_section w ty d s = (s, false)) \/
  (time_based_duplicate (time_time w) key s = false /\
   state_based_update ty s = None /\
   dedup_section w ty d s = (s, false)) \/
  (exists s1, time_based_duplicate (time_time w) key s = false /\
              state_based_update ty s = Some s1 /\
              dedup_section w ty d s = (stamp (time_time w) key s1, true)).
Proof.
  cbn. unfold dedup_section.
  destruct (time_based_duplicate _ _ s); [now left|right].
  destruct (state_based_update ty s) as [s1|]; [right; eauto|left; auto].
Qed.

Lemma dedup_section_rejects w ty d s s' :
  dedup_section w ty d s = (s', false) -> s' = s.
Proof.
  destruct (dedup_section_cases w ty d s) as [[_ H]|[(_&_&H)|(s1&_&_&H)]];
    rewrite H; congruence.
Qed.

(** What the state-based step does to the state: nothing but the flag. *)
Lemma state_based_update_frame ty s s1 :
  state_based_update ty s = Some s1 ->
  last_event_timestamps s1 = last_event_timestamps s /\
  event_log s1 = event_log s /\ emitted s1 = emitted s /\
  door_open s1 = door_open s /\ alarm_active s1 = alarm_active s /\
  timer_active s1 = timer_active s.
Proof.
  unfold state_based_update.
  repeat match goal with
         | |- context [if ?b then _ else _] => destruct b
         | |- context [match last_logged_door_state s with _ => _ end] =>
             destruct (last_logged_door_state s) as [[|]|]
         end; intros [= <-]; cbn; auto 10.
Qed.

(** A rejected submission changes nothing at all. *)
Lemma log_event_rejected_same w ty d s s' :
  log_event app_with_html_errors_py w ty d s = (s', Ok Deduplicated) -> s' = s.
Proof.
  unfold log_event.
  destruct (dedup_section w ty d s) as [s1 [|]] eqn:Hd.
  - intros H. apply persist_and_broadcast_log in H. contradiction.
  - intros [= <-]. now apply dedup_section_rejects in Hd.
Qed.

(** A submission that is not rejected has passed the lock block, which has
    stamped its key with the clock reading of the call. *)
Lemma log_event_passed w ty d s s' r :
  log_event app_with_html_errors_py w ty d s = (s', r) ->
  r <> Ok Deduplicated ->
  exists s1,
    time_based_duplicate (time_time w) (event_key ty d) s = false /\
    state_based_update ty s = Some s1 /\
    persist_and_broadcast app_with_html_errors_py w ty d
      (stamp (time_time w) (event_key ty d) s1) = (s', r) /\
    last_event_timestamps s'
      = <[event_key ty d := time_time w]> (last_event_timestamps s).
Proof.
  unfold log_event. intros H Hr.
  destruct (dedup_section_cases w ty d s) as [[_ E]|[(_&_&E)|(s1&Ht&Hs&E)]];
    rewrite E in H; try (injection H as <- <-; congruence).
  exists s1. repeat split; auto.
  pose proof (persist_and_broadcast_frame _ _ _ _ _ _ _ H) as (_&_&_&_&_&Hts).
  rewrite Hts. cbn. apply state_based_update_frame in Hs as (-> & _). reflexivity.
Qed.

(** The time-based test rejects whatever key was stamped less than two
    seconds before. *)
Lemma time_window_rejects w ty d s last :
  last_event_timestamps s !! event_key ty d = Some last ->
  (time_time w - last < 2)%Q ->
  log_event app_with_html_errors_py w ty d s = (s, Ok Deduplicated).
Proof.
  intros Hl Hlt. unfold log_event, dedup_section, time_based_duplicate.
  rewrite Hl. apply Qltb_lt in Hlt. now rewrite Hlt.
Qed.

End Pipeline.

(** ** Duplicates within the two second window *)

Section Window.

Abbreviation errors := app_with_html_errors_py.

Lemma count_pair_app ty d l l' :
  count_pair ty d (l ++ l') = (count_pair ty d l + count_pair ty d l')%nat.
Proof. unfold count_pair. now rewrite List.filter_app, length_app. Qed.

Lemma count_by_type_app ty l l' :
  count_by_type ty (l ++ l') = (count_by_type ty l + count_by_type ty l')%nat.
Proof. unfold count_by_type. now rewrite List.filter_app, length_app. Qed.

(** What any call does to the log: nothing, or one row with its arguments. *)
Lemma log_event_appends f w ty d s s' r :
  log_event f w ty d s = (s', r) ->
  match r with
  | Ok (Accepted p) =>
      event_log s' = event_log s ++ [p_event p] /\
      event_type (p_event p) = ty /\ description (p_event p) = d /\
      p_statistics p = statistics (event_log s')
  | Ok Deduplicated => event_log s' = event_log s
  | Raise _ =>
      event_log s' = event_log s \/
      exists e, event_log s' = event_log s ++ [e] /\
                event_type e = ty /\ description e = d
  end.
Proof.
  assert (Hpb : forall s0, persist_and_broadcast f w ty d s0 = (s', r) ->
    match r with
    | Ok (Accepted p) =>
        event_log s' = event_log s0 ++ [p_event p] /\
        event_type (p_event p) = ty /\ description (p_event p) = d /\
        p_statistics p = statistics (event_log s')
    | Ok Deduplicated => event_log s' = event_log s0
    | Raise _ =>
        event_log s' = event_log s0 \/
        exists e, event_log s' = event_log s0 ++ [e] /\
                  event_type e = ty /\ description e = d
    end).
  { intros s0. unfold persist_and_broadcast.
    destruct (db_insert w ty d s0) as [s1 [e|e]] eqn:Hi;
      pose proof (db_insert_log _ _ _ _ _ _ Hi) as Hl; cbn in Hl.
    - destruct Hl as (Hl & Hty & Hd).
      destruct (broadcast f w _ s1) as [s2 [u|e']] eqn:Hb; intros [= <- <-];
        apply broadcast_frame in Hb; destruct Hb as (_&_&_&_&_&_&Hb).
      + cbn. rewrite Hb. auto.
      + right. exists e. rewrite Hb. auto.
    - intros [= <- <-]. subst s1. now left. }
  unfold log_event. destruct f; [apply Hpb|].
  destruct (dedup_section_cases w ty d s) as [[_ E]|[(_&_&E)|(s1&_&Hs&E)]];
    rewrite E; try (intros [= <- <-]; reflexivity).
  intros H. apply Hpb in H. cbn in H.
  apply state_based_update_frame in Hs as (_ & Hlog & _).
  rewrite Hlog in H. exact H.
Qed.

Lemma submit_all_cons f x xs s :
  submit_all f (x :: xs) s
  = let '(s1, r) := submit f x s in
    let '(s2, rs) := submit_all f xs s1 in (s2, r :: rs).
Proof. reflexivity. Qed.

(** While a key carries a stamp less than two seconds old, submissions leave
    the stamp alone and add no row with the type and description of that
    key: the ones with the key are rejected, the others concern other rows. *)
Lemma window_stays_shut ty d t1 limit mid :
  (limit - t1 < 2)%Q ->
  Forall (fun x => (sub_time x <= limit)%Q) mid ->
  forall s s2 rs,
    last_event_timestamps s !! event_key ty d = Some t1 ->
    submit_all errors mid s = (s2, rs) ->
    last_event_timestamps s2 !! event_key ty d = Some t1 /\
    count_pair ty d (event_log s2) = count_pair ty d (event_log s).
Proof.
  intros Hlim Hmid. induction Hmid as [|x mid Hx _ IH]; intros s s2 rs Hts.
  - cbn. intros [= <- <-]. auto.
  - rewrite submit_all_cons. destruct (submit errors x s) as [s1 r] eqn:Hsub.
    destruct (submit_all errors mid s1) as [s2' rs'] eqn:Hall.
    intros [= <- <-].
    assert (Hs1 : last_event_timestamps s1 !! event_key ty d = Some t1 /\
                  count_pair ty d (event_log s1) = count_pair ty d (event_log s)).
    { unfold submit in Hsub.
      destruct (decide (event_key (sub_type x) (sub_description x)
                        = event_key ty d)) as [Hk|Hk].
      - rewrite (time_window_rejects _ _ _ _ t1) in Hsub.
        + injection Hsub as <- <-. auto.
        + now rewrite Hk.
        + unfold sub_time in Hx. lra.
      - pose proof (log_event_appends _ _ _ _ _ _ _ Hsub) as Hlog.
        assert (Hdec : r = Ok Deduplicated \/ r <> Ok Deduplicated)
          by (destruct r as [[|?]|?]; auto; right; discriminate).
        destruct Hdec as [->|Hr].
        + apply log_event_rejected_same in Hsub as ->. auto.
        + apply log_event_passed in Hsub as (s0 & _ & _ & _ & Hstamp); [|exact Hr].
          split; [rewrite Hstamp, lookup_insert_ne; auto|].
          assert (Hne : forall e, event_type e = sub_type x ->
                                  description e = sub_description x ->
                                  count_pair ty d [e] = 0%nat).
          { intros e He Hd. unfold count_pair. cbn.
            destruct (String.eqb_spec (event_type e) ty) as [E1|]; [|reflexivity].
            destruct (String.eqb_spec (description e) d) as [E2|]; [|reflexivity].
            exfalso. apply Hk. congruence. }
          destruct r as [[|p]|e].
          * congruence.
          * destruct Hlog as (-> & He & Hd & _).
            rewrite count_pair_app, Hne; auto.
          * destruct Hlog as [->|(e0 & -> & He & Hd)]; [reflexivity|].
            rewrite count_pair_app, Hne; auto. }
    destruct Hs1 as [Hts1 Hc1].
    destruct (IH s1 s2' rs' Hts1 Hall) as [H1 H2]. split; congruence.
Qed.

(** C2, as amended: in app_with_html_errors.py, once a submission is
    accepted, a submission with the same event type and description whose
    clock reading is less than two seconds later is rejected and leaves the
    whole state as it was (nothing persisted, nothing broadcast, no dedup
    variable touched), whatever was submitted in between; over the whole
    sequence exactly one event with that type and description is persisted.
    (app.py has no duplicate suppression.) *)
Theorem duplicate_within_window_rejected s x1 mid x2 s1 r1 s2 rs :
  submit errors x1 s = (s1, r1) ->
  is_accepted r1 = true ->
  submit_all errors mid s1 = (s2, rs) ->
  Forall (fun x => (sub_time x <= sub_time x2)%Q) mid ->
  sub_type x2 = sub_type x1 ->
  sub_description x2 = sub_description x1 ->
  (sub_time x2 - sub_time x1 < 2)%Q ->
  submit errors x2 s2 = (s2, Ok Deduplicated) /\
  count_pair (sub_type x1) (sub_description x1) (event_log s2)
  = S (count_pair (sub_type x1) (sub_description x1) (event_log s)).
Proof.
  intros H1 Hacc Hmid Hle Hty Hd Hlt.
  set (ty := sub_type x1) in *. set (d := sub_description x1) in *.
  unfold submit in H1. fold ty d in H1.
  pose proof (log_event_appends _ _ _ _ _ _ _ H1) as Hlog.
  destruct r1 as [[|p]|e]; try discriminate. destruct Hlog as (Hlog & Hpt & Hpd & _).
  apply log_event_passed in H1 as (s0 & _ & _ & _ & Hstamp); [|discriminate].
  assert (Hts : last_event_timestamps s1 !! event_key ty d = Some (sub_time x1)).
  { rewrite Hstamp. apply lookup_insert_eq. }
  destruct (window_stays_shut ty d _ _ mid Hlt Hle s1 s2 rs Hts Hmid) as [Hts2 Hc].
  split.
  - unfold submit. rewrite Hty, Hd. fold ty d.
    apply (time_window_rejects _ _ _ _ (sub_time x1)); auto.
  - rewrite Hc, Hlog, count_pair_app. unfold count_pair at 2. cbn.
    rewrite Hpt, Hpd, !String.eqb_refl. cbn. lia.
Qed.

Lemma duplicate_within_window_rejected_witness :
  submit errors (at_time 0.5 "door_open" "Door opened")
    (fst (submit errors (at_time 0 "door_open" "Door opened")
            (initial_state false)))
  = (fst (submit errors (at_time 0 "door_open" "Door opened")
            (initial_state false)), Ok Deduplicated).
Proof.
  refine (proj1 (duplicate_within_window_rejected (initial_state false)
            (at_time 0 "door_open" "Door opened") []
            (at_time 0.5 "door_open" "Door opened") _ _ _ [] _ _ _ _ _ _ _)).
  - apply surjective_pairing.
  - vm_compute. reflexivity.
  - reflexivity.
  - constructor.
  - reflexivity.
  - reflexivity.
  - vm_compute. reflexivity.
Defined.

(** C2, as stated, fails on app.py: its [log_event] has no dedup step, and
    the same submission made again half a second later is persisted and
    broadcast a second time. *)
Lemma app_py_persists_duplicates :
  let '(s, rs) := submit_all app_py
                    [at_time 0 "door_open" "Door opened";
                     at_time 0.5 "door_open" "Door opened"]
                    (initial_state false) in
  map is_accepted rs = [true; true] /\
  count_pair "door_open" "Door opened" (event_log s) = 2%nat /\
  length (emitted s) = 2%nat.
Proof. vm_compute. auto. Qed.

End Window.

(** ** State-based suppression *)

Section Suppression.

Abbreviation errors := app_with_html_errors_py.

(** The flags after the state-based step, when the call is not rejected. *)
Lemma state_based_update_flags ty s s1 :
  state_based_update ty s = Some s1 ->
  last_logged_door_state s1
  = (if String.eqb ty "door_open" then Some true
     else if String.eqb ty "door_close" then Some false
     else last_logged_door_state s) /\
  last_logged_alarm_state s1
  = (if String.eqb ty "door_open" then last_logged_alarm_state s
     else if String.eqb ty "door_close" then last_logged_alarm_state s
     else if String.eqb ty "alarm_triggered" then true
     else last_logged_alarm_state s).
Proof.
  unfold state_based_update.
  destruct (String.eqb ty "door_open").
  { destruct (last_logged_door_state s) as [[|]|]; intros [= <-]; cbn; auto. }
  destruct (String.eqb ty "door_close").
  { destruct (last_logged_door_state s) as [[|]|]; intros [= <-]; cbn; auto. }
  destruct (String.eqb ty "alarm_triggered").
  { destruct (last_logged_alarm_state s) eqn:E; intros [= <-]; cbn; auto. }
  intros [= <-]. auto.
Qed.

Lemma state_based_update_rejects ty s :
  state_based_update ty s = None <->
  (ty = "door_open" /\ last_logged_door_state s = Some true) \/
  (ty = "door_close" /\ last_logged_door_state s = Some false) \/
  (ty = "alarm_triggered" /\ last_logged_alarm_state s = true).
Proof.
  unfold state_based_update.
  destruct (String.eqb_spec ty "door_open") as [->|H1].
  { destruct (last_logged_door_state s) as [[|]|]; cbn; split;
      try discriminate; auto; intros [[_ H]|[[H _]|[H _]]]; discriminate. }
  destruct (String.eqb_spec ty "door_close") as [->|H2].
  { destruct (last_logged_door_state s) as [[|]|]; cbn; split;
      try discriminate; auto; intros [[H _]|[[_ H]|[H _]]]; discriminate. }
  destruct (String.eqb_spec ty "alarm_triggered") as [->|H3].
  { destruct (last_logged_alarm_state s); cbn; split;
      try discriminate; auto; intros [[H _]|[[H _]|[_ H]]]; discriminate. }
  split; [discriminate|]. intros [[H _]|[[H _]|[H _]]]; contradiction.
Qed.

(** A submission the state-based test refuses is rejected, whether or not
    the time-based test would have refused it first. *)
Lemma suppressed_is_rejected w ty d s :
  state_based_update ty s = None ->
  log_event errors w ty d s = (s, Ok Deduplicated).
Proof.
  intros H. unfold log_event.
  destruct (dedup_section_cases w ty d s) as [[_ E]|[(_&_&E)|(s1&_&Hs&_)]];
    [now rewrite E|now rewrite E|congruence].
Qed.

(** The flags after any call. *)
Lemma log_event_flags w ty d s s' r :
  log_event errors w ty d s = (s', r) ->
  if is_rejected r then s' = s
  else
    last_logged_door_state s'
    = (if String.eqb ty "door_open" then Some true
       else if String.eqb ty "door_close" then Some false
       else last_logged_door_state s) /\
    last_logged_alarm_state s'
    = (if String.eqb ty "door_open" then last_logged_alarm_state s
       else if String.eqb ty "door_close" then last_logged_alarm_state s
       else if String.eqb ty "alarm_triggered" then true
       else last_logged_alarm_state s).
Proof.
  intros H. destruct (is_rejected r) eqn:Hr.
  - destruct r as [[|?]|?]; try discriminate.
    now apply log_event_rejected_same in H.
  - apply log_event_passed in H as (s1 & _ & Hs & Hp & _).
    + apply persist_and_broadcast_frame in Hp as (_&_&_&Hd&Ha&_).
      rewrite Hd, Ha. cbn. now apply state_based_update_flags.
    + intros ->. discriminate.
Qed.

(** While the door is recorded open and no door_close is submitted, the
    record stays and no door_open row is added. *)
Lemma door_stays_open mid :
  Forall (fun x => sub_type x <> "door_close") mid ->
  forall s s2 rs,
    last_logged_door_state s = Some true ->
    submit_all errors mid s = (s2, rs) ->
    last_logged_door_state s2 = Some true /\
    count_by_type "door_open" (event_log s2)
    = count_by_type "door_open" (event_log s).
Proof.
  induction 1 as [|x mid Hx _ IH]; intros s s2 rs Hopen.
  - cbn. intros [= <- <-]. auto.
  - rewrite submit_all_cons. destruct (submit errors x s) as [s1 r] eqn:Hsub.
    destruct (submit_all errors mid s1) as [s2' rs'] eqn:Hall.
    intros [= <- <-].
    assert (Hs1 : last_logged_door_state s1 = Some true /\
                  count_by_type "door_open" (event_log s1)
                  = count_by_type "door_open" (event_log s)).
    { unfold submit in Hsub.
      pose proof (log_event_flags _ _ _ _ _ _ Hsub) as Hfl.
      pose proof (log_event_appends _ _ _ _ _ _ _ Hsub) as Hlog.
      destruct (is_rejected r) eqn:Hr; [subst s1; auto|].
      destruct (String.eqb_spec (sub_type x) "door_open") as [Hty|Hty].
      { rewrite Hty, suppressed_is_rejected in Hsub.
        - injection Hsub as <- <-. discriminate.
        - apply state_based_update_rejects. auto. }
      destruct (String.eqb_spec (sub_type x) "door_close") as [|_]; [contradiction|].
      destruct Hfl as [Hfl _]. split; [congruence|].
      assert (Hne : forall e, event_type e = sub_type x ->
                              count_by_type "door_open" [e] = 0%nat).
      { intros e He. unfold count_by_type. cbn. rewrite He.
        destruct (String.eqb_spec (sub_type x) "door_open"); [contradiction|reflexivity]. }
      destruct r as [[|p]|e].
      - discriminate.
      - destruct Hlog as (-> & He & _). rewrite count_by_type_app, Hne; auto.
      - destruct Hlog as [->|(e0 & -> & He & _)]; [reflexivity|].
        rewrite count_by_type_app, Hne; auto. }
    destruct Hs1 as [Ho1 Hc1].
    destruct (IH s1 s2' rs' Ho1 Hall) as [H1 H2]. split; congruence.
Qed.

(** C3, as amended: in app_with_html_errors.py a door_open submission is
    rejected while the last logged door state is open, a door_close
    submission while it is closed, an alarm_triggered submission while the
    alarm flag is set; a rejected submission leaves the flags (and
    everything else) as they are; a submission that passes the time-based
    test, is not suppressed by the flag of its type and whose commit
    succeeds is accepted, persisted as one row, and sets the flag of its
    type and no other.  In particular, when a door_open submission of that
    kind arrives while the door is not recorded open, it is accepted, a
    further door_open with no door_close submitted in between is rejected,
    and exactly one door_open event has been persisted. *)
Theorem state_based_suppression :
  (forall s w d, last_logged_door_state s = Some true ->
     log_event errors w "door_open" d s = (s, Ok Deduplicated)) /\
  (forall s w d, last_logged_door_state s = Some false ->
     log_event errors w "door_close" d s = (s, Ok Deduplicated)) /\
  (forall s w d, last_logged_alarm_state s = true ->
     log_event errors w "alarm_triggered" d s = (s, Ok Deduplicated)) /\
  (forall s w ty d s',
     log_event errors w ty d s = (s', Ok Deduplicated) -> s' = s) /\
  (forall s w ty d,
     time_based_duplicate (time_time w) (event_key ty d) s = false ->
     ~ ((ty = "door_open" /\ last_logged_door_state s = Some true) \/
        (ty = "door_close" /\ last_logged_door_state s = Some false) \/
        (ty = "alarm_triggered" /\ last_logged_alarm_state s = true)) ->
     commit_raises w = None ->
     exists s' p,
       log_event errors w ty d s = (s', Ok (Accepted p)) /\
       event_log s' = event_log s ++ [p_event p] /\
       event_type (p_event p) = ty /\ description (p_event p) = d /\
       last_logged_door_state s'
       = (if String.eqb ty "door_open" then Some true
          else if String.eqb ty "door_close" then Some false
          else last_logged_door_state s) /\
       last_logged_alarm_state s'
       = (if String.eqb ty "alarm_triggered" then true
          else last_logged_alarm_state s)) /\
  (forall s x1 mid x2 s1 r1 s2 rs,
     sub_type x1 = "door_open" -> sub_type x2 = "door_open" ->
     last_logged_door_state s <> Some true ->
     time_based_duplicate (time_time (sub_world x1))
       (event_key "door_open" (sub_description x1)) s = false ->
     commit_raises (sub_world x1) = None ->
     submit errors x1 s = (s1, r1) ->
     Forall (fun x => sub_type x <> "door_close") mid ->
     submit_all errors mid s1 = (s2, rs) ->
     is_accepted r1 = true /\
     submit errors x2 s2 = (s2, Ok Deduplicated) /\
     count_by_type "door_open" (event_log s2)
     = S (count_by_type "door_open" (event_log s))).
Proof.
  assert (Haccept : forall s w ty d,
    time_based_duplicate (time_time w) (event_key ty d) s = false ->
    state_based_update ty s <> None ->
    commit_raises w = None ->
    exists s' p, log_event errors w ty d s = (s', Ok (Accepted p))).
  { intros s w ty d Ht Hs Hc. unfold log_event.
    destruct (dedup_section_cases w ty d s) as [[E _]|[(_&E&_)|(s1&_&_&E)]];
      [cbv zeta in E; congruence|contradiction|].
    rewrite E. unfold persist_and_broadcast, db_insert, broadcast.
    rewrite Hc. cbn [emit_raises commit_raises].
    destruct (emit_raises w); eauto. }
  split; [|split; [|split; [|split; [|split]]]].
  - intros s w d H. apply suppressed_is_rejected, state_based_update_rejects. auto.
  - intros s w d H. apply suppressed_is_rejected, state_based_update_rejects. auto.
  - intros s w d H. apply suppressed_is_rejected, state_based_update_rejects. auto.
  - intros s w ty d s' H. now apply log_event_rejected_same in H.
  - intros s w ty d Ht Hs Hc.
    destruct (Haccept s w ty d Ht) as (s' & p & Hcall); [|exact Hc|].
    { intros Hnone. apply Hs. now apply state_based_update_rejects. }
    exists s', p. split; [exact Hcall|].
    pose proof (log_event_flags _ _ _ _ _ _ Hcall) as [Hd Ha].
    pose proof (log_event_appends _ _ _ _ _ _ _ Hcall) as (Hlog & Hty & Hdesc & _).
    split; [exact Hlog|]. split; [exact Hty|]. split; [exact Hdesc|].
    split; [exact Hd|]. rewrite Ha.
    destruct (String.eqb_spec ty "door_open") as [->|]; [reflexivity|].
    destruct (String.eqb_spec ty "door_close") as [->|]; reflexivity.
  - intros s x1 mid x2 s1 r1 s2 rs Hx1 Hx2 Hclosed Ht Hc H1 Hmid Hall.
    unfold submit in H1. rewrite Hx1 in H1.
    destruct (Haccept s (sub_world x1) "door_open" (sub_description x1) Ht)
      as (s1' & p & Hcall); [|exact Hc|].
    { intros Hnone. apply state_based_update_rejects in Hnone
        as [[_ H]|[[H _]|[H _]]]; [contradiction|discriminate..]. }
    rewrite Hcall in H1. injection H1 as <- <-.
    pose proof (log_event_flags _ _ _ _ _ _ Hcall) as Hfl.
    pose proof (log_event_appends _ _ _ _ _ _ _ Hcall) as Hlog.
    cbn in Hfl. destruct Hfl as [Hopen _]. destruct Hlog as (Hlog & Hty & _).
    destruct (door_stays_open mid Hmid s1' s2 rs Hopen Hall) as [Ho2 Hcount].
    split; [reflexivity|]. split.
    + unfold submit. rewrite Hx2.
      apply suppressed_is_rejected, state_based_update_rejects. auto.
    + rewrite Hcount, Hlog, count_by_type_app. unfold count_by_type at 2. cbn.
      rewrite Hty. cbn. lia.
Qed.

Lemma state_based_suppression_witness :
  is_accepted (snd (submit errors (at_time 0 "door_open" "Door opened")
                      (initial_state false))) = true /\
  submit errors (at_time 5 "door_open" "Door opened")
    (fst (submit errors (at_time 0 "door_open" "Door opened")
            (initial_state false)))
  = (fst (submit errors (at_time 0 "door_open" "Door opened")
            (initial_state false)), Ok Deduplicated) /\
  count_by_type "door_open"
    (event_log (fst (submit errors (at_time 0 "door_open" "Door opened")
                       (initial_state false)))) = 1%nat.
Proof.
  refine (proj2 (proj2 (proj2 (proj2 (proj2 state_based_suppression))))
            (initial_state false) (at_time 0 "door_open" "Door opened") []
            (at_time 5 "door_open" "Door opened") _ _ _ [] _ _ _ _ _ _ _ _).
  - reflexivity.
  - reflexivity.
  - discriminate.
  - reflexivity.
  - reflexivity.
  - apply surjective_pairing.
  - constructor.
  - reflexivity.
Defined.

(** C3, as stated, fails when the commit of the first submission raises.
    The door not being recorded open, a door_open submission passes both
    tests and the flag is set inside the lock block; the commit then raises
    and no row is written.  The flag has been updated without an
    acceptance, the next door_open is rejected, and the two consecutive
    door_open submissions have persisted no event at all. *)
Lemma failed_commit_persists_no_door_open :
  let failing :=
    {| sub_world := {| time_time := 0; datetime_now := 0;
                       commit_raises := Some OperationalError;
                       emit_raises := None |};
       sub_type := "door_open"; sub_description := "Door opened" |} in
  let s1 := fst (submit errors failing (initial_state false)) in
  snd (submit errors failing (initial_state false)) = Raise OperationalError /\
  last_logged_door_state (initial_state false) = None /\
  last_logged_door_state s1 = Some true /\
  submit errors (at_time 5 "door_open" "Door opened") s1
  = (s1, Ok Deduplicated) /\
  count_by_type "door_open" (event_log s1) = 0%nat.
Proof. vm_compute. repeat split. Qed.

End Suppression.

(** ** Statistics *)

Section Stats.

Lemma count_by_type_cons ty e l :
  count_by_type ty (e :: l)
  = ((if String.eqb (event_type e) ty then 1 else 0) + count_by_type ty l)%nat.
Proof.
  unfold count_by_type. change (List.filter ?g (e :: l))
    with (if g e then e :: List.filter g l else List.filter g l).
  now destruct (String.eqb (event_type e) ty).
Qed.

Lemma counted_rows_cons e l :
  counted_rows (e :: l)
  = if counted_type (event_type e) then e :: counted_rows l else counted_rows l.
Proof. reflexivity. Qed.

Lemma per_type_sum_counted l :
  per_type_sum (statistics l) = length (counted_rows l).
Proof.
  unfold per_type_sum, statistics.
  change (count_by_type "door_open" l + count_by_type "door_close" l
          + count_by_type "alarm_triggered" l = length (counted_rows l))%nat.
  induction l as [|e l IH]; [reflexivity|].
  rewrite !count_by_type_cons, counted_rows_cons. unfold counted_type.
  destruct (String.eqb_spec (event_type e) "door_open") as [E|H1];
    [rewrite E; cbn; lia|].
  destruct (String.eqb_spec (event_type e) "door_close") as [E|H2];
    [rewrite E; cbn; lia|].
  destruct (String.eqb_spec (event_type e) "alarm_triggered") as [E|H3];
    cbn; lia.
Qed.

Lemma counted_rows_length l :
  (length (counted_rows l) <= length l)%nat /\
  (length (counted_rows l) = length l <->
   Forall (fun e => counted_type (event_type e) = true) l).
Proof.
  unfold counted_rows. induction l as [|e l [IH1 IH2]]; cbn.
  - split; [lia|]. split; auto.
  - destruct (counted_type (event_type e)) eqn:E; cbn.
    + split; [lia|]. split.
      * intros H. constructor; [exact E|]. apply IH2. lia.
      * intros H. inversion H; subst. f_equal. now apply IH2.
    + split; [lia|]. split; [lia|].
      intros H. inversion H; subst. congruence.
Qed.

(** C5, as amended: after an accepted event the statistics in the payload
    are those of the stored log; total_events is the number of persisted
    events; the three per-type counters add up to the number of persisted
    door_open, door_close and alarm_triggered events, which is at most
    total_events and equal to it exactly when the log holds no event of
    another type. *)
Theorem statistics_after_acceptance f w ty d s s' p :
  log_event f w ty d s = (s', Ok (Accepted p)) ->
  p_statistics p = statistics (event_log s') /\
  total_events (p_statistics p) = length (event_log s') /\
  per_type_sum (p_statistics p) = length (counted_rows (event_log s')) /\
  (per_type_sum (p_statistics p) <= total_events (p_statistics p))%nat /\
  (per_type_sum (p_statistics p) = total_events (p_statistics p) <->
   Forall (fun e => counted_type (event_type e) = true) (event_log s')).
Proof.
  intros H. apply log_event_appends in H as (_ & _ & _ & Hst).
  rewrite Hst, per_type_sum_counted. cbn.
  pose proof (counted_rows_length (event_log s')) as [H1 H2]. auto.
Qed.

Lemma statistics_after_acceptance_witness :
  exists p,
    snd (log_event app_py (calm 0) "door_open" "Door opened"
           (initial_state false)) = Ok (Accepted p) /\
    total_events (p_statistics p) = 1%nat /\
    per_type_sum (p_statistics p) = 1%nat.
Proof.
  eexists. split; [vm_compute; reflexivity|].
  pose proof (statistics_after_acceptance app_py (calm 0) "door_open"
                "Door opened" (initial_state false) _ _
                ltac:(vm_compute; reflexivity)) as (_ & H1 & H2 & _).
  split; [exact H1|exact H2].
Defined.

(** C5, as stated, fails: the first event of a fresh log being the
    setting_changed event that the settings endpoint submits, the broadcast
    statistics count one event in total and none per type.  Both files
    agree. *)
Lemma per_type_counts_miss_other_types :
  let run f := log_event f (calm 0) "setting_changed"
                 "Timer duration changed to 45 seconds" (initial_state false) in
  (exists p, snd (run app_py) = Ok (Accepted p) /\
             length (event_log (fst (run app_py))) = 1%nat /\
             total_events (p_statistics p) = 1%nat /\
             per_type_sum (p_statistics p) = 0%nat) /\
  (exists p, snd (run app_with_html_errors_py) = Ok (Accepted p) /\
             length (event_log (fst (run app_with_html_errors_py))) = 1%nat /\
             total_events (p_statistics p) = 1%nat /\
             per_type_sum (p_statistics p) = 0%nat).
Proof. split; eexists; vm_compute; auto. Qed.

End Stats.

(** ** Rejected submissions and the window *)

Section Refresh.

Abbreviation errors := app_with_html_errors_py.

Lemma counted_type_rejects ty s s' r w d :
  counted_type ty = true ->
  log_event errors w ty d s = (s', r) -> is_rejected r = false ->
  state_based_update ty s' = None.
Proof.
  intros Hc H Hr. apply log_event_flags in H. rewrite Hr in H.
  destruct H as [Hd Ha]. apply state_based_update_rejects.
  unfold counted_type in Hc.
  destruct (String.eqb_spec ty "door_open") as [->|]; [auto|].
  destruct (String.eqb_spec ty "door_close") as [->|]; [auto|].
  destruct (String.eqb_spec ty "alarm_triggered") as [->|]; [auto|discriminate].
Qed.

Lemma uncounted_type_passes ty s :
  counted_type ty = false -> state_based_update ty s = Some s.
Proof.
  unfold counted_type, state_based_update.
  destruct (String.eqb ty "door_open"); [discriminate|].
  destruct (String.eqb ty "door_close"); [discriminate|].
  destruct (String.eqb ty "alarm_triggered"); [discriminate|reflexivity].
Qed.

(** C10, as amended: a rejected submission, by either test, leaves the three
    dedup variables (and the rest of the state) unchanged.  So after an
    accepted submission at clock reading t1, the same submission less than
    two seconds later is rejected and does not move the stamp: made again
    two seconds or more after t1 it passes the time-based test.  It is then
    persisted, two events in all, when its type is none of door_open,
    door_close and alarm_triggered; for these three types the state-based
    test rejects it, and one event is persisted. *)
Theorem rejection_does_not_refresh_window :
  (forall w ty d s s',
     log_event errors w ty d s = (s', Ok Deduplicated) ->
     s' = s) /\
  (forall s ty d w1 w2 w3 s1 r1,
     log_event errors w1 ty d s = (s1, r1) -> is_accepted r1 = true ->
     (time_time w2 - time_time w1 < 2)%Q ->
     (2 <= time_time w3 - time_time w1)%Q ->
     commit_raises w3 = None ->
     log_event errors w2 ty d s1 = (s1, Ok Deduplicated) /\
     time_based_duplicate (time_time w3) (event_key ty d) s1 = false /\
     exists s3 r3,
       log_event errors w3 ty d s1 = (s3, r3) /\
       if counted_type ty
       then r3 = Ok Deduplicated /\
            count_pair ty d (event_log s3) = S (count_pair ty d (event_log s))
       else is_accepted r3 = true /\
            count_pair ty d (event_log s3)
            = S (S (count_pair ty d (event_log s)))).
Proof.
  split; [intros w ty d s s'; apply log_event_rejected_same|].
  intros s ty d w1 w2 w3 s1 r1 H1 Hacc H12 H13 Hc3.
  pose proof (log_event_appends _ _ _ _ _ _ _ H1) as Hlog.
  destruct r1 as [[|p]|e]; try discriminate.
  destruct Hlog as (Hlog & Hpt & Hpd & _).
  pose proof H1 as H1'.
  apply log_event_passed in H1' as (s0 & _ & _ & _ & Hstamp); [|discriminate].
  assert (Hts : last_event_timestamps s1 !! event_key ty d = Some (time_time w1)).
  { rewrite Hstamp. apply lookup_insert_eq. }
  assert (Hcount1 : count_pair ty d (event_log s1) = S (count_pair ty d (event_log s))).
  { rewrite Hlog, count_pair_app. unfold count_pair at 2. cbn.
    rewrite Hpt, Hpd, !String.eqb_refl. cbn. lia. }
  assert (Ht3 : time_based_duplicate (time_time w3) (event_key ty d) s1 = false).
  { unfold time_based_duplicate. rewrite Hts. apply Qltb_ge. exact H13. }
  split; [now apply (time_window_rejects _ _ _ _ (time_time w1))|].
  split; [exact Ht3|].
  destruct (counted_type ty) eqn:Hc.
  - exists s1, (Ok Deduplicated). split; [|auto].
    apply suppressed_is_rejected.
    now apply (counted_type_rejects ty s s1 (Ok (Accepted p)) w1 d).
  - destruct (log_event errors w3 ty d s1) as [s3 r3] eqn:H3.
    exists s3, r3. split; [reflexivity|].
    unfold log_event, dedup_section in H3.
    rewrite Ht3, (uncounted_type_passes _ _ Hc) in H3.
    unfold persist_and_broadcast, db_insert in H3. rewrite Hc3 in H3.
    assert (Hgoal : forall s' p', event_log s' = event_log s1 ++ [p_event p'] ->
              event_type (p_event p') = ty -> description (p_event p') = d ->
              is_accepted (Ok (Accepted p')) = true /\
              count_pair ty d (event_log s')
              = S (S (count_pair ty d (event_log s)))).
    { intros s' p' -> E1 E2. split; [reflexivity|].
      rewrite count_pair_app, Hcount1. unfold count_pair at 2.
      change (List.filter ?g [p_event p'])
        with (if g (p_event p') then [p_event p'] else []).
      cbv beta. rewrite E1, E2, !String.eqb_refl. cbn. lia. }
    unfold broadcast in H3.
    destruct (emit_raises w3); injection H3 as <- <-; apply Hgoal; reflexivity.
Qed.

Lemma rejection_does_not_refresh_window_witness :
  map is_accepted
    (snd (submit_all errors
            [at_time 0 "setting_changed" "Admin updated system settings";
             at_time 1.5 "setting_changed" "Admin updated system settings";
             at_time 3 "setting_changed" "Admin updated system settings"]
            (initial_state false)))
  = [true; false; true].
Proof.
  pose proof (proj2 rejection_does_not_refresh_window (initial_state false)
                "setting_changed" "Admin updated system settings"
                (calm 0) (calm 1.5) (calm 3) _ _
                ltac:(apply surjective_pairing)
                ltac:(vm_compute; reflexivity)
                ltac:(vm_compute; reflexivity)
                ltac:(vm_compute; discriminate)
                ltac:(reflexivity)) as (H2 & _ & s3 & r3 & H3 & Hacc & _).
  vm_compute. reflexivity.
Defined.

(** C10, as stated, fails for the event types with a dedup flag: the same
    door_open submitted at 0, 1.5 and 3 seconds is persisted once, the third
    submission being rejected by the state-based test although the window
    has passed. *)
Lemma third_door_open_rejected :
  let '(s, rs) := submit_all errors
                    [at_time 0 "door_open" "Door opened";
                     at_time 1.5 "door_open" "Door opened";
                     at_time 3 "door_open" "Door opened"]
                    (initial_state false) in
  map is_accepted rs = [true; false; false] /\
  length (event_log s) = 1%nat.
Proof. vm_compute. auto. Qed.

End Refresh.

(** ** The notification dispatcher *)

Section Dispatcher.

Implicit Types (w : MailWorld) (s : State).

Lemma same_but_mail_refl s : same_but_mail s s.
Proof. unfold same_but_mail. auto 20. Qed.

Lemma same_but_mail_trans s1 s2 s3 :
  same_but_mail s1 s2 -> same_but_mail s2 s3 -> same_but_mail s1 s3.
Proof. unfold same_but_mail. intuition congruence. Qed.

Lemma mail_only_bind {A B} (m : M A) (k : A -> M B) :
  mail_only m -> (forall a, mail_only (k a)) -> mail_only (bind m k).
Proof.
  intros Hm Hk s s' r. unfold bind.
  destruct (m s) as [s1 [a|e]] eqn:E.
  - intros H. eapply same_but_mail_trans; [eapply Hm|eapply Hk]; eauto.
  - intros [= <- <-]. eapply Hm; eauto.
Qed.

Lemma mail_only_print l : mail_only (print l).
Proof. intros s s' r [= <- <-]. unfold same_but_mail. cbn. auto 20. Qed.

Lemma mail_only_may_raise o : mail_only (may_raise o).
Proof.
  intros s s' r. destruct o; intros [= <- <-]; apply same_but_mail_refl.
Qed.

Lemma mail_only_sendmail w m : mail_only (sendmail w m).
Proof.
  apply mail_only_bind; [apply mail_only_may_raise|].
  intros _ s s' r [= <- <-]. unfold same_but_mail. cbn. auto 20.
Qed.

Lemma mail_only_try w d : mail_only (send_alarm_email_try w d).
Proof.
  unfold send_alarm_email_try.
  apply mail_only_bind; [apply mail_only_print|intros _].
  apply mail_only_bind; [apply mail_only_may_raise|intros _].
  intros s s' r.
  destruct (head (email_config s)) as [c|]; [|apply mail_only_print].
  destruct (negb (truthy_flag (is_configured c))); [apply mail_only_print|].
  destruct (negb (truthy (sender_email c)) || negb (truthy (app_password c))
            || negb (truthy (recipient_emails c))); [apply mail_only_print|].
  revert s s' r.
  repeat (apply mail_only_bind;
          [first [apply mail_only_print | apply mail_only_may_raise
                 | apply mail_only_sendmail]|intros _]).
  apply mail_only_print.
Qed.

Lemma except_clause_prints e s :
  send_alarm_email_except e s
  = (set_console (console s ++ [error_line e]) s, Ok tt).
Proof. destruct e; reflexivity. Qed.

(** When no usable configuration is stored, the try block returns early:
    two lines are printed and the outbox is not touched. *)
Lemma no_usable_config_no_mail w d s s' r :
  query_raises w = None ->
  match head (email_config s) with
  | Some c => config_ready c = false
  | None => True
  end ->
  send_alarm_email_try w d s = (s', r) ->
  r = Ok tt /\ outbox s' = outbox s /\
  exists l, console s' = console s ++ [DEBUG_attempting d; l].
Proof.
  intros Hq Hc. unfold send_alarm_email_try, bind, print, modify, may_raise.
  rewrite Hq. cbn.
  destruct (head (email_config s)) as [c|]; cbn.
  - unfold config_ready in Hc.
    destruct (truthy_flag (is_configured c)); cbn in *.
    + destruct (truthy (sender_email c)); cbn in *;
        [destruct (truthy (app_password c)); cbn in *;
         [destruct (truthy (recipient_emails c)); cbn in *;
          [discriminate|]|]|];
        intros [= <- <-]; cbn; rewrite <- app_assoc; eauto.
    + intros [= <- <-]. cbn. rewrite <- app_assoc. eauto.
  - intros [= <- <-]. cbn. rewrite <- app_assoc. eauto.
Qed.

(** The dispatcher returns normally, whatever happens inside. *)
Lemma send_alarm_email_returns w d s : snd (send_alarm_email w d s) = Ok tt.
Proof.
  unfold send_alarm_email.
  destruct (send_alarm_email_try w d s) as [s1 [[]|e]]; [reflexivity|].
  now rewrite except_clause_prints.
Qed.

(** C9: whatever configuration is stored and whatever the lookup and the
    SMTP commands do, [send_alarm_email] returns normally and changes
    nothing but the console and the outbox, so the recorded events stay as
    they are.  Without a row, with a row not marked configured or with an
    empty sender, password or recipient list, it returns without sending.
    An exception raised inside the try block is caught by the except clause
    of its class, which prints one error line. *)
Theorem send_alarm_email_contains_failures :
  (forall w d s, snd (send_alarm_email w d s) = Ok tt) /\
  (forall w d s, same_but_mail s (fst (send_alarm_email w d s))) /\
  (forall w d s,
     query_raises w = None ->
     match head (email_config s) with
     | Some c => config_ready c = false
     | None => True
     end ->
     outbox (fst (send_alarm_email w d s)) = outbox s) /\
  (forall w d s s1 e,
     send_alarm_email_try w d s = (s1, Raise e) ->
     send_alarm_email w d s
     = (set_console (console s1 ++ [error_line e]) s1, Ok tt) /\
     isinstance e C_Exception = true).
Proof.
  split; [|split; [|split]].
  - apply send_alarm_email_returns.
  - intros w d s. unfold send_alarm_email.
    destruct (send_alarm_email_try w d s) as [s1 [[]|e]] eqn:E;
      pose proof (mail_only_try w d s s1 _ E) as H; [exact H|].
    rewrite except_clause_prints. cbn.
    eapply same_but_mail_trans; [exact H|].
    unfold same_but_mail. cbn. auto 20.
  - intros w d s Hq Hc. unfold send_alarm_email.
    destruct (send_alarm_email_try w d s) as [s1 r] eqn:E.
    destruct (no_usable_config_no_mail w d s s1 r Hq Hc E) as (-> & Ho & _).
    exact Ho.
  - intros w d s s1 e E. unfold send_alarm_email. rewrite E.
    split; [apply except_clause_prints|reflexivity].
Qed.

Lemma send_alarm_email_contains_failures_witness :
  outbox (fst (send_alarm_email mail_calm 30 (initial_state false))) = [].
Proof.
  exact (proj1 (proj2 (proj2 send_alarm_email_contains_failures))
           mail_calm 30 (initial_state false) eq_refl I).
Defined.

End Dispatcher.

(** ** The countdown *)

Section Countdown.

Implicit Types (f : source_file) (w : TimerWorld) (t : Timer) (s : State).

Lemma alarm_timer_step_duration f w t s t' s' ev :
  alarm_timer_step f w t s = (t', s', ev) -> duration t' = duration t.
Proof.
  unfold alarm_timer_step.
  destruct (pc t);
    repeat match goal with
           | |- context [if ?b then _ else _] => destruct b
           | |- context [log_event ?a ?b ?c ?d ?e] =>
               destruct (log_event a b c d e) as [? [?|?]]
           | |- context [send_alarm_email ?a ?b ?c] =>
               destruct (send_alarm_email a b c) as [? [?|?]]
           end; intros [= <- <- <-]; reflexivity.
Qed.

(** One statement consumes the head of what remains. *)
Lemma remaining_step f w t s t' s' ev tr fin :
  alarm_timer_step f w t s = (t', s', ev) ->
  remaining (duration t) (pc t') tr fin ->
  remaining (duration t) (pc t) (ev ++ tr) fin.
Proof.
  unfold alarm_timer_step.
  destruct (pc t) eqn:Hpc; cbn [remaining].
  - intros [= <- <- <-]. cbn. auto.
  - destruct (timer_active s); [destruct (Qltb _ _)|];
      intros [= <- <- <-]; cbn; auto.
    + intros (b & r & -> & ->). exists Loop_elapsed, b, r. auto.
    + intros (b & r & -> & ->). exists Loop_inactive, b, r. auto.
  - destruct (negb (timer_active s) || negb (door_open s));
      intros [= <- <- <-]; cbn; auto.
    intros (b & r & -> & ->). exists Loop_break, b, r. auto.
  - intros [= <- <- <-]. cbn. auto.
  - destruct (negb (timer_active s) || negb (door_open s));
      intros [= <- <- <-]; cbn; auto.
    intros (b & r & -> & ->). exists Loop_break, b, r. auto.
  - intros [= <- <- <-]. cbn. auto.
  - destruct (timer_active s && door_open s); intros [= <- <- <-]; cbn.
    + intros (r & -> & ->). exists true, r. auto.
    + intros (-> & ->). exists false, (Ok Deduplicated). auto.
  - intros [= <- <- <-]. cbn. intros (r & -> & ->). eauto.
  - intros [= <- <- <-]. cbn. intros (r & -> & ->). eauto.
  - intros [= <- <- <-]. cbn. auto.
  - destruct (log_event f _ _ _ s) as [s1 [o|e]]; intros [= <- <- <-]; cbn.
    + intros (-> & ->). exists (Ok o). auto.
    + intros (-> & ->). exists (Raise e). auto.
  - pose proof (send_alarm_email_returns (timer_mail w) (duration t) s) as Hok.
    destruct (send_alarm_email _ _ s) as [s1 [u|e]]; [|discriminate].
    intros [= <- <- <-]. cbn. intros (-> & ->). auto.
  - intros [= <- <- <-]. cbn. intros (-> & ->). auto.
  - intros [= <- <- <-]. cbn. intros (-> & ->). auto.
  - intros [= <- <- <-]. cbn. auto.
  - intros [= <- <- <-]. rewrite Hpc. cbn. auto.
  - intros [= <- <- <-]. rewrite Hpc. cbn. auto.
Qed.

(** Every run to the end produces one of the remaining traces, whatever the
    other threads do in between. *)
Lemma alarm_timer_run_remaining f slots :
  forall t s t' s' tr,
    alarm_timer_run f slots t s = (t', s', tr) ->
    is_alive t' = false ->
    remaining (duration t) (pc t) tr (pc t').
Proof.
  induction slots as [|[w|g] rest IH]; intros t s t' s' tr.
  - cbn. intros [= <- <- <-]. unfold is_alive.
    destruct (pc t); try discriminate; cbn; auto.
  - cbn. destruct (alarm_timer_step f w t s) as [[t1 s1] ev] eqn:Hstep.
    destruct (alarm_timer_run f rest t1 s1) as [[t2 s2] tr2] eqn:Hrun.
    intros [= <- <- <-] Hdead.
    eapply remaining_step; [exact Hstep|].
    rewrite <- (alarm_timer_step_duration _ _ _ _ _ _ _ Hstep). eauto.
  - cbn. intros H Hdead. eauto.
Qed.

(** The final test reads the flags as they are at that moment. *)
Lemma recheck_reads_flags f w t s t' s' b :
  alarm_timer_step f w t s = (t', s', [Recheck b]) ->
  b = timer_active s && door_open s /\ s' = s.
Proof.
  unfold alarm_timer_step.
  destruct (pc t);
    repeat match goal with
           | |- context [if ?b then _ else _] => destruct b eqn:?
           | |- context [log_event ?a ?b ?c ?d ?e] =>
               destruct (log_event a b c d e) as [? [?|?]]
           | |- context [send_alarm_email ?a ?b ?c] =>
               destruct (send_alarm_email a b c) as [? [?|?]]
           end; intros H; inversion H; subst; auto.
Qed.

(** An early way out is taken only where a flag is false; the way out by
    elapsed time only where [timer_active] holds. *)
Lemma loop_exit_reads_flags f w t s t' s' how :
  alarm_timer_step f w t s = (t', s', [how]) ->
  loop_exit how = true ->
  pc t' = T_recheck /\ s' = s /\
  if early_exit how then timer_active s && door_open s = false
  else timer_active s = true.
Proof.
  unfold alarm_timer_step.
  destruct (pc t);
    repeat match goal with
           | |- context [if ?b then _ else _] => destruct b eqn:?
           | |- context [log_event ?a ?b ?c ?d ?e] =>
               destruct (log_event a b c d e) as [? [?|?]]
           | |- context [send_alarm_email ?a ?b ?c] =>
               destruct (send_alarm_email a b c) as [? [?|?]]
           end; intros H; inversion H; subst; try discriminate; intros _; cbn;
    repeat split; auto;
    destruct (timer_active s'), (door_open s'); cbn in *; congruence.
Qed.

Lemma flag_writes_take_effect f w t s t' s' b :
  (alarm_timer_step f w t s = (t', s', [Write_timer_active b]) ->
   timer_active s' = b) /\
  (alarm_timer_step f w t s = (t', s', [Write_alarm_active b]) ->
   alarm_active s' = b).
Proof.
  unfold alarm_timer_step.
  split; destruct (pc t);
    repeat match goal with
           | |- context [if ?b then _ else _] => destruct b eqn:?
           | |- context [log_event ?a ?b ?c ?d ?e] =>
               destruct (log_event a b c d e) as [? [?|?]]
           | |- context [send_alarm_email ?a ?b ?c] =>
               destruct (send_alarm_email a b c) as [? [?|?]]
           end; intros H; inversion H; subst; reflexivity.
Qed.

(** What a countdown does in every run: whatever the other threads do
    meanwhile and whichever way the blink loop is left, a countdown that
    runs to its end leaves the loop once, evaluates the final test once, and
    then does one of two things.  If the test found [timer_active] and [door_open] both true, it
    sets [timer_active] false and [alarm_active] true, submits the
    alarm_triggered event and, when the submission returns without raising,
    calls the dispatcher.  Otherwise it sets both flags false and neither
    submits nor notifies.  The test reads the flags as they are when it is
    evaluated.  The loop is left early only in a state where one of the two
    flags is false, so an early exit leads to the second case unless another
    thread sets both flags before the final test. *)
Theorem alarm_timer_decides_at_final_test :
  (forall f d slots s0 t s tr,
     alarm_timer_run f slots (new_timer d) s0 = (t, s, tr) ->
     is_alive t = false ->
     exists how b r,
       loop_exit how = true /\
       tr = how :: decision_trace d b r /\ pc t = final_pc b r /\
       ((exists r', In (Submit "alarm_triggered" (alarm_description d) r') tr)
        <-> b = true) /\
       (In (Notify d) tr <-> b = true /\ is_ok r = true)) /\
  (forall f w t s t' s' b,
     alarm_timer_step f w t s = (t', s', [Recheck b]) ->
     b = timer_active s && door_open s /\ s' = s) /\
  (forall f w t s t' s' b,
     (alarm_timer_step f w t s = (t', s', [Write_timer_active b]) ->
      timer_active s' = b) /\
     (alarm_timer_step f w t s = (t', s', [Write_alarm_active b]) ->
      alarm_active s' = b)) /\
  (forall f w w' t s t' s' how,
     alarm_timer_step f w t s = (t', s', [how]) ->
     early_exit how = true ->
     alarm_timer_step f w' t' s'
     = (goto T_cancel_timer_active t', s', [Recheck false])).
Proof.
  split; [|split; [|split]].
  - intros f d slots s0 t s tr Hrun Hdead.
    apply alarm_timer_run_remaining in Hrun; [|exact Hdead].
    cbn in Hrun. destruct Hrun as (how & b & r & Hhow & -> & Hfin).
    exists how, b, r.
    assert (Hnot : forall ev, loop_exit ev = false -> how <> ev)
      by (intros ev Hev ->; congruence).
    split; [exact Hhow|]. split; [reflexivity|]. split; [exact Hfin|].
    split; split.
    + intros (r' & [E|Hin]); [now apply Hnot in E|].
      destruct b; [reflexivity|]. cbn in Hin.
      repeat destruct Hin as [Hin|Hin]; try discriminate; contradiction.
    + intros ->. exists r. right. cbn. destruct r; cbn; auto.
    + intros [E|Hin]; [now apply Hnot in E|].
      destruct b; [|cbn in Hin;
        repeat destruct Hin as [Hin|Hin]; try discriminate; contradiction].
      split; [reflexivity|]. destruct r; [reflexivity|]. cbn in Hin.
      repeat destruct Hin as [Hin|Hin]; try discriminate; contradiction.
    + intros [-> Hr]. destruct r; [|discriminate]. cbn. auto 10.
  - apply recheck_reads_flags.
  - apply flag_writes_take_effect.
  - intros f w w' t s t' s' how Hstep Hearly.
    apply loop_exit_reads_flags in Hstep as (Hpc & -> & Hflags);
      [|destruct how; try discriminate; reflexivity].
    rewrite Hearly in Hflags.
    unfold alarm_timer_step. now rewrite Hpc, Hflags.
Qed.

(** A countdown of one second with the door left open. *)
Lemma alarm_timer_decides_at_final_test_witness :
  exists how b r,
    snd (alarm_timer_run app_py
           (map (fun q => Own (tick q))
              [0; 0; 0; 0; 0.5; 0.5; 1; 1; 1; 1; 1; 1; 1]%Q)
           (new_timer 1)
           (set_timer_active true (set_door_open true (initial_state false))))
    = how :: decision_trace 1 b r /\ b = true.
Proof.
  set (run := alarm_timer_run app_py
                (map (fun q => Own (tick q))
                   [0; 0; 0; 0; 0.5; 0.5; 1; 1; 1; 1; 1; 1; 1]%Q)
                (new_timer 1)
                (set_timer_active true
                   (set_door_open true (initial_state false)))).
  destruct (proj1 alarm_timer_decides_at_final_test app_py 1
              (map (fun q => Own (tick q))
                 [0; 0; 0; 0; 0.5; 0.5; 1; 1; 1; 1; 1; 1; 1]%Q)
              (set_timer_active true (set_door_open true (initial_state false)))
              (fst (fst run)) (snd (fst run)) (snd run)
              ltac:(vm_compute; reflexivity)
              ltac:(vm_compute; reflexivity))
    as (how & b & r & _ & Htr & _ & Hsub & _).
  exists how, b, r. split; [exact Htr|].
  apply Hsub. eexists. vm_compute. do 4 right. left. reflexivity.
Defined.

(** C1: an alarm after an early exit.  The door opens and the countdown of
    30 seconds starts; the door closes while the timer sleeps, and the
    monitor handles the closing; the timer wakes, sees the flags false and
    breaks out of the loop; the monitor samples the door open again and sets
    [door_open] and [timer_active]; the timer evaluates the final test,
    finds both true, submits alarm_triggered and calls the dispatcher, half
    a second after the first opening, although its loop was left early and
    its comments call this branch the one of an elapsed timer.  First with
    the statements of both threads interleaved by the scheduler, in either
    file, the alarm row being in the log; then as a run of the timer with
    the iterations of the monitor as steps of another thread; then with a
    configuration row stored, the alarm mail being in the outbox. *)
Lemma early_exit_then_alarm :
  match system_run app_with_html_errors_py
          (repeat (Monitor_turn (sample true 0)) 10
           ++ repeat (Timer_turn (tick 0)) 4
           ++ repeat (Monitor_turn (sample false 0.3)) 8
           ++ [Timer_turn (tick 0.5)]
           ++ repeat (Monitor_turn (sample true 0.5)) 4
           ++ repeat (Timer_turn (tick 0.5)) 6)
          (boot (initial_state false)) with
  | Some (sys, tr) =>
      exists o, tr = Loop_break :: decision_trace 30 true (Ok (Accepted o)) /\
                count_by_type "alarm_triggered" (event_log (shared sys)) = 1%nat
  | None => False
  end /\
  match system_run app_py
          (repeat (Monitor_turn (sample true 0)) 10
           ++ repeat (Timer_turn (tick 0)) 4
           ++ repeat (Monitor_turn (sample false 0.3)) 7
           ++ [Timer_turn (tick 0.5)]
           ++ repeat (Monitor_turn (sample true 0.5)) 4
           ++ repeat (Timer_turn (tick 0.5)) 6)
          (boot (initial_state false)) with
  | Some (sys, tr) =>
      exists o, tr = Loop_break :: decision_trace 30 true (Ok (Accepted o)) /\
                count_by_type "alarm_triggered" (event_log (shared sys)) = 1%nat
  | None => False
  end /\
  (exists o,
    snd (alarm_timer_run app_with_html_errors_py
           [Own (tick 0); Own (tick 0); Own (tick 0); Own (tick 0);
            Other (after_monitor_iteration app_with_html_errors_py
                     (sample false 0.3) true);
            Own (tick 0.5);
            Other (after_monitor_iteration app_with_html_errors_py
                     (sample true 0.5) true);
            Own (tick 0.5); Own (tick 0.5); Own (tick 0.5); Own (tick 0.5);
            Own (tick 0.5); Own (tick 0.5)]
           (new_timer 30)
           (after_monitor_iteration app_with_html_errors_py
              (sample true 0) false (initial_state false)))
    = Loop_break :: decision_trace 30 true (Ok (Accepted o))) /\
  match system_run app_py
          (repeat (Monitor_turn (sample true 0)) 10
           ++ repeat (Timer_turn (tick 0)) 4
           ++ repeat (Monitor_turn (sample false 0.3)) 7
           ++ [Timer_turn (tick 0.5)]
           ++ repeat (Monitor_turn (sample true 0.5)) 4
           ++ repeat (Timer_turn (tick 0.5)) 6)
          (boot configured_state) with
  | Some (sys, tr) =>
      count_by_type "alarm_triggered" (event_log (shared sys)) = 1%nat /\
      outbox (shared sys) = [alarm_mail
                               {| sender_email := "door@example.org";
                                  app_password := "app-password";
                                  recipient_emails :=
                                    "guard@example.org, owner@example.org";
                                  is_configured := Some true |} 30]
  | None => False
  end.
Proof.
  split; [|split; [|split]]; vm_compute.
  - eexists. split; reflexivity.
  - eexists. split; reflexivity.
  - eexists. reflexivity.
  - split; reflexivity.
Qed.

End Countdown.

(** ** The sampling loop *)

Section Sampling.

Implicit Types (f : source_file) (w : MonitorWorld) (s : State).

(** No call of [log_event] touches the door flags, the timer setting or the
    TESTING switch. *)
Lemma log_event_keeps_flags f (w : LogWorld) ty d s s' r :
  log_event f w ty d s = (s', r) ->
  door_open s' = door_open s /\ alarm_active s' = alarm_active s /\
  timer_active s' = timer_active s.
Proof.
  unfold log_event. destruct f.
  - intros H. apply persist_and_broadcast_frame in H. tauto.
  - destruct (dedup_section_cases w ty d s) as [[_ E]|[(_&_&E)|(s1&_&Hs&E)]];
      rewrite E; try (intros [= <- <-]; auto).
    intros H. apply persist_and_broadcast_frame in H.
    apply state_based_update_frame in Hs. cbn in H. intuition congruence.
Qed.

Lemma GPIO_output_keeps_flags pin level s :
  door_open (GPIO_output pin level s) = door_open s /\
  alarm_active (GPIO_output pin level s) = alarm_active s /\
  timer_active (GPIO_output pin level s) = timer_active s /\
  last_logged_door_state (GPIO_output pin level s) = last_logged_door_state s /\
  last_logged_alarm_state (GPIO_output pin level s) = last_logged_alarm_state s /\
  last_event_timestamps (GPIO_output pin level s) = last_event_timestamps s.
Proof. unfold GPIO_output. destruct (TESTING s); cbn; auto 10. Qed.

(** A call of [log_event] raises only when the commit does or, in app.py,
    when the emission does. *)
Lemma log_event_raises f (w : LogWorld) ty d s s' e :
  log_event f w ty d s = (s', Raise e) ->
  commit_raises w = Some e \/ (f = app_py /\ emit_raises w = Some e).
Proof.
  assert (Hpb : forall s0, persist_and_broadcast f w ty d s0 = (s', Raise e) ->
            commit_raises w = Some e \/ (f = app_py /\ emit_raises w = Some e)).
  { intros s0. unfold persist_and_broadcast, db_insert, broadcast.
    destruct (commit_raises w); [intros [= <- <-]; auto|].
    destruct (emit_raises w), f; intros [= <- <-]; auto. }
  unfold log_event. destruct f; [apply Hpb|].
  destruct (dedup_section w ty d s) as [s1 [|]]; [apply Hpb|discriminate].
Qed.

(** Unfolding one statement of an iteration. *)
Lemma monitor_continue_eq f fuel w alive at_ s started :
  monitor_continue f (S fuel) w alive at_ s started
  = match at_ with
    | M_loop => (at_, s, started)
    | _ =>
        match monitor_step f w alive at_ s with
        | None => (at_, s, started)
        | Some (at', s', t) =>
            monitor_continue f fuel w alive at' s'
              (match t with Some _ => t | None => started end)
        end
    end.
Proof. reflexivity. Qed.

Ltac monitor_next :=
  rewrite monitor_continue_eq; unfold monitor_step at 1; cbv beta iota.

(** An iteration that handles an opening, with nothing raising: it stops at
    the join while the previous timer thread is alive, and from the join it
    starts the new countdown and is back at the loop head. *)
Lemma opening_iteration f w alive s n :
  TESTING s = false -> gpio_input w = Ok true -> door_open s = false ->
  commit_raises (monitor_log w) = None ->
  emit_raises (monitor_log w) = None ->
  match setting s !! "timer_duration" with
  | Some v => int v
  | None => Ok 30
  end = Ok n ->
  exists s1,
    monitor_iteration f w alive s
    = (if alive then (M_open_join, s1, None)
       else (M_loop, s1, Some (new_timer (timer_duration s1)))) /\
    monitor_continue f 12 w false M_open_join s1 None
    = (M_loop, s1, Some (new_timer (timer_duration s1))).
Proof.
  intros Htest Hg Hdoor Hc He Hn.
  set (s0 := set_timer_duration n (GPIO_output 16 false
               (set_timer_active true (set_alarm_active false
                  (set_door_open true s))))).
  assert (Hl : exists s1 o,
             log_event f (monitor_log w) "door_open" "Door opened" s0
             = (s1, Ok o)).
  { destruct (log_event f (monitor_log w) "door_open" "Door opened" s0)
      as [s1 [o|e]] eqn:Hl; [eauto|].
    apply log_event_raises in Hl as [Hl|[_ Hl]]; congruence. }
  destruct Hl as (s1 & o & Hl). exists s1. split.
  - unfold monitor_iteration, monitor_step at 1.
    rewrite Htest, Hg, Hdoor. cbn [andb negb].
    do 5 monitor_next.
    assert (Hset : setting (GPIO_output 16 false (set_timer_active true
                     (set_alarm_active false (set_door_open true s))))
                   = setting s).
    { unfold GPIO_output. cbn. rewrite Htest. reflexivity. }
    rewrite Hset.
    destruct (setting s !! "timer_duration") as [v|];
      [rewrite Hn|injection Hn as <-]; monitor_next;
      fold s0; rewrite Hl; monitor_next;
      (destruct alive; [reflexivity|]);
      do 2 monitor_next; reflexivity.
  - do 3 monitor_next. reflexivity.
Qed.

(** C8, as amended: [monitor_door] has no statement that ends the loop and
    no exception handler.  A thread that has not crashed can always execute
    its next statement, except while it waits in [join] for a live timer.
    It crashes exactly when an operation of the iteration raises: the sensor
    read, the conversion of the stored timer setting, or [log_event]; the
    exception then leaves the loop, nothing is logged, and the thread
    executes no further iteration.  An iteration in which nothing raises
    ends back at the loop head; on an opening edge with the previous timer
    thread still alive it first waits in [join], and once that thread has
    ended it starts the new countdown and is back at the loop head. *)
Theorem monitor_door_runs_until_an_exception :
  (forall f w alive at_ s,
     monitor_step f w alive at_ s = None <->
     (exists e, at_ = M_crashed e) \/ (at_ = M_open_join /\ alive = true)) /\
  (forall f w alive at_ s s' t e,
     monitor_step f w alive at_ s = Some (M_crashed e, s', t) ->
     (at_ = M_loop /\ gpio_input w = Raise e /\ s' = s) \/
     (at_ = M_open_setting /\ s' = s /\
      exists v, setting s !! "timer_duration" = Some v /\ int v = Raise e) \/
     ((at_ = M_open_log \/ at_ = M_close_log) /\
      (commit_raises (monitor_log w) = Some e \/
       (f = app_py /\ emit_raises (monitor_log w) = Some e)))) /\
  (forall f w alive s e,
     TESTING s = false -> gpio_input w = Raise e ->
     monitor_step f w alive M_loop s = Some (M_crashed e, s, None) /\
     forall w' alive' s', monitor_step f w' alive' (M_crashed e) s' = None) /\
  (forall f w alive s level,
     gpio_input w = Ok level ->
     commit_raises (monitor_log w) = None ->
     emit_raises (monitor_log w) = None ->
     (forall v, setting s !! "timer_duration" = Some v -> is_ok (int v) = true) ->
     if alive && negb (TESTING s) && level && negb (door_open s) then
       exists s',
         monitor_iteration f w alive s = (M_open_join, s', None) /\
         monitor_continue f 12 w false M_open_join s' None
         = (M_loop, s', Some (new_timer (timer_duration s')))
     else fst (fst (monitor_iteration f w alive s)) = M_loop).
Proof.
  split; [|split; [|split]].
  - intros f w alive at_ s. split.
    + unfold monitor_step.
      destruct at_; try discriminate;
        repeat match goal with
               | |- context [if ?b then _ else _] => destruct b eqn:?
               | |- context [match gpio_input w with _ => _ end] =>
                   destruct (gpio_input w)
               | |- context [match setting s !! ?k with _ => _ end] =>
                   destruct (setting s !! k)
               | |- context [int ?v] => destruct (int v)
               | |- context [log_event ?a ?b ?c ?d ?e] =>
                   destruct (log_event a b c d e) as [? [?|?]]
               end; try discriminate; eauto.
    + intros [[e ->]|[-> ->]]; reflexivity.
  - intros f w alive at_ s s' t e. unfold monitor_step.
    destruct at_; try discriminate.
    + destruct (TESTING s); [discriminate|].
      destruct (gpio_input w) as [b|e'].
      * destruct (b && negb (door_open s)); [discriminate|].
        destruct (negb b && door_open s); discriminate.
      * intros [= <- <-]. auto.
    + destruct (setting s !! "timer_duration") as [v|] eqn:Hv; [|discriminate].
      destruct (int v) eqn:Hint; [discriminate|].
      intros [= <- <-]. right. left. eauto.
    + destruct (log_event f _ _ _ s) as [s1 [o|e']] eqn:Hl; [discriminate|].
      intros [= <- <-]. apply log_event_raises in Hl. auto.
    + destruct alive; discriminate.
    + destruct f; discriminate.
    + destruct (log_event f _ _ _ s) as [s1 [o|e']] eqn:Hl; [discriminate|].
      intros [= <- <-]. apply log_event_raises in Hl. auto.
  - intros f w alive s e Ht Hg. split; [|reflexivity].
    unfold monitor_step. now rewrite Ht, Hg.
  - intros f w alive s level Hg Hc He Hv.
    assert (Hlog : forall ty d s0, exists s1 o,
               log_event f (monitor_log w) ty d s0 = (s1, Ok o)).
    { intros ty d s0.
      destruct (log_event f (monitor_log w) ty d s0) as [s1 [o|e]] eqn:Hl; [eauto|].
      apply log_event_raises in Hl as [Hl|[_ Hl]]; congruence. }
    destruct (TESTING s) eqn:Htest.
    { rewrite andb_false_r. cbn [andb].
      unfold monitor_iteration, monitor_step. now rewrite Htest. }
    rewrite andb_true_r.
    destruct (level && negb (door_open s)) eqn:Hedge.
    + apply andb_prop in Hedge as [-> Hdoor].
      apply negb_true_iff in Hdoor. rewrite Hdoor, andb_true_r.
      assert (Hn : exists n,
                 match setting s !! "timer_duration" with
                 | Some v => int v
                 | None => Ok 30
                 end = Ok n).
      { destruct (setting s !! "timer_duration") as [v|]; [|eauto].
        specialize (Hv v eq_refl). destruct (int v); [eauto|discriminate]. }
      destruct Hn as [n Hn].
      destruct (opening_iteration f w alive s n Htest Hg Hdoor Hc He Hn)
        as (s1 & Hiter & Hjoin).
      destruct alive; cbn [andb negb].
      * exists s1. auto.
      * now rewrite Hiter.
    + assert (Hwait : alive && level && negb (door_open s) = false).
      { rewrite <- andb_assoc, Hedge. apply andb_false_r. }
      rewrite Hwait.
      unfold monitor_iteration, monitor_step at 1. rewrite Htest, Hg, Hedge.
      destruct (negb level && door_open s); [|reflexivity].
      do 3 monitor_next.
      destruct f; repeat monitor_next;
        match goal with
        | |- context [log_event ?a ?b ?c ?d ?e] =>
            destruct (Hlog c d e) as (s1 & o & ->)
        end; repeat monitor_next; reflexivity.
Qed.

(** An opening while the timer of the previous opening is still alive. *)
Lemma monitor_door_runs_until_an_exception_witness :
  exists s',
    monitor_iteration app_py (sample true 0) true (initial_state false)
    = (M_open_join, s', None) /\
    monitor_continue app_py 12 (sample true 0) false M_open_join s' None
    = (M_loop, s', Some (new_timer (timer_duration s'))).
Proof.
  apply (proj2 (proj2 (proj2 monitor_door_runs_until_an_exception))
           app_py (sample true 0) true (initial_state false) true).
  - reflexivity.
  - reflexivity.
  - reflexivity.
  - intros v. cbn [setting initial_state]. rewrite lookup_singleton_eq.
    intros [= <-]. reflexivity.
Defined.

(** C8, as stated, fails: a sensor read that raises ends the thread, in
    either file.  The exception is not caught and nothing is recorded; the
    dead thread takes no further turn, so the next sample is never read. *)
Lemma sensor_failure_kills_monitor :
  let bad := {| gpio_input := Raise RuntimeError; monitor_log := calm 0 |} in
  system_step app_py (Monitor_turn bad) (boot (initial_state false))
  = Some ({| shared := initial_state false; monitor := M_crashed RuntimeError;
             timer_thread := None |}, []) /\
  system_run app_py [Monitor_turn bad; Monitor_turn (sample true 1)]
    (boot (initial_state false)) = None /\
  system_step app_with_html_errors_py (Monitor_turn bad)
    (boot (initial_state false))
  = Some ({| shared := initial_state false; monitor := M_crashed RuntimeError;
             timer_thread := None |}, []) /\
  system_run app_with_html_errors_py
    [Monitor_turn bad; Monitor_turn (sample true 1)]
    (boot (initial_state false)) = None.
Proof. repeat split. Qed.

(** C6, as amended: when the monitor of app_with_html_errors.py handles a
    closing of the door, the alarm dedup flag is cleared and the three door
    flags are set false.  The last logged door state is not reset to
    unknown: the door_close submission that ends the handler records the
    door as closed, unless the time-based test rejects that submission, in
    which case the record stays as it was. *)
Theorem door_close_clears_alarm_flag w alive s :
  TESTING s = false ->
  gpio_input w = Ok false ->
  door_open s = true ->
  let s' := after_monitor_iteration app_with_html_errors_py w alive s in
  last_logged_alarm_state s' = false /\
  last_logged_door_state s'
  = (if time_based_duplicate (time_time (monitor_log w))
          (event_key "door_close" "Door closed") s
     then last_logged_door_state s else Some false) /\
  door_open s' = false /\ alarm_active s' = false /\ timer_active s' = false.
Proof.
  intros Htest Hg Hopen.
  set (s0 := GPIO_output 16 false (GPIO_output 13 false
               (set_last_logged_alarm_state false (set_timer_active false
                  (set_alarm_active false (set_door_open false s)))))).
  assert (Hiter : after_monitor_iteration app_with_html_errors_py w alive s
                  = fst (log_event app_with_html_errors_py (monitor_log w)
                           "door_close" "Door closed" s0)).
  { unfold after_monitor_iteration, monitor_iteration, monitor_step at 1.
    rewrite Htest, Hg, Hopen. cbn [andb negb]. do 6 monitor_next. fold s0.
    destruct (log_event app_with_html_errors_py (monitor_log w)
                "door_close" "Door closed" s0) as [s1 [o|e]];
      repeat monitor_next; reflexivity. }
  cbv zeta. rewrite Hiter. clear Hiter.
  assert (H0 : door_open s0 = false /\ alarm_active s0 = false /\
               timer_active s0 = false /\
               last_logged_alarm_state s0 = false /\
               last_logged_door_state s0 = last_logged_door_state s /\
               last_event_timestamps s0 = last_event_timestamps s).
  { unfold s0.
    destruct (GPIO_output_keeps_flags 16 false (GPIO_output 13 false
                (set_last_logged_alarm_state false (set_timer_active false
                   (set_alarm_active false (set_door_open false s))))))
      as (-> & -> & -> & -> & -> & ->).
    destruct (GPIO_output_keeps_flags 13 false
                (set_last_logged_alarm_state false (set_timer_active false
                   (set_alarm_active false (set_door_open false s)))))
      as (-> & -> & -> & -> & -> & ->).
    cbn. auto 10. }
  destruct H0 as (Hd & Ha & Ht & Hal & Hld & Hts).
  assert (Hmain : forall s1 r,
            log_event app_with_html_errors_py (monitor_log w)
              "door_close" "Door closed" s0 = (s1, r) ->
            last_logged_alarm_state s1 = false /\
            last_logged_door_state s1
            = (if time_based_duplicate (time_time (monitor_log w))
                    (event_key "door_close" "Door closed") s
               then last_logged_door_state s else Some false) /\
            door_open s1 = false /\ alarm_active s1 = false /\
            timer_active s1 = false).
  { intros s1 r Hl.
    pose proof (log_event_keeps_flags _ _ _ _ _ _ _ Hl) as (F1 & F2 & F3).
    split; [|split; [|intuition congruence]].
    - apply log_event_flags in Hl. destruct (is_rejected r); [congruence|].
      destruct Hl as [_ Hl]. cbn in Hl. congruence.
    - assert (Htd : time_based_duplicate (time_time (monitor_log w))
                      (event_key "door_close" "Door closed") s0
                    = time_based_duplicate (time_time (monitor_log w))
                        (event_key "door_close" "Door closed") s)
        by (unfold time_based_duplicate; now rewrite Hts).
      rewrite <- Htd. unfold log_event in Hl.
      destruct (dedup_section_cases (monitor_log w) "door_close" "Door closed" s0)
        as [[Ht1 E]|[(Ht1&Hs1&E)|(s2&Ht1&Hs1&E)]]; rewrite E in Hl; rewrite Ht1.
      + injection Hl as <- _. exact Hld.
      + injection Hl as <- _.
        apply state_based_update_rejects in Hs1
          as [[H _]|[[_ H]|[H _]]]; try discriminate. exact H.
      + apply persist_and_broadcast_frame in Hl as (_&_&_&Hl&_).
        rewrite Hl. cbn. now apply state_based_update_flags in Hs1 as [-> _]. }
  destruct (log_event app_with_html_errors_py (monitor_log w)
              "door_close" "Door closed" s0) as [s1 r] eqn:Hl.
  cbn [fst]. eapply Hmain; reflexivity.
Qed.

Lemma door_close_clears_alarm_flag_witness :
  last_logged_alarm_state
    (after_monitor_iteration app_with_html_errors_py (sample false 1) false
       (set_last_logged_alarm_state true
          (set_door_open true (initial_state false)))) = false.
Proof.
  exact (proj1 (door_close_clears_alarm_flag (sample false 1) false
                  (set_last_logged_alarm_state true
                     (set_door_open true (initial_state false)))
                  eq_refl eq_refl eq_refl)).
Defined.

(** C6, as stated, fails: the door having been opened and logged, the
    handling of its closing leaves the last logged door state at closed
    ([False]), not at unknown ([None]). *)
Lemma door_close_records_closed_not_unknown :
  let opened := after_monitor_iteration app_with_html_errors_py
                  (sample true 0) false (initial_state false) in
  let closed := after_monitor_iteration app_with_html_errors_py
                  (sample false 5) true opened in
  door_open opened = true /\ last_logged_door_state opened = Some true /\
  door_open closed = false /\ last_logged_door_state closed = Some false /\
  last_logged_alarm_state closed = false.
Proof. vm_compute. auto 10. Qed.

End Sampling.

(** ** The door flags *)

Section Flags.

Implicit Types (f : source_file) (s : State) (sys : System).

(** C7: the two flags can both be true.  Neither thread holds a lock while
    it writes them, so the assignments of an edge handler and of the expiry
    branch interleave.  The door opens and stays open for the 30 seconds of
    the countdown; the timer leaves the loop and its final test finds both
    flags set; before its two assignments the monitor handles a closing and
    then a re-opening up to [alarm_active = False]; the timer assigns
    [timer_active = False] and [alarm_active = True]; the monitor assigns
    [timer_active = True].  The state then has [door_open], [alarm_active]
    and [timer_active] all true, in either file. *)
Theorem flags_both_set_under_interleaving :
  match system_run app_py
          (repeat (Monitor_turn (sample true 0)) 10
           ++ [Timer_turn (tick 0); Timer_turn (tick 30); Timer_turn (tick 30)]
           ++ repeat (Monitor_turn (sample false 30)) 7
           ++ repeat (Monitor_turn (sample true 30.1)) 3
           ++ repeat (Timer_turn (tick 30.1)) 2
           ++ [Monitor_turn (sample true 30.1)])
          (boot (initial_state false)) with
  | Some (sys, tr) =>
      door_open (shared sys) = true /\ alarm_active (shared sys) = true /\
      timer_active (shared sys) = true /\
      tr = [Loop_elapsed; Recheck true; Write_timer_active false;
            Write_alarm_active true]
  | None => False
  end /\
  match system_run app_with_html_errors_py
          (repeat (Monitor_turn (sample true 0)) 10
           ++ [Timer_turn (tick 0); Timer_turn (tick 30); Timer_turn (tick 30)]
           ++ repeat (Monitor_turn (sample false 30)) 8
           ++ repeat (Monitor_turn (sample true 30.1)) 3
           ++ repeat (Timer_turn (tick 30.1)) 2
           ++ [Monitor_turn (sample true 30.1)])
          (boot (initial_state false)) with
  | Some (sys, tr) =>
      door_open (shared sys) = true /\ alarm_active (shared sys) = true /\
      timer_active (shared sys) = true /\
      tr = [Loop_elapsed; Recheck true; Write_timer_active false;
            Write_alarm_active true]
  | None => False
  end.
Proof.
  split; vm_compute; repeat split; reflexivity.
Qed.

End Flags.

(** ** Concurrent submissions *)

Section Concurrent.

Abbreviation errors := app_with_html_errors_py.

Implicit Types (p : Pool) (c : Caller) (w : LogWorld).

Lemma lookup_pool_update i c' (l : list Caller) j cj :
  (i < length l)%nat ->
  <[i := c']> l !! j = Some cj ->
  (j = i /\ cj = c') \/ (j <> i /\ l !! j = Some cj).
Proof.
  intros Hi H. destruct (decide (j = i)) as [->|Hne].
  - rewrite list_lookup_insert_eq in H by exact Hi. injection H as <-. auto.
  - rewrite list_lookup_insert_ne in H by congruence. auto.
Qed.

Lemma apart_sym ci cj : apart ci cj -> apart cj ci.
Proof. unfold apart. intros H Hi Hj Hk. destruct H; auto. Qed.

(** A caller that has passed the tests and is outside the lock block has
    written its stamp. *)
Lemma passed_outside_is_stamped c :
  passed_dedup c = true -> in_lock_block c = false -> stamped c = true.
Proof.
  unfold passed_dedup, in_lock_block, stamped.
  destruct (at_line c) as [| | | |[|]| | | |[|]|]; auto; discriminate.
Qed.

Lemma stamped_is_passed c : stamped c = true -> passed_dedup c = true.
Proof.
  unfold passed_dedup, stamped.
  destruct (at_line c) as [| | | |[|]| | | |[|]|]; auto.
Qed.

(** Replacing one caller keeps the invariant when the new caller satisfies
    its own part, the others keep theirs, and the new caller is apart from
    the others. *)
Lemma pool_invariant_update p i c c' s' lk' :
  pool_invariant p -> callers p !! i = Some c ->
  caller_invariant (pool_update i c' s' lk' p) i c' ->
  (forall j cj, j <> i -> callers p !! j = Some cj ->
     caller_invariant (pool_update i c' s' lk' p) j cj) ->
  (forall j cj, j <> i -> callers p !! j = Some cj -> apart c' cj) ->
  pool_invariant (pool_update i c' s' lk' p).
Proof.
  intros [Hc Hp] Hi Hnew Hothers Hapart.
  pose proof (lookup_lt_Some _ _ _ Hi) as Hlt.
  split.
  - intros j cj Hj. cbn in Hj.
    apply lookup_pool_update in Hj as [[-> ->]|[Hne Hj]]; auto.
  - intros j k cj ck Hjk Hj Hk. cbn in Hj, Hk.
    apply lookup_pool_update in Hj; [|exact Hlt].
    apply lookup_pool_update in Hk; [|exact Hlt].
    destruct Hj as [[-> ->]|[Hnej Hj]], Hk as [[-> ->]|[Hnek Hk]].
    + contradiction.
    + eauto.
    + apply apart_sym. eauto.
    + eauto.
Qed.

(** A caller keeps its part of the invariant when neither the lock nor the
    stamps change. *)
Lemma caller_invariant_same p p' j cj :
  event_lock p' = event_lock p ->
  last_event_timestamps (pool_state p') = last_event_timestamps (pool_state p) ->
  caller_invariant p j cj -> caller_invariant p' j cj.
Proof. unfold caller_invariant. intros -> ->. auto. Qed.

Lemma apart_moved c c' cj :
  apart c cj ->
  (passed_dedup c' = true -> passed_dedup c = true) ->
  current_time c' = current_time c -> caller_key c' = caller_key c ->
  apart c' cj.
Proof. unfold apart. intros H Hp -> ->. auto. Qed.

Lemma apart_not_passed c' cj : passed_dedup c' = false -> apart c' cj.
Proof. unfold apart. intros ->. discriminate. Qed.

Lemma pool_step_invariant i w p p' :
  pool_invariant p -> pool_step errors i w p = Some p' -> pool_invariant p'.
Proof.
  intros Hinv Hstep. pose proof Hinv as [Hc Hp]. unfold pool_step in Hstep.
  destruct (callers p !! i) as [c|] eqn:Hi; [|discriminate].
  destruct (Hc i c Hi) as (Hlock & Hwin & Hst).
  assert (Hout : event_lock p = Some i -> forall j cj, j <> i ->
                 callers p !! j = Some cj -> in_lock_block cj = false).
  { intros Hl j cj Hne Hj. destruct (Hc j cj Hj) as (Hlj & _).
    destruct (in_lock_block cj); [|reflexivity].
    destruct Hlj as [Hlj _]. specialize (Hlj eq_refl). congruence. }
  assert (Hfree : event_lock p = None -> forall j cj,
                 callers p !! j = Some cj -> in_lock_block cj = false).
  { intros Hl j cj Hj. destruct (Hc j cj Hj) as (Hlj & _).
    destruct (in_lock_block cj); [|reflexivity].
    destruct Hlj as [Hlj _]. specialize (Hlj eq_refl). congruence. }
  assert (Hquiet : forall c' s',
            last_event_timestamps s' = last_event_timestamps (pool_state p) ->
            forall j cj, j <> i -> callers p !! j = Some cj ->
            caller_invariant (pool_update i c' s' (event_lock p) p) j cj).
  { intros c' s' Hts j cj Hne Hj.
    apply (caller_invariant_same p); auto. }
  destruct (at_line c) eqn:Hat.
  - (* L_acquire *)
    destruct (event_lock p) eqn:Hl; [discriminate|]. injection Hstep as <-.
    apply (pool_invariant_update p i c); auto.
    + unfold caller_invariant. cbn. split; [tauto|].
      split; [intros [H|H]; discriminate|discriminate].
    + intros j cj Hne Hj. destruct (Hc j cj Hj) as (Hlj & Hwj & Hsj).
      pose proof (Hfree eq_refl j cj Hj) as Hnb.
      unfold caller_invariant. cbn. rewrite Hnb. split; [|split].
      * split; [discriminate|]. intros [= E]. congruence.
      * intros Hat'. exfalso. unfold in_lock_block in Hnb.
        destruct Hat' as [E|E]; rewrite E in Hnb; discriminate.
      * exact Hsj.
    + intros j cj _ _. apply apart_not_passed. reflexivity.
  - (* L_time_check *)
    injection Hstep as <-.
    assert (Hin : event_lock p = Some i).
    { apply Hlock. unfold in_lock_block. now rewrite Hat. }
    apply (pool_invariant_update p i c); auto.
    + unfold caller_invariant. cbn.
      destruct (time_based_duplicate _ _ _) eqn:Htd; cbn.
      * split; [tauto|]. split; [intros [H|H]; discriminate|discriminate].
      * split; [tauto|]. split; [|discriminate].
        intros _ t Ht. unfold time_based_duplicate in Htd.
        unfold caller_key in Ht. cbn in Ht. rewrite Ht in Htd.
        now apply Qltb_ge.
    + intros j cj _ _. apply apart_not_passed. cbn.
      now destruct (time_based_duplicate _ _ _).
  - (* L_state_check *)
    assert (Hin : event_lock p = Some i).
    { apply Hlock. unfold in_lock_block. now rewrite Hat. }
    destruct (state_based_update (arg_type c) (pool_state p)) as [s1|] eqn:Hs;
      injection Hstep as <-.
    + pose proof (state_based_update_frame _ _ _ Hs) as (Hts & _).
      apply (pool_invariant_update p i c); auto.
      * unfold caller_invariant. cbn. rewrite Hts.
        split; [tauto|]. split; [auto|discriminate].
      * intros j cj Hne Hj. unfold apart. cbn. intros _ Hpj Hkey.
        pose proof (Hout Hin j cj Hne Hj) as Hnb.
        pose proof (passed_outside_is_stamped cj Hpj Hnb) as Hsj.
        destruct (Hc j cj Hj) as (_ & _ & Hstj).
        destruct (Hstj Hsj) as (t & Ht & Hle).
        left. unfold caller_key in *. cbn in Hkey. rewrite <- Hkey in Ht.
        specialize (Hwin (or_introl eq_refl) t Ht). lra.
    + apply (pool_invariant_update p i c); auto.
      * unfold caller_invariant. cbn.
        split; [tauto|]. split; [intros [H|H]; discriminate|discriminate].
      * intros j cj _ _. apply apart_not_passed. reflexivity.
  - (* L_stamp *)
    injection Hstep as <-.
    assert (Hin : event_lock p = Some i).
    { apply Hlock. unfold in_lock_block. now rewrite Hat. }
    apply (pool_invariant_update p i c); auto.
    + unfold caller_invariant. cbn. split; [tauto|].
      split; [intros [H|H]; discriminate|].
      intros _. exists (current_time c). unfold caller_key. cbn.
      rewrite lookup_insert_eq. split; [reflexivity|apply Qle_refl].
    + intros j cj Hne Hj. destruct (Hc j cj Hj) as (Hlj & Hwj & Hsj).
      pose proof (Hout Hin j cj Hne Hj) as Hnb.
      unfold caller_invariant. cbn. split; [exact Hlj|]. split.
      * intros Hat'. exfalso. unfold in_lock_block in Hnb.
        destruct Hat' as [E|E]; rewrite E in Hnb; discriminate.
      * intros Hstj. destruct (Hsj Hstj) as (t & Ht & Hle).
        destruct (decide (event_key (arg_type c) (arg_description c)
                          = caller_key cj)) as [Hk|Hk].
        -- exists (current_time c). rewrite Hk, lookup_insert_eq.
           split; [reflexivity|].
           rewrite <- Hk in Ht.
           specialize (Hwin (or_intror eq_refl) t Ht). lra.
        -- exists t. rewrite lookup_insert_ne by exact Hk. auto.
    + intros j cj Hne Hj. apply (apart_moved c); eauto.
      intros _. unfold passed_dedup. now rewrite Hat.
  - (* L_release *)
    injection Hstep as <-.
    assert (Hin : event_lock p = Some i).
    { apply Hlock. unfold in_lock_block. now rewrite Hat. }
    apply (pool_invariant_update p i c); auto.
    + unfold caller_invariant. cbn. destruct falls_through; cbn.
      * split; [split; discriminate|]. split; [intros [H|H]; discriminate|].
        intros _. apply Hst. unfold stamped. now rewrite Hat.
      * split; [split; discriminate|].
        split; [intros [H|H]; discriminate|discriminate].
    + intros j cj Hne Hj. destruct (Hc j cj Hj) as (Hlj & Hwj & Hsj).
      pose proof (Hout Hin j cj Hne Hj) as Hnb.
      unfold caller_invariant. cbn. rewrite Hnb. split; [|split].
      * split; discriminate.
      * intros Hat'. exfalso. unfold in_lock_block in Hnb.
        destruct Hat' as [E|E]; rewrite E in Hnb; discriminate.
      * exact Hsj.
    + intros j cj Hne Hj. apply (apart_moved c); eauto.
      unfold passed_dedup. cbn. rewrite Hat.
      now destruct falls_through.
  - (* L_insert *)
    assert (Hnl : event_lock p <> Some i).
    { intros E. apply Hlock in E. unfold in_lock_block in E.
      rewrite Hat in E. discriminate. }
    assert (Hs0 : stamped c = true) by (unfold stamped; now rewrite Hat).
    destruct (db_insert w _ _ (pool_state p)) as [s1 [event|e]] eqn:Hdb;
      injection Hstep as <-;
      pose proof (db_insert_frame _ _ _ _ _ _ Hdb) as (_&_&_&_&_&Hts);
      (apply (pool_invariant_update p i c); auto;
       [ unfold caller_invariant; cbn; rewrite Hts;
         split; [split; [discriminate|intros E; contradiction]|];
         split; [intros [H|H]; discriminate|intros _; now apply Hst]
       | intros j cj Hne Hj; apply (apart_moved c); eauto;
         intros _; unfold passed_dedup; now rewrite Hat ]).
  - (* L_payload *)
    assert (Hnl : event_lock p <> Some i).
    { intros E. apply Hlock in E. unfold in_lock_block in E.
      rewrite Hat in E. discriminate. }
    assert (Hs0 : stamped c = true) by (unfold stamped; now rewrite Hat).
    injection Hstep as <-.
    apply (pool_invariant_update p i c); auto.
    + unfold caller_invariant. cbn.
      split; [split; [discriminate|intros E; contradiction]|].
      split; [intros [H|H]; discriminate|intros _; now apply Hst].
    + intros j cj Hne Hj. apply (apart_moved c); eauto.
      intros _. unfold passed_dedup. now rewrite Hat.
  - (* L_broadcast *)
    assert (Hnl : event_lock p <> Some i).
    { intros E. apply Hlock in E. unfold in_lock_block in E.
      rewrite Hat in E. discriminate. }
    assert (Hs0 : stamped c = true) by (unfold stamped; now rewrite Hat).
    destruct (broadcast errors w _ (pool_state p)) as [s1 [u|e]] eqn:Hb;
      injection Hstep as <-;
      pose proof (broadcast_frame _ _ _ _ _ _ Hb) as (_&_&_&_&_&Hts&_);
      (apply (pool_invariant_update p i c); auto;
       [ unfold caller_invariant; cbn; rewrite Hts;
         split; [split; [discriminate|intros E; contradiction]|];
         split; [intros [H|H]; discriminate|intros _; now apply Hst]
       | intros j cj Hne Hj; apply (apart_moved c); eauto;
         intros _; unfold passed_dedup; now rewrite Hat ]).
  - discriminate.
  - discriminate.
Qed.

Lemma pool_start_invariant s calls : pool_invariant (pool_start errors s calls).
Proof.
  unfold pool_start. split.
  - intros i c Hi. cbn in Hi. change (map ?g calls) with (g <$> calls) in Hi.
    rewrite list_lookup_fmap in Hi.
    destruct (calls !! i) as [[ty d]|]; [|discriminate]. injection Hi as <-.
    unfold caller_invariant. cbn.
    split; [split; discriminate|].
    split; [intros [H|H]; discriminate|discriminate].
  - intros i j ci cj _ Hi _. cbn in Hi.
    change (map ?g calls) with (g <$> calls) in Hi.
    rewrite list_lookup_fmap in Hi.
    destruct (calls !! i) as [[ty d]|]; [|discriminate]. injection Hi as <-.
    apply apart_not_passed. reflexivity.
Qed.

Lemma pool_run_invariant schedule :
  forall p p', pool_invariant p -> pool_run errors schedule p = Some p' ->
               pool_invariant p'.
Proof.
  induction schedule as [|[i w] rest IH]; intros p p' Hinv.
  - cbn. intros [= <-]. exact Hinv.
  - cbn. destruct (pool_step errors i w p) as [p1|] eqn:Hstep; [|discriminate].
    apply IH. eapply pool_step_invariant; eauto.
Qed.

Lemma pool_run_cons f i w rest p :
  pool_run f ((i, w) :: rest) p
  = match pool_step f i w p with
    | None => None
    | Some p1 => pool_run f rest p1
    end.
Proof. reflexivity. Qed.

Ltac alone_next :=
  rewrite pool_run_cons; unfold pool_step at 1;
  cbn [callers pool_state event_lock pool_update at_line arg_type
       arg_description current_time move call lookup list_lookup
       insert list_insert caller_key].

(** A call that no other call interleaves with does what [log_event]
    does. *)
Lemma caller_alone_is_log_event w ty d s :
  exists n p c,
    pool_run errors (repeat (0%nat, w) n) (pool_start errors s [(ty, d)])
    = Some p /\
    callers p = [c] /\ event_lock p = None /\
    pool_state p = fst (log_event errors w ty d s) /\
    at_line c = match snd (log_event errors w ty d s) with
                | Ok o => L_returned o
                | Raise e => L_raised e
                end.
Proof.
  unfold log_event, dedup_section, pool_start. cbn [map fst snd].
  destruct (time_based_duplicate (time_time w) (event_key ty d) s) eqn:Ht.
  { exists 3%nat. cbn [repeat]. do 2 alone_next. rewrite Ht. alone_next.
    do 2 eexists. split; [reflexivity|]. cbn. auto. }
  destruct (state_based_update ty s) as [s1|] eqn:Hs.
  2:{ exists 4%nat. cbn [repeat]. do 2 alone_next. rewrite Ht. alone_next.
      rewrite Hs. alone_next.
      do 2 eexists. split; [reflexivity|]. cbn. auto. }
  unfold persist_and_broadcast.
  destruct (db_insert w ty d (stamp (time_time w) (event_key ty d) s1))
    as [s2 [event|e]] eqn:Hdb.
  2:{ exists 6%nat. cbn [repeat]. do 2 alone_next. rewrite Ht. alone_next.
      rewrite Hs. do 3 alone_next. rewrite Hdb.
      do 2 eexists. split; [reflexivity|]. cbn. auto. }
  destruct (broadcast errors w (status_payload event s2) s2)
    as [s3 [u|e]] eqn:Hb.
  - exists 8%nat. cbn [repeat]. do 2 alone_next. rewrite Ht. alone_next.
    rewrite Hs. do 3 alone_next. rewrite Hdb. do 2 alone_next. rewrite Hb.
    do 2 eexists. split; [reflexivity|]. cbn. auto.
  - exists 8%nat. cbn [repeat]. do 2 alone_next. rewrite Ht. alone_next.
    rewrite Hs. do 3 alone_next. rewrite Hdb. do 2 alone_next. rewrite Hb.
    do 2 eexists. split; [reflexivity|]. cbn. auto.
Qed.

(** C4, as amended: in app_with_html_errors.py, however the calls of
    [log_event] are interleaved, a caller holds [event_lock] exactly while
    it is between the time-based test and the end of the stamp update, so
    at most one caller is there at a time, and a caller that persists,
    computes the statistics or broadcasts does not hold the lock; and two
    callers with the same event type and description that both passed the
    duplicate tests read the clock two seconds or more apart, so two
    near-simultaneous identical submissions are never both persisted. *)
Theorem event_lock_guards_dedup_section s calls schedule p :
  pool_run errors schedule (pool_start errors s calls) = Some p ->
  (forall i c, callers p !! i = Some c ->
     (in_lock_block c = true <-> event_lock p = Some i)) /\
  (forall i j ci cj,
     callers p !! i = Some ci -> callers p !! j = Some cj ->
     in_lock_block ci = true -> in_lock_block cj = true -> i = j) /\
  (forall i j ci cj, i <> j ->
     callers p !! i = Some ci -> callers p !! j = Some cj ->
     passed_dedup ci = true -> passed_dedup cj = true ->
     arg_type ci = arg_type cj -> arg_description ci = arg_description cj ->
     (2 <= current_time ci - current_time cj)%Q \/
     (2 <= current_time cj - current_time ci)%Q).
Proof.
  intros Hrun.
  pose proof (pool_run_invariant schedule _ _ (pool_start_invariant s calls) Hrun)
    as [Hc Hp].
  split; [|split].
  - intros i c Hi. apply (Hc i c Hi).
  - intros i j ci cj Hi Hj Hbi Hbj.
    apply (Hc i ci Hi) in Hbi. apply (Hc j cj Hj) in Hbj. congruence.
  - intros i j ci cj Hne Hi Hj Hpi Hpj Hty Hd.
    apply (Hp i j ci cj Hne Hi Hj Hpi Hpj). unfold caller_key. congruence.
Qed.

Lemma event_lock_guards_dedup_section_witness :
  in_lock_block (move L_time_check (call errors "door_open" "Door opened"))
  = true <-> Some 0%nat = Some 0%nat.
Proof.
  exact (proj1 (event_lock_guards_dedup_section (initial_state false)
                  [("door_open", "Door opened"); ("door_open", "Door opened")]
                  [(0%nat, calm 0)]
                  {| pool_state := initial_state false;
                     event_lock := Some 0%nat;
                     callers := [move L_time_check
                                   (call errors "door_open" "Door opened");
                                 call errors "door_open" "Door opened"] |}
                  eq_refl) 0%nat _ eq_refl).
Defined.

(** C4, as stated, fails: the lock is released before the event is
    persisted.  Caller 0 submits a door_open and caller 1 a setting_changed
    event.  Caller 0 passes the lock block first; caller 1 passes it next
    and inserts its row while caller 0 has not yet inserted its own: both
    are inside the sequence from the dedup check to the broadcast and
    nobody holds the lock.  Run to the end in this order, the event
    accepted first gets the larger id, and the subscribers receive a total
    of 2 events before a total of 1. *)
Lemma submissions_interleave_after_the_lock :
  let start := pool_start errors (initial_state false)
                 [("door_open", "Door opened");
                  ("setting_changed", "Timer duration changed to 45 seconds")] in
  let first := repeat (0%nat, calm 0) 5 ++ repeat (1%nat, calm 0.1) 7 in
  let rest := repeat (0%nat, calm 0.2) 3 ++ [(1%nat, calm 0.3)] in
  match pool_run errors first start with
  | Some p =>
      event_lock p = None /\
      map in_pipeline (callers p) = [true; true] /\
      map in_lock_block (callers p) = [false; false]
  | None => False
  end /\
  match pool_run errors (first ++ rest) start with
  | Some p =>
      map (fun e => (ev_id e, event_type e)) (event_log (pool_state p))
      = [(1, "setting_changed"); (2, "door_open")] /\
      map (fun x => total_events (p_statistics x)) (emitted (pool_state p))
      = [2%nat; 1%nat]
  | None => False
  end.
Proof. vm_compute. repeat split. Qed.

End Concurrent.

(** ** More on the event pipeline *)

Section PipelineEdges.

Abbreviation errors := app_with_html_errors_py.

(** In app_with_html_errors.py a call raises only when the commit does, and
    then the log is as before. *)
Lemma errors_raise_is_commit w ty d s s' e :
  persist_and_broadcast errors w ty d s = (s', Raise e) ->
  commit_raises w = Some e /\ s' = s.
Proof.
  unfold persist_and_broadcast, db_insert, broadcast.
  destruct (commit_raises w); [intros [= <- <-]; auto|].
  destruct (emit_raises w); discriminate.
Qed.

(** X1: in app_with_html_errors.py a submission whose commit fails has
    already updated the dedup state.  Nothing is persisted, and yet the same
    submission repeated less than two seconds later is rejected as a
    duplicate; for door_open, door_close and alarm_triggered every later
    submission of the type is rejected at any time and with any description,
    as long as the flag stays: the event is lost. *)
Theorem failed_commit_still_suppresses s w1 ty d s1 e :
  log_event errors w1 ty d s = (s1, Raise e) ->
  event_log s1 = event_log s /\
  emitted s1 = emitted s /\
  (forall w2, (time_time w2 - time_time w1 < 2)%Q ->
     log_event errors w2 ty d s1 = (s1, Ok Deduplicated)) /\
  (counted_type ty = true ->
   forall w3 d3, log_event errors w3 ty d3 s1 = (s1, Ok Deduplicated)).
Proof.
  intros H.
  pose proof (log_event_passed _ _ _ _ _ _ H ltac:(discriminate))
    as (s0 & _ & Hs & Hp & Hstamp).
  apply errors_raise_is_commit in Hp as [_ ->].
  pose proof (state_based_update_frame _ _ _ Hs) as (_ & Hlog & Hem & _).
  split; [exact Hlog|]. split; [exact Hem|]. split.
  - intros w2 Hlt. apply (time_window_rejects _ _ _ _ (time_time w1)); [|exact Hlt].
    rewrite Hstamp. apply lookup_insert_eq.
  - intros Hc w3 d3. apply suppressed_is_rejected.
    eapply counted_type_rejects; [exact Hc|exact H|reflexivity].
Qed.

Lemma failed_commit_still_suppresses_witness :
  let bad := {| time_time := 0; datetime_now := 0;
                commit_raises := Some OperationalError;
                emit_raises := None |} in
  event_log (fst (log_event errors bad "door_open" "Door opened"
                    (initial_state false))) = [].
Proof.
  exact (proj1 (failed_commit_still_suppresses (initial_state false)
                  {| time_time := 0; datetime_now := 0;
                     commit_raises := Some OperationalError;
                     emit_raises := None |}
                  "door_open" "Door opened" _ OperationalError eq_refl)).
Defined.

Lemma append_assoc_string (a b c : string) : (a +:+ b) +:+ c = a +:+ (b +:+ c).
Proof.
  induction a as [|x a IH]; [reflexivity|].
  change (String x ((a +:+ b) +:+ c) = String x (a +:+ (b +:+ c))).
  now rewrite IH.
Qed.

(** X2: the dedup key is the concatenation of type, underscore and
    description, so different submissions can share a key: moving an
    underscore-separated part from the description to the type leaves the
    key as it is.  In app_with_html_errors.py the time-based test goes by
    the key: a submission that follows, by less than two seconds, one that
    passed the tests with the same key is rejected, whatever its type and
    description. *)
Theorem dedup_goes_by_concatenated_key :
  (forall a b c, event_key (a +:+ "_" +:+ b) c = event_key a (b +:+ "_" +:+ c)) /\
  (forall s w1 w2 ty d ty' d' s1 r1,
     event_key ty' d' = event_key ty d ->
     log_event errors w1 ty d s = (s1, r1) -> is_rejected r1 = false ->
     (time_time w2 - time_time w1 < 2)%Q ->
     log_event errors w2 ty' d' s1 = (s1, Ok Deduplicated)).
Proof.
  split.
  - intros a b c. unfold event_key. now rewrite !append_assoc_string.
  - intros s w1 w2 ty d ty' d' s1 r1 Hk H Hr Hlt.
    apply log_event_passed in H as (s0 & _ & _ & _ & Hstamp);
      [|intros ->; discriminate].
    apply (time_window_rejects _ _ _ _ (time_time w1)); [|exact Hlt].
    rewrite Hk, Hstamp. apply lookup_insert_eq.
Qed.

Lemma dedup_goes_by_concatenated_key_witness :
  log_event errors (calm 1) "user" "created_User bob created by admin"
    (fst (log_event errors (calm 0) "user_created"
            "User bob created by admin" (initial_state false)))
  = (fst (log_event errors (calm 0) "user_created"
            "User bob created by admin" (initial_state false)),
     Ok Deduplicated).
Proof.
  refine (proj2 dedup_goes_by_concatenated_key (initial_state false)
            (calm 0) (calm 1) "user_created" "User bob created by admin"
            "user" "created_User bob created by admin" _ _ eq_refl
            ltac:(apply surjective_pairing) ltac:(vm_compute; reflexivity)
            ltac:(vm_compute; reflexivity)).
Defined.

(** X3: when the commit succeeds and the emission to the subscribers
    raises, the event is persisted and nothing is emitted in either file;
    app_with_html_errors.py swallows the exception in [broadcast_event] and
    the call ends as accepted, whereas in app.py the exception leaves
    [log_event] after the row has been committed. *)
Theorem emit_failure_after_commit w ty d s e :
  commit_raises w = None -> emit_raises w = Some e ->
  (exists s' event,
     persist_and_broadcast app_py w ty d s = (s', Raise e) /\
     event_log s' = event_log s ++ [event] /\
     event_type event = ty /\ description event = d /\
     emitted s' = emitted s) /\
  (exists s' p,
     persist_and_broadcast errors w ty d s = (s', Ok (Accepted p)) /\
     event_log s' = event_log s ++ [p_event p] /\
     event_type (p_event p) = ty /\ description (p_event p) = d /\
     emitted s' = emitted s).
Proof.
  intros Hc He. unfold persist_and_broadcast, db_insert, broadcast.
  rewrite Hc, He. split; do 2 eexists; (split; [reflexivity|]); cbn; auto.
Qed.

Lemma emit_failure_after_commit_witness :
  let w := {| time_time := 0; datetime_now := 0; commit_raises := None;
              emit_raises := Some ConnectionError |} in
  exists s' event,
    persist_and_broadcast app_py w "door_open" "Door opened"
      (initial_state false) = (s', Raise ConnectionError) /\
    event_log s' = [event].
Proof.
  destruct (proj1 (emit_failure_after_commit
                     {| time_time := 0; datetime_now := 0;
                        commit_raises := None;
                        emit_raises := Some ConnectionError |}
                     "door_open" "Door opened" (initial_state false)
                     ConnectionError eq_refl eq_refl))
    as (s' & event & H1 & H2 & _).
  exists s', event. split; [exact H1|exact H2].
Defined.

End PipelineEdges.

(** ** More on the countdown *)

Section CountdownEdges.

Implicit Types (f : source_file) (w : TimerWorld) (t : Timer) (s : State).

(** While both flags are set and nobody else runs, the thread can leave the
    loop only by the elapsed time and the final test finds the flags set. *)
Lemma armed_run f ws :
  forall t s t' s' tr,
    alarm_timer_run f (map Own ws) t s = (t', s', tr) ->
    timer_active s = true -> door_open s = true ->
    if before_recheck (pc t)
    then tr = [] \/ tr = [Loop_elapsed] \/
         exists rest, tr = Loop_elapsed :: Recheck true :: rest
    else match pc t with
         | T_recheck => tr = [] \/ exists rest, tr = Recheck true :: rest
         | _ => True
         end.
Proof.
  induction ws as [|w ws IH]; intros t s t' s' tr.
  - cbn. intros [= <- <- <-] _ _.
    destruct (before_recheck (pc t)); [auto|]. destruct (pc t); auto.
  - cbn [map alarm_timer_run].
    destruct (alarm_timer_step f w t s) as [[t1 s1] ev] eqn:Hstep.
    destruct (alarm_timer_run f (map Own ws) t1 s1) as [[t2 s2] tr2] eqn:Hrun.
    intros [= <- <- <-] Hta Hdo.
    specialize (IH t1 s1 t2 s2 tr2 Hrun).
    unfold alarm_timer_step in Hstep.
    destruct (pc t) eqn:Hpc; cbn [before_recheck]; auto;
      rewrite ?Hta, ?Hdo in Hstep; cbn [negb orb andb] in Hstep.
    + injection Hstep as <- <- <-. cbn in IH |- *. auto.
    + destruct (Qltb _ _); injection Hstep as <- <- <-; cbn in IH |- *; auto.
      destruct (IH Hta Hdo) as [->|(rest & ->)]; eauto.
    + injection Hstep as <- <- <-. cbn in IH |- *. auto.
    + injection Hstep as <- <- <-. cbn in IH |- *.
      destruct (GPIO_output_keeps_flags 13 true s) as (E1 & _ & E3 & _).
      apply IH; congruence.
    + injection Hstep as <- <- <-. cbn in IH |- *. auto.
    + injection Hstep as <- <- <-. cbn in IH |- *.
      destruct (GPIO_output_keeps_flags 13 false s) as (E1 & _ & E3 & _).
      apply IH; congruence.
    + injection Hstep as <- <- <-. cbn. eauto.
Qed.

(** X4: a countdown that no other thread disturbs, started with
    [timer_active] and [door_open] set, never cancels: when it ends, it has
    left the loop by the elapsed time, found both flags set at the final
    test and submitted the alarm.  The loop is left by the elapsed time only
    at a clock reading that lies the duration or more after the start. *)
Theorem undisturbed_countdown_ends_in_alarm :
  (forall f d ws s0 t s tr,
     timer_active s0 = true -> door_open s0 = true ->
     alarm_timer_run f (map Own ws) (new_timer d) s0 = (t, s, tr) ->
     is_alive t = false ->
     exists r, tr = Loop_elapsed :: decision_trace d true r) /\
  (forall f w t s t' s',
     alarm_timer_step f w t s = (t', s', [Loop_elapsed]) ->
     (inject_Z (duration t) <= clock w - start_time t)%Q).
Proof.
  split.
  - intros f d ws s0 t s tr Hta Hdo Hrun Hdead.
    pose proof (armed_run f ws _ _ _ _ _ Hrun Hta Hdo) as Harmed.
    apply alarm_timer_run_remaining in Hrun; [|exact Hdead].
    cbn in Hrun, Harmed. destruct Hrun as (how & b & r & _ & -> & _).
    exists r. destruct Harmed as [E|[E|(rest & E)]]; try discriminate.
    + injection E as -> E. destruct b; discriminate.
    + injection E as -> E. destruct b; [reflexivity|discriminate].
  - intros f w t s t' s'. unfold alarm_timer_step.
    destruct (pc t);
      repeat match goal with
             | |- context [if Qltb ?a ?b then _ else _] =>
                 destruct (Qltb a b) eqn:Hq
             | |- context [if ?b then _ else _] => destruct b
             | |- context [log_event ?a ?b ?c ?d ?e] =>
                 destruct (log_event a b c d e) as [? [?|?]]
             | |- context [send_alarm_email ?a ?b ?c] =>
                 destruct (send_alarm_email a b c) as [? [?|?]]
             end; intros H; inversion H; subst.
    now apply Qltb_ge.
Qed.

Lemma undisturbed_countdown_ends_in_alarm_witness :
  exists r,
    snd (alarm_timer_run app_with_html_errors_py
           (map Own (map tick [0; 0; 0; 0; 0.5; 0.5; 1; 1; 1; 1; 1; 1; 1]%Q))
           (new_timer 1)
           (set_timer_active true (set_door_open true (initial_state false))))
    = Loop_elapsed :: decision_trace 1 true r.
Proof.
  set (run := alarm_timer_run app_with_html_errors_py
                (map Own (map tick
                   [0; 0; 0; 0; 0.5; 0.5; 1; 1; 1; 1; 1; 1; 1]%Q))
                (new_timer 1)
                (set_timer_active true
                   (set_door_open true (initial_state false)))).
  exact (proj1 undisturbed_countdown_ends_in_alarm app_with_html_errors_py 1
           (map tick [0; 0; 0; 0; 0.5; 0.5; 1; 1; 1; 1; 1; 1; 1]%Q)
           (set_timer_active true (set_door_open true (initial_state false)))
           (fst (fst run)) (snd (fst run)) (snd run)
           eq_refl eq_refl
           ltac:(vm_compute; reflexivity) ltac:(vm_compute; reflexivity)).
Defined.

(** Once the duration has elapsed on the clock, each statement of the
    thread brings it nearer to its end. *)
Lemma elapsed_step_decreases f w t s t' s' ev :
  pc t <> T_start ->
  (inject_Z (duration t) <= clock w - start_time t)%Q ->
  alarm_timer_step f w t s = (t', s', ev) ->
  pc t' <> T_start /\ duration t' = duration t /\
  start_time t' = start_time t /\
  (steps_left (pc t') <= pred (steps_left (pc t)))%nat.
Proof.
  intros Hns Hel. apply Qltb_ge in Hel. unfold alarm_timer_step.
  destruct (pc t) eqn:Hpc; try contradiction; rewrite ?Hel;
    repeat match goal with
           | |- context [if ?b then _ else _] => destruct b
           | |- context [log_event ?a ?b ?c ?d ?e] =>
               destruct (log_event a b c d e) as [? [?|?]]
           | |- context [send_alarm_email ?a ?b ?c] =>
               destruct (send_alarm_email a b c) as [? [?|?]]
           end; intros [= <- <- <-]; cbn; rewrite ?Hpc; cbn;
    repeat split; try discriminate; lia.
Qed.

Lemma elapsed_run_ends f slots :
  forall t s,
    pc t <> T_start ->
    (forall w, In (Own w) slots ->
       (inject_Z (duration t) <= clock w - start_time t)%Q) ->
    (steps_left (pc t) <= own_count slots)%nat ->
    is_alive (fst (fst (alarm_timer_run f slots t s))) = false.
Proof.
  induction slots as [|[w|g] rest IH]; intros t s Hns Hel Hn.
  - cbn in *. unfold is_alive. destruct (pc t); cbn in Hn; try lia; reflexivity.
  - cbn [alarm_timer_run].
    destruct (alarm_timer_step f w t s) as [[t1 s1] ev] eqn:Hstep.
    pose proof (elapsed_step_decreases _ _ _ _ _ _ _ Hns
                  (Hel w (or_introl eq_refl)) Hstep) as (H1 & H2 & H3 & H4).
    specialize (IH t1 s1 H1).
    destruct (alarm_timer_run f rest t1 s1) as [[t2 s2] tr2]. cbn in *.
    apply IH.
    + intros w' Hin. rewrite H2, H3. apply Hel. auto.
    + unfold own_count in *. cbn in Hn. lia.
  - cbn [alarm_timer_run]. apply IH; auto.
    intros w' Hin. apply Hel. right. exact Hin.
Qed.

(** X5: the countdown ends.  If, after the statement that reads the start
    time, every clock reading of the thread lies the duration or more after
    that start, the thread has returned or crashed by the time it has
    executed eleven further statements, whatever other threads do to the
    shared state in between. *)
Theorem countdown_ends_once_elapsed f d w0 rest s0 :
  (forall w, In (Own w) rest -> (inject_Z d <= clock w - clock w0)%Q) ->
  (11 <= own_count rest)%nat ->
  is_alive (fst (fst (alarm_timer_run f (Own w0 :: rest) (new_timer d) s0)))
  = false.
Proof.
  intros Hel Hn. cbn [alarm_timer_run].
  change (alarm_timer_step f w0 (new_timer d) s0)
    with ({| pc := T_while; duration := d; start_time := clock w0 |}, s0,
          @nil timer_event).
  pose proof (elapsed_run_ends f rest
                {| pc := T_while; duration := d; start_time := clock w0 |} s0
                ltac:(discriminate) Hel ltac:(cbn; lia)) as H.
  cbv beta iota zeta.
  remember (alarm_timer_run f rest
              {| pc := T_while; duration := d; start_time := clock w0 |} s0)
    as R eqn:HR.
  destruct R as [[t2 s2] tr2]. exact H.
Qed.

Lemma countdown_ends_once_elapsed_witness :
  is_alive (fst (fst (alarm_timer_run app_py
                        (Own (tick 0) :: repeat (Own (tick 5)) 11)
                        (new_timer 5) (initial_state false)))) = false.
Proof.
  apply (countdown_ends_once_elapsed app_py 5 (tick 0)
           (repeat (Own (tick 5)) 11) (initial_state false)).
  - intros w Hin. apply repeat_spec in Hin. injection Hin as ->.
    vm_compute. discriminate.
  - vm_compute. lia.
Defined.

(** X6: a countdown with a duration of zero or less never enters the blink
    loop: with a clock that does not run backwards, the first evaluation of
    the while test leaves the loop, and the thread stands at the final test
    without having touched the state. *)
Theorem nonpositive_duration_skips_loop f d w0 w1 g s :
  d <= 0 -> (clock w0 <= clock w1)%Q ->
  exists how t',
    alarm_timer_run f [Own w0; Other g; Own w1] (new_timer d) s
    = (t', g s, [how]) /\
    pc t' = T_recheck /\ loop_exit how = true.
Proof.
  intros Hd Hc. cbn [alarm_timer_run].
  change (alarm_timer_step f w0 (new_timer d) s)
    with ({| pc := T_while; duration := d; start_time := clock w0 |}, s,
          @nil timer_event).
  unfold alarm_timer_step. cbn [pc duration start_time].
  assert (Hq : Qltb (clock w1 - clock w0) (inject_Z d) = false).
  { apply Qltb_ge. rewrite Zle_Qle in Hd. change (inject_Z 0) with 0%Q in Hd. lra. }
  rewrite Hq. destruct (timer_active (g s)); do 2 eexists; cbn; eauto.
Qed.

Lemma nonpositive_duration_skips_loop_witness :
  exists how t',
    alarm_timer_run app_py [Own (tick 3); Other (fun s => s); Own (tick 3)]
      (new_timer 0) (initial_state false)
    = (t', initial_state false, [how]) /\
    pc t' = T_recheck /\ loop_exit how = true.
Proof.
  apply (nonpositive_duration_skips_loop app_py 0 (tick 3) (tick 3)
           (fun s => s) (initial_state false)).
  - lia.
  - vm_compute. discriminate.
Defined.

End CountdownEdges.

(** ** More on the monitor and the dispatcher *)

Section MonitorEdges.

Implicit Types (f : source_file) (s : State).

(** X7: an iteration of [monitor_door] in which the sensor shows the level
    already recorded in [door_open] changes nothing, submits nothing and
    starts nothing; with TESTING set the iteration does not even read the
    sensor, so a failing sensor cannot end the thread. *)
Theorem monitor_idles_without_edge :
  (forall f w alive s level,
     TESTING s = false -> gpio_input w = Ok level -> level = door_open s ->
     monitor_iteration f w alive s = (M_loop, s, None)) /\
  (forall f w alive s,
     TESTING s = true -> monitor_iteration f w alive s = (M_loop, s, None)).
Proof.
  split.
  - intros f w alive s level Ht Hg ->.
    unfold monitor_iteration, monitor_step at 1. rewrite Ht, Hg.
    destruct (door_open s); cbn [andb negb];
      rewrite monitor_continue_eq; unfold monitor_step at 1; cbv beta iota;
      reflexivity.
  - intros f w alive s Ht.
    unfold monitor_iteration, monitor_step at 1. rewrite Ht. reflexivity.
Qed.

Lemma monitor_idles_without_edge_witness :
  monitor_iteration app_py (sample false 0) false (initial_state false)
  = (M_loop, initial_state false, None).
Proof.
  exact (proj1 monitor_idles_without_edge app_py (sample false 0) false
           (initial_state false) false eq_refl eq_refl eq_refl).
Defined.

(** The monitor reaches the statement that starts a thread only from the
    join, and only when no timer is alive; no other statement starts one. *)
Lemma monitor_step_start f w alive at_ s at' s' started :
  monitor_step f w alive at_ s = Some (at', s', started) ->
  (at' = M_open_start -> at_ = M_open_join /\ alive = false) /\
  (started = None \/
   (at_ = M_open_start /\ started = Some (new_timer (timer_duration s)))).
Proof.
  unfold monitor_step.
  destruct at_;
    repeat match goal with
           | |- context [if ?b then _ else _] => destruct b eqn:?
           | |- context [match gpio_input w with _ => _ end] =>
               destruct (gpio_input w)
           | |- context [match setting s !! ?k with _ => _ end] =>
               destruct (setting s !! k)
           | |- context [int ?v] => destruct (int v)
           | |- context [log_event ?a ?b ?c ?d ?e] =>
               destruct (log_event a b c d e) as [? [?|?]]
           | |- context [match f with _ => _ end] => destruct f
           end; intros H; inversion H; subst; split; auto; discriminate.
Qed.

Lemma join_before_start_run f xs :
  forall sys sys' tr,
    (monitor sys = M_open_start -> timer_alive sys = false) ->
    system_run f xs sys = Some (sys', tr) ->
    monitor sys' = M_open_start -> timer_alive sys' = false.
Proof.
  induction xs as [|x xs IH]; intros sys sys' tr Hinv.
  - cbn. intros [= <- <-]. exact Hinv.
  - cbn [system_run].
    destruct (system_step f x sys) as [[sys1 ev]|] eqn:Hstep; [|discriminate].
    destruct (system_run f xs sys1) as [[sys2 tr2]|] eqn:Hrun; [|discriminate].
    intros [= <- <-]. apply (IH sys1 sys2 tr2); [|exact Hrun].
    destruct x as [w|w]; cbn in Hstep.
    + destruct (monitor_step f w _ _ _) as [[[at' s'] started]|] eqn:Hm;
        [|discriminate].
      injection Hstep as <- <-. cbn. intros ->.
      apply monitor_step_start in Hm as [Hm Hst].
      destruct (Hm eq_refl) as [Hat Hal].
      destruct Hst as [->|[E _]]; [exact Hal|congruence].
    + destruct (timer_thread sys) as [t|] eqn:Ht; [|discriminate].
      destruct (is_alive t) eqn:Hal; [|discriminate].
      destruct (alarm_timer_step f w t _) as [[t' s'] ev'].
      injection Hstep as <- <-. cbn. intros Hm.
      specialize (Hinv Hm). unfold timer_alive in Hinv. rewrite Ht in Hinv.
      congruence.
Qed.

(** X8: join before start.  In every state the two threads reach from the
    start of the program, under any schedule, the monitor replaces the timer
    thread only when no timer thread is alive, and the thread it starts is a
    fresh countdown with the duration read at this opening; no other
    statement of the monitor touches the timer thread. *)
Theorem timer_replaced_only_when_dead f xs s0 sys tr w sys' ev :
  system_run f xs (boot s0) = Some (sys, tr) ->
  system_step f (Monitor_turn w) sys = Some (sys', ev) ->
  timer_thread sys' = timer_thread sys \/
  (timer_alive sys = false /\
   timer_thread sys' = Some (new_timer (timer_duration (shared sys)))).
Proof.
  intros Hrun Hstep.
  pose proof (join_before_start_run f xs (boot s0) sys tr
                ltac:(discriminate) Hrun) as Hinv.
  cbn in Hstep.
  destruct (monitor_step f w _ _ _) as [[[at' s'] started]|] eqn:Hm;
    [|discriminate].
  injection Hstep as <- <-. cbn.
  apply monitor_step_start in Hm as [_ [->|[Hat ->]]]; auto.
Qed.

Lemma timer_replaced_only_when_dead_witness :
  timer_thread (boot (initial_state false)) = None /\
  exists sys',
    system_step app_py (Monitor_turn (sample true 0)) (boot (initial_state false))
    = Some (sys', []) /\
    (timer_thread sys' = None \/
     (timer_alive (boot (initial_state false)) = false /\
      timer_thread sys' = Some (new_timer 30))).
Proof.
  split; [reflexivity|]. eexists. split; [reflexivity|].
  exact (timer_replaced_only_when_dead app_py [] (initial_state false)
           (boot (initial_state false)) [] (sample true 0) _ [] eq_refl eq_refl).
Defined.

End MonitorEdges.

Section DispatcherEdges.

Implicit Types (s : State) (w : MailWorld) (c : EmailConfig).

Lemma config_ready_tests c :
  config_ready c = true ->
  negb (truthy_flag (is_configured c)) = false /\
  negb (truthy (sender_email c)) || negb (truthy (app_password c))
  || negb (truthy (recipient_emails c)) = false.
Proof.
  unfold config_ready. intros H.
  apply andb_prop in H as [H H4]. apply andb_prop in H as [H H3].
  apply andb_prop in H as [H1 H2]. rewrite H1, H2, H3, H4. split; reflexivity.
Qed.

Lemma except_clause_line e s :
  send_alarm_email_except e s
  = (set_console (console s ++ [error_line e]) s, Ok tt).
Proof. destruct e; reflexivity. Qed.

(** X9: with a complete, enabled configuration row and no failure on the
    way, [send_alarm_email] hands over exactly one message: from the
    configured sender, to the comma-separated recipients with surrounding
    blanks removed, carrying the duration it was given; the last line it
    prints is the success line and nothing else of the state changes. *)
Theorem alarm_mail_sent_once d s c :
  head (email_config s) = Some c -> config_ready c = true ->
  exists s',
    send_alarm_email mail_calm d s = (s', Ok tt) /\
    outbox s' = outbox s ++ [alarm_mail c d] /\
    last (console s') = Some (SUCCESS_sent (mail_to (alarm_mail c d))) /\
    same_but_mail s s'.
Proof.
  intros Hhead Hc. eexists. split; [|split; [|split]].
  - unfold send_alarm_email, send_alarm_email_try, bind, print, modify.
    cbn. rewrite Hhead.
    destruct (config_ready_tests _ Hc) as [-> ->]. cbn. reflexivity.
  - reflexivity.
  - cbn [console set_console set_outbox]. apply last_snoc.
  - repeat split.
Qed.

Lemma alarm_mail_sent_once_witness :
  exists s',
    send_alarm_email mail_calm 30 configured_state = (s', Ok tt) /\
    outbox s' =
      [{| mail_from := "door@example.org";
          mail_to := ["guard@example.org"; "owner@example.org"];
          mail_subject := subject; mail_duration := 30 |}] /\
    last (console s')
    = Some (SUCCESS_sent ["guard@example.org"; "owner@example.org"]) /\
    same_but_mail configured_state s'.
Proof.
  exact (alarm_mail_sent_once 30 configured_state _ eq_refl eq_refl).
Defined.

(** X10: where a failure falls decides whether the message has left.  With a
    complete configuration row, an exception raised by the query, the
    connection, STARTTLS, the login or [sendmail] leaves the outbox as it
    was; an exception raised by [server.quit()] comes after the message was
    handed over, so the message is out although the last line printed is the
    error line of that exception and no success line is printed.  In both
    cases the call returns normally. *)
Theorem alarm_mail_failure_placement w d s c e :
  head (email_config s) = Some c -> config_ready c = true ->
  (failure_before_send w = Some e ->
   exists s',
     send_alarm_email w d s = (s', Ok tt) /\
     outbox s' = outbox s /\
     last (console s') = Some (error_line e)) /\
  (failure_before_send w = None -> quit_raises w = Some e ->
   exists s',
     send_alarm_email w d s = (s', Ok tt) /\
     outbox s' = outbox s ++ [alarm_mail c d] /\
     last (console s') = Some (error_line e) /\
     ~ In (SUCCESS_sent (mail_to (alarm_mail c d))) (skipn (length (console s)) (console s'))).
Proof.
  intros Hhead Hc.
  destruct (config_ready_tests _ Hc) as [Ht1 Ht2].
  destruct w as [q cn st lg sm qt].
  unfold failure_before_send; cbn [query_raises connect_raises starttls_raises
    login_raises sendmail_raises quit_raises].
  split.
  - intros Hfail.
    unfold send_alarm_email, send_alarm_email_try, sendmail, bind, print,
      modify, may_raise, ret, raise.
    cbn [query_raises connect_raises starttls_raises
         login_raises sendmail_raises quit_raises].
    destruct q as [e1|];
      [injection Hfail as ->; rewrite except_clause_line; eexists;
       split; [reflexivity|split; [reflexivity|apply last_snoc]]|].
    cbn [email_config set_console]. rewrite Hhead, Ht1, Ht2.
    destruct cn as [e1|];
      [injection Hfail as ->; rewrite except_clause_line; eexists;
       split; [reflexivity|split; [reflexivity|apply last_snoc]]|].
    destruct st as [e1|];
      [injection Hfail as ->; rewrite except_clause_line; eexists;
       split; [reflexivity|split; [reflexivity|apply last_snoc]]|].
    destruct lg as [e1|];
      [injection Hfail as ->; rewrite except_clause_line; eexists;
       split; [reflexivity|split; [reflexivity|apply last_snoc]]|].
    destruct sm as [e1|]; [|discriminate].
    injection Hfail as ->; rewrite except_clause_line. eexists.
    split; [reflexivity|split; [reflexivity|apply last_snoc]].
  - intros Hfail ->.
    destruct q; [discriminate|]. destruct cn; [discriminate|].
    destruct st; [discriminate|]. destruct lg; [discriminate|].
    destruct sm; [discriminate|].
    eexists.
    unfold send_alarm_email, send_alarm_email_try, sendmail, bind, print,
      modify, may_raise, ret, raise.
    cbn [query_raises connect_raises starttls_raises
         login_raises sendmail_raises quit_raises].
    cbn [email_config set_console]. rewrite Hhead, Ht1, Ht2.
    rewrite except_clause_line.
    split; [reflexivity|split; [reflexivity|split; [apply last_snoc|]]].
    cbn [console set_console set_outbox].
    rewrite <- !app_assoc. rewrite skipn_app, Nat.sub_diag, skipn_all.
    cbn. destruct e; intuition discriminate.
Qed.

Lemma alarm_mail_failure_placement_witness :
  exists s',
    send_alarm_email
      {| query_raises := None; connect_raises := None;
         starttls_raises := None; login_raises := None;
         sendmail_raises := None;
         quit_raises := Some SMTPServerDisconnected |} 30 configured_state
    = (s', Ok tt) /\
    length (outbox s') = 1%nat /\
    last (console s') = Some (ERROR_smtp SMTPServerDisconnected).
Proof.
  destruct (proj2 (alarm_mail_failure_placement
              {| query_raises := None; connect_raises := None;
                 starttls_raises := None; login_raises := None;
                 sendmail_raises := None;
                 quit_raises := Some SMTPServerDisconnected |}
              30 configured_state _ SMTPServerDisconnected eq_refl eq_refl)
              eq_refl eq_refl) as [s' [H1 [H2 [H3 _]]]].
  exists s'. split; [exact H1|]. split; [rewrite H2; reflexivity|exact H3].
Defined.

End DispatcherEdges.

(** ** The settings route and the text of numbers *)

Section Strings.

Lemma all_chars_app p a b :
  all_chars p (a +:+ b) = all_chars p a && all_chars p b.
Proof.
  induction a as [|c a IH]; [reflexivity|].
  change (String c a +:+ b) with (String c (a +:+ b)).
  cbn [all_chars]. rewrite IH. apply andb_assoc.
Qed.

Lemma app_string_assoc (a b c : string) : (a +:+ b) +:+ c = a +:+ (b +:+ c).
Proof.
  induction a as [|x a IH]; [reflexivity|].
  change ((String x a +:+ b) +:+ c) with (String x ((a +:+ b) +:+ c)).
  rewrite IH. reflexivity.
Qed.

Lemma app_string_empty (a : string) : a +:+ "" = a.
Proof.
  induction a as [|c a IH]; [reflexivity|].
  change (String c a +:+ "") with (String c (a +:+ "")). now rewrite IH.
Qed.

Lemma length_app_string (a b : string) :
  String.length (a +:+ b) = (String.length a + String.length b)%nat.
Proof.
  induction a as [|c a IH]; [reflexivity|].
  change (String c a +:+ b) with (String c (a +:+ b)).
  cbn [String.length]. now rewrite IH.
Qed.

Lemma is_digit_not_int_space c : is_digit c = true -> is_int_space c = false.
Proof.
  unfold is_digit, is_int_space. cbv zeta. intros H.
  apply andb_prop in H as [H1 H2].
  apply Nat.leb_le in H1. apply Nat.leb_le in H2.
  apply orb_false_iff. split.
  - apply andb_false_iff. right. apply Nat.leb_gt. lia.
  - apply Nat.eqb_neq. lia.
Qed.

Lemma skip_right_digits s : all_chars is_digit s = true -> skip_right s = s.
Proof.
  induction s as [|c s IH]; [reflexivity|]. cbn [all_chars skip_right].
  intros H. apply andb_prop in H as [Hc Hs]. rewrite (IH Hs).
  destruct s; [|reflexivity]. now rewrite (is_digit_not_int_space c Hc).
Qed.

Lemma skip_digits s :
  all_chars is_digit s = true -> skip_right (skip_left s) = s.
Proof.
  intros H. destruct s as [|c s]; [reflexivity|]. cbn [skip_left].
  pose proof H as H'. cbn [all_chars] in H'. apply andb_prop in H' as [Hc _].
  rewrite (is_digit_not_int_space c Hc). now apply skip_right_digits.
Qed.

Lemma count_digits_all s :
  all_chars is_digit s = true -> count_digits s = Z.of_nat (String.length s).
Proof.
  induction s as [|c s IH]; [reflexivity|]. cbn [all_chars].
  intros H. apply andb_prop in H as [Hc Hs].
  cbn [count_digits String.length]. rewrite Hc, (IH Hs). lia.
Qed.

(** Reading one more digit at the end of a run of digits. *)
Lemma int_digits_snoc ds c :
  all_chars is_digit ds = true -> is_digit c = true ->
  forall acc prev,
    int_digits (ds +:+ String c "") acc prev
    = Some (10 * match ds with
                 | EmptyString => acc
                 | _ => default 0 (int_digits ds acc prev)
                 end + digit_value c).
Proof.
  intros Hds Hc. induction ds as [|d ds IH]; intros acc prev.
  - change ("" +:+ String c "") with (String c "").
    cbn [int_digits]. now rewrite Hc.
  - cbn [all_chars] in Hds. apply andb_prop in Hds as [Hd Hds].
    change (String d ds +:+ String c "") with (String d (ds +:+ String c "")).
    cbn [int_digits]. rewrite Hd, (IH Hds).
    destruct ds; reflexivity.
Qed.

Lemma pretty_N_char_digit d :
  (d < 10)%N ->
  is_digit (pretty_N_char d) = true /\ digit_value (pretty_N_char d) = Z.of_N d.
Proof.
  intros H.
  destruct d as [|p]; [split; reflexivity|].
  do 4 (destruct p as [p|p|]; try (split; reflexivity); try lia).
Qed.

(** The digits [pretty_N_go] puts in front of its accumulator: they read
    back as the number, and there are no more of them than the number
    needs. *)
Lemma pretty_N_go_digits x :
  exists ds,
    (forall s, pretty_N_go x s = ds +:+ s) /\
    all_chars is_digit ds = true /\
    ((0 < x)%N -> ds <> "" /\
       10 ^ Z.of_nat (String.length ds) <= 10 * Z.of_N x /\
       forall prev, int_digits ds 0 prev = Some (Z.of_N x)).
Proof.
  induction x as [x IH] using (well_founded_induction N.lt_wf_0).
  destruct (decide (x = 0%N)) as [->|Hx].
  - exists "". split; [intros s; apply pretty_N_go_0|]. split; [reflexivity|].
    intros H. lia.
  - assert (Hpos : (0 < x)%N) by lia.
    destruct (IH (x `div` 10)%N) as (ds & Hgo & Hall & Hval).
    { apply N.div_lt; lia. }
    destruct (pretty_N_char_digit (x `mod` 10)%N) as [Hc Hv].
    { apply N.mod_lt. lia. }
    pose proof (N.div_mod x 10 ltac:(lia)) as Hdm.
    exists (ds +:+ String (pretty_N_char (x `mod` 10)) "").
    split; [|split].
    + intros s. rewrite pretty_N_go_step by exact Hpos. rewrite Hgo.
      now rewrite app_string_assoc.
    + rewrite all_chars_app, Hall. cbn. now rewrite Hc.
    + intros _. split; [destruct ds; discriminate|].
      rewrite length_app_string. cbn [String.length].
      destruct (decide (x `div` 10 = 0)%N) as [E|E].
      * assert (Hds : ds = "").
        { specialize (Hgo ""). rewrite E, pretty_N_go_0 in Hgo.
          destruct ds; [reflexivity|discriminate]. }
        subst ds. split.
        -- change (10 ^ Z.of_nat (String.length "" + 1)) with 10. clear - Hpos. lia.
        -- intros prev. rewrite (int_digits_snoc "" _ eq_refl Hc), Hv.
           f_equal. revert E Hdm. clear.
           generalize (x `div` 10)%N (x `mod` 10)%N. lia.
      * destruct (Hval (proj1 (N.neq_0_lt_0 _) E)) as (Hne & Hlen & Hval').
        split.
        -- rewrite Nat2Z.inj_add, Z.pow_add_r by lia.
           change (10 ^ Z.of_nat 1) with 10.
           revert Hlen Hdm. clear.
           generalize (10 ^ Z.of_nat (String.length ds)).
           generalize (x `div` 10)%N (x `mod` 10)%N. lia.
        -- intros prev. rewrite (int_digits_snoc ds _ Hall Hc), Hv.
           f_equal. destruct ds as [|d ds']; [contradiction|].
           rewrite Hval'. cbn [default]. unfold id. revert Hdm. clear.
           generalize (x `div` 10)%N (x `mod` 10)%N. lia.
Qed.

(** The decimal text of a positive number below [10 ^ max_str_digits]:
    digits only, within the limit, reading back as the number. *)
Lemma pretty_N_digits x :
  (0 < x)%N -> Z.of_N x < 10 ^ max_str_digits ->
  all_chars is_digit (pretty x) = true /\ pretty x <> "" /\
  count_digits (pretty x) <= max_str_digits /\
  int_digits (pretty x) 0 false = Some (Z.of_N x).
Proof.
  intros Hpos Hsmall. unfold pretty, pretty_N.
  destruct (decide (x = 0%N)) as [E|_]; [lia|].
  destruct (pretty_N_go_digits x) as (ds & Hgo & Hall & Hval).
  destruct (Hval Hpos) as (Hne & Hlen & Hread).
  rewrite Hgo, app_string_empty.
  split; [exact Hall|]. split; [exact Hne|]. split; [|apply Hread].
  rewrite (count_digits_all ds Hall).
  destruct (Z_le_gt_dec (Z.of_nat (String.length ds)) max_str_digits)
    as [Hle|Hgt]; [exact Hle|exfalso].
  assert (Hpow : 10 * 10 ^ max_str_digits
                 <= 10 ^ Z.of_nat (String.length ds)).
  { replace (10 * 10 ^ max_str_digits) with (10 ^ (max_str_digits + 1)).
    - apply Z.pow_le_mono_r; [lia|]. lia.
    - rewrite Z.pow_add_r by (unfold max_str_digits; lia).
      change (10 ^ 1) with 10. lia. }
  revert Hpow Hlen Hsmall. clear.
  generalize (10 ^ Z.of_nat (String.length ds)) (10 ^ max_str_digits). lia.
Qed.

Lemma int_unsigned s :
  s <> "" -> all_chars is_digit s = true ->
  count_digits s <= max_str_digits ->
  int s = match int_digits s 0 false with
          | Some n => Ok n
          | None => Raise ValueError
          end.
Proof.
  intros Hne Hall Hcount. unfold int. rewrite (skip_digits s Hall).
  destruct s as [|c s']; [contradiction|].
  cbn [all_chars] in Hall. apply andb_prop in Hall as [Hc _].
  apply Z.ltb_ge in Hcount.
  destruct c as [[] [] [] [] [] [] [] []]; try discriminate Hc;
    cbv beta iota; rewrite Hcount; reflexivity.
Qed.

(** [int(str(n)) == n] for an integer [str()] and [int()] convert: one of
    at most [max_str_digits] digits. *)
Lemma int_str_int n :
  Z.abs n < 10 ^ max_str_digits -> int (str_int n) = Ok n.
Proof.
  intros Hsmall. unfold str_int. destruct n as [|p|p].
  - reflexivity.
  - change (pretty (Z.pos p)) with (pretty (N.pos p)).
    destruct (pretty_N_digits (N.pos p) ltac:(lia) Hsmall)
      as (Hall & Hne & Hcount & Hread).
    rewrite (int_unsigned _ Hne Hall Hcount), Hread. reflexivity.
  - change (pretty (Z.neg p)) with (String "-" (pretty (N.pos p))).
    destruct (pretty_N_digits (N.pos p) ltac:(lia) Hsmall)
      as (Hall & Hne & Hcount & Hread).
    unfold int. cbn [skip_left].
    change (is_int_space "-") with false. cbv iota.
    assert (Hr : skip_right (String "-" (pretty (N.pos p)))
                 = String "-" (pretty (N.pos p))).
    { cbn [skip_right]. rewrite (skip_right_digits _ Hall).
      destruct (pretty (N.pos p)); [contradiction|reflexivity]. }
    rewrite Hr. cbv beta iota.
    apply Z.ltb_ge in Hcount. rewrite Hcount, Hread. reflexivity.
Qed.

End Strings.

Section Routes.

Implicit Types (f : source_file) (s : State) (u : User).

(** [log_event] reads the settings and never writes them. *)
Lemma log_event_keeps_setting f (w : LogWorld) ty d s s' r :
  log_event f w ty d s = (s', r) -> setting s' = setting s.
Proof.
  assert (Hpb : forall s0 s1 r0,
             persist_and_broadcast f w ty d s0 = (s1, r0) ->
             setting s1 = setting s0).
  { intros s0 s1 r0. unfold persist_and_broadcast, db_insert, broadcast.
    destruct (commit_raises w); [intros [= <- <-]; reflexivity|].
    destruct (emit_raises w); destruct f; intros [= <- <-]; reflexivity. }
  unfold log_event. destruct f; [apply Hpb|].
  destruct (dedup_section_cases w ty d s) as [[_ E]|[(_&_&E)|(s1&_&Hs&E)]];
    rewrite E; try (intros [= <- <-]; reflexivity).
  intros H. apply Hpb in H. rewrite H. cbn.
  revert Hs. unfold state_based_update.
  repeat match goal with
         | |- context [if ?b then _ else _] => destruct b
         | |- context [match last_logged_door_state s with _ => _ end] =>
             destruct (last_logged_door_state s) as [[|]|]
         end; intros [= <-]; reflexivity.
Qed.

(** X11: what is posted to [update_settings] is what the countdown uses.
    When the caller holds the permission 'controls', the setting exists and
    the commit succeeds, the posted text is stored as it is, whatever
    [log_event] does afterwards.  At the next opening [monitor_door] arms
    the countdown with exactly the integer posted, of any sign, when it has
    no more digits than [int()] converts (4300); and an ASCII text that
    [int()] rejects ends the monitor thread there with that exception. *)
Theorem posted_duration_reaches_countdown f w u text s s' r :
  has_permission "controls" u = true ->
  is_Some (setting s !! "timer_duration") ->
  route_commit_raises w = None ->
  update_settings f w u (Some text) s = (s', r) ->
  setting s' !! "timer_duration" = Some text /\
  (forall n mw alive,
     Z.abs n < 10 ^ max_str_digits ->
     text = str_int n ->
     monitor_step f mw alive M_open_setting s'
     = Some (M_open_log, set_timer_duration n s', None)) /\
  (forall e mw alive,
     is_ascii text = true ->
     int text = Raise e ->
     monitor_step f mw alive M_open_setting s'
     = Some (M_crashed e, s', None)).
Proof.
  intros Hperm [v Hv] Hcommit. unfold update_settings.
  rewrite Hperm, Hv, Hcommit. cbn [negb].
  destruct (log_event f (route_log w) _ _ _) as [s2 r2] eqn:Hlog.
  apply log_event_keeps_setting in Hlog. cbn [setting set_setting] in Hlog.
  intros H.
  assert (Hs : setting s' !! "timer_duration" = Some text).
  { destruct r2; injection H as <- _; rewrite Hlog; apply lookup_insert_eq. }
  split; [exact Hs|]. split.
  - intros n mw alive Hn ->. cbn [monitor_step].
    rewrite Hs, (int_str_int n Hn). reflexivity.
  - intros e mw alive _ He. cbn [monitor_step]. rewrite Hs, He. reflexivity.
Qed.

Lemma posted_duration_reaches_countdown_witness :
  monitor_step app_py (sample true 0) false M_open_setting
    (fst (update_settings app_py (route_calm 0) operator (Some "-5")
            (initial_state false)))
  = Some (M_open_log,
          set_timer_duration (-5)
            (fst (update_settings app_py (route_calm 0) operator (Some "-5")
                    (initial_state false))),
          None) /\
  monitor_step app_py (sample true 0) false M_open_setting
    (fst (update_settings app_py (route_calm 0) operator (Some "soon")
            (initial_state false)))
  = Some (M_crashed ValueError,
          fst (update_settings app_py (route_calm 0) operator (Some "soon")
                 (initial_state false)),
          None).
Proof.
  split.
  - exact (proj1 (proj2 (posted_duration_reaches_countdown app_py
             (route_calm 0) operator "-5" (initial_state false) _ _
             eq_refl (ex_intro _ "30" eq_refl) eq_refl eq_refl))
             (-5) (sample true 0) false ltac:(vm_compute; reflexivity)
             eq_refl).
  - exact (proj2 (proj2 (posted_duration_reaches_countdown app_py
             (route_calm 0) operator "soon" (initial_state false) _ _
             eq_refl (ex_intro _ "30" eq_refl) eq_refl eq_refl))
             ValueError (sample true 0) false eq_refl eq_refl).
Defined.

(** In app.py a call whose commit succeeds adds its row, whatever the
    emission does. *)
Lemma app_py_commit_appends (w : LogWorld) ty d s :
  commit_raises w = None ->
  exists e,
    event_log (fst (log_event app_py w ty d s)) = event_log s ++ [e] /\
    event_type e = ty.
Proof.
  intros Hc. unfold log_event, persist_and_broadcast, db_insert, broadcast.
  rewrite Hc. eexists.
  destruct (emit_raises w); cbn; split; reflexivity.
Qed.

(** X12: in app.py, the file that serves the route, a test event is logged
    as a real event would be.  When an administrator posts [test_event]
    with the type door_open (the default of the route) and the commit
    succeeds, the door flag is as it was and the log counts one more
    door_open; nothing marks the row as a test, and nothing is suppressed
    afterwards: the submission [monitor_door] makes at the next real
    opening adds a further door_open row when its commit succeeds. *)
Theorem test_event_is_logged_as_an_opening w u ty d s s' r :
  is_admin u = true ->
  default "door_open" ty = "door_open" ->
  commit_raises w = None ->
  test_event w u ty d s = (s', r) ->
  door_open s' = door_open s /\
  count_by_type "door_open" (event_log s')
  = S (count_by_type "door_open" (event_log s)) /\
  (forall mw alive,
     commit_raises (monitor_log mw) = None ->
     exists at' s2,
       monitor_step app_py mw alive M_open_log s' = Some (at', s2, None) /\
       count_by_type "door_open" (event_log s2)
       = S (S (count_by_type "door_open" (event_log s)))).
Proof.
  intros Hadmin Hty Hcommit. unfold test_event. rewrite Hadmin, Hty.
  destruct (app_py_commit_appends w "door_open" (default "Test event" d) s
              Hcommit) as (e & Hlog & He).
  destruct (log_event app_py w "door_open" _ s) as [s1 r1] eqn:Hcall.
  cbn [fst] in Hlog. intros H.
  assert (E : s1 = s') by (destruct r1; now injection H). subst s1.
  pose proof (log_event_keeps_flags _ _ _ _ _ _ _ Hcall) as (Hdoor & _ & _).
  assert (Hone : forall e0, event_type e0 = "door_open" ->
                            count_by_type "door_open" [e0] = 1%nat).
  { intros e0 H0. unfold count_by_type. cbn. now rewrite H0. }
  assert (Hcount : count_by_type "door_open" (event_log s')
                   = S (count_by_type "door_open" (event_log s))).
  { rewrite Hlog, count_by_type_app, (Hone e He). lia. }
  split; [exact Hdoor|]. split; [exact Hcount|].
  intros mw alive Hc.
  destruct (app_py_commit_appends (monitor_log mw) "door_open" "Door opened"
              s' Hc) as (e2 & Hlog2 & He2).
  cbn [monitor_step].
  destruct (log_event app_py (monitor_log mw) "door_open" "Door opened" s')
    as [s2 r2]. cbn [fst] in Hlog2.
  assert (Hcount2 : count_by_type "door_open" (event_log s2)
                    = S (S (count_by_type "door_open" (event_log s)))).
  { rewrite Hlog2, count_by_type_app, (Hone e2 He2), Hcount. lia. }
  destruct r2; eexists _, s2; split; try reflexivity; exact Hcount2.
Qed.

Lemma test_event_is_logged_as_an_opening_witness :
  door_open (fst (test_event (calm 0) admin None None (initial_state false)))
  = false /\
  count_by_type "door_open"
    (event_log (fst (test_event (calm 0) admin None None
                       (initial_state false)))) = 1%nat /\
  count_by_type "door_open"
    (event_log
       (after_monitor_iteration app_py (sample true 100) false
          (fst (test_event (calm 0) admin None None (initial_state false)))))
  = 2%nat.
Proof.
  destruct (test_event_is_logged_as_an_opening (calm 0) admin None None
              (initial_state false) _ _ eq_refl eq_refl eq_refl eq_refl)
    as (H1 & H2 & _).
  split; [exact H1|]. split; [exact H2|]. vm_compute. reflexivity.
Defined.

End Routes.

(** ** Users and permissions *)

Section Users.

Implicit Types (f : source_file) (site : Site) (u : User) (l : list User).

Lemma split_without_sep c x : contains c x = false -> split c x = [x].
Proof.
  induction x as [|a x IH]; [reflexivity|]. cbn [contains split].
  intros H. apply orb_false_iff in H as [Ha Hx].
  rewrite Ha, (IH Hx). reflexivity.
Qed.

Lemma split_at_sep c x rest :
  contains c x = false ->
  split c (x +:+ String c rest) = x :: split c rest.
Proof.
  induction x as [|a x IH].
  - intros _. change ("" +:+ String c rest) with (String c rest).
    cbn [split]. now rewrite Ascii.eqb_refl.
  - cbn [contains]. intros H. apply orb_false_iff in H as [Ha Hx].
    change (String a x +:+ String c rest)
      with (String a (x +:+ String c rest)).
    cbn [split]. rewrite Ha, (IH Hx). reflexivity.
Qed.

(** [','.join(l).split(',') == l] when no item holds a comma. *)
Lemma split_join (items : list string) :
  items <> [] -> Forall (fun x => contains "," x = false) items ->
  split "," (join "," items) = items.
Proof.
  intros Hne H. induction H as [|x rest Hx Hrest IH]; [contradiction|].
  cbn [join]. destruct rest as [|y rest'].
  - now apply split_without_sep.
  - change (x +:+ "," +:+ join "," (y :: rest'))
      with (x +:+ String "," (join "," (y :: rest'))).
    rewrite (split_at_sep _ _ _ Hx), IH by discriminate. reflexivity.
Qed.

Lemma find_username_none name l :
  find_username name l = None <-> ~ In name (map username l).
Proof.
  unfold find_username. induction l as [|u l IH]; cbn.
  - tauto.
  - destruct (String.eqb_spec (username u) name) as [E|E].
    + split; [discriminate|]. intros H. contradiction H. now left.
    + rewrite IH. tauto.
Qed.

Lemma find_username_some name l u :
  find_username name l = Some u -> In u l /\ username u = name.
Proof.
  unfold find_username. intros H. apply find_some in H as [Hin E].
  apply String.eqb_eq in E. auto.
Qed.

Lemma find_username_app name l u :
  find_username name l = None -> username u = name ->
  find_username name (l ++ [u]) = Some u.
Proof.
  unfold find_username. intros Hl Hu. induction l as [|v l IH]; cbn in *.
  - now rewrite Hu, String.eqb_refl.
  - destruct (String.eqb (username v) name); [discriminate|]. now apply IH.
Qed.

Lemma find_user_id_some uid l u :
  find_user_id uid l = Some u -> In u l /\ user_id u = uid.
Proof.
  unfold find_user_id. intros H. apply find_some in H as [Hin E].
  apply Z.eqb_eq in E. auto.
Qed.

Lemma validation_passed form :
  validation_errors form = [] ->
  exists name password,
    form_username form = Some name /\ form_password form = Some password /\
    selected_permissions form <> [].
Proof.
  unfold validation_errors, too_short.
  destruct (form_username form) as [name|]; [|discriminate].
  destruct (form_password form) as [password|];
    [|destruct (_ <? _)%nat; discriminate].
  destruct (selected_permissions form);
    [destruct (_ <? _)%nat; destruct (_ <? _)%nat; discriminate|].
  intros _. exists name, password. repeat split. discriminate.
Qed.

Lemma validation_errors_not_created form name :
  validation_errors form <> [User_created name].
Proof.
  unfold validation_errors.
  destruct (too_short 4 _), (too_short 6 _), (selected_permissions form);
    discriminate.
Qed.

(** X13: the permissions chosen at creation are the permissions the guards
    grant.  When [create_user] reports success and no chosen item holds a
    comma, the new row is found under the submitted name and the guard
    ['p' in permissions.split(',')] passes for exactly the chosen items. *)
Theorem created_user_holds_chosen_permissions f w cu form site site' name :
  create_user f w cu form site = (site', To_admin_panel [User_created name]) ->
  Forall (fun x => contains "," x = false) (selected_permissions form) ->
  exists u,
    find_username name (users site') = Some u /\
    is_admin u = form_is_admin form /\
    forall p, has_permission p u = true <-> In p (selected_permissions form).
Proof.
  unfold create_user. destruct (is_admin cu); cbn [negb]; [|discriminate].
  destruct (validation_errors form) as [|x xs] eqn:Hval.
  2:{ intros H. inversion H; subst.
      now apply validation_errors_not_created in Hval. }
  destruct (validation_passed form Hval) as (n & pw & -> & -> & Hsel).
  destruct (find_username n (users site)) eqn:Hfind; [discriminate|].
  destruct (route_commit_raises w); [discriminate|].
  destruct (log_event f _ _ _ _) as [s2 [o|e]]; [|discriminate].
  intros [= <- <-] Hfree.
  exists (new_user (users site) n pw (form_is_admin form)
            (selected_permissions form)).
  split; [|split].
  - cbn. now apply find_username_app.
  - reflexivity.
  - intros p. unfold has_permission, new_user. cbn [permissions].
    destruct (selected_permissions form) as [|y ys] eqn:E; [contradiction|].
    rewrite split_join by (auto; discriminate).
    rewrite bool_decide_eq_true. apply list_elem_of_In.
Qed.

Lemma created_user_holds_chosen_permissions_witness :
  exists u,
    find_username "guard"
      (users (fst (create_user app_py (route_calm 0) admin guard_form
                     fresh_site))) = Some u /\
    is_admin u = false /\
    has_permission "event_log" u = true /\
    has_permission "controls" u = false.
Proof.
  destruct (created_user_holds_chosen_permissions app_py (route_calm 0)
              admin guard_form fresh_site _ "guard" eq_refl
              ltac:(repeat constructor)) as (u & Hfind & Hadmin & Hperm).
  exists u. split; [exact Hfind|]. split; [exact Hadmin|]. split.
  - apply Hperm. cbn. auto.
  - destruct (has_permission "controls" u) eqn:E; [|reflexivity].
    apply Hperm in E. cbn in E.
    destruct E as [E|[E|[]]]; discriminate.
Defined.

(** X14: the administrator [init_system] creates can administer but holds
    only the column default of [permissions].  On a table without a user
    'admin', [init_system] adds one with [is_admin] set for whom the
    permission guard passes for 'dashboard' and for nothing else; so
    [update_settings] answers that administrator with 403 and changes
    nothing. *)
Theorem default_admin_passes_only_dashboard_guard site :
  find_username "admin" (users site) = None ->
  exists u,
    find_username "admin" (users (init_system site)) = Some u /\
    is_admin u = true /\
    (forall p, has_permission p u = true <-> p = "dashboard") /\
    (forall f w data s,
       update_settings f w u data s
       = (s, Ok (Json_error "Permission denied" 403))).
Proof.
  intros Hnone. exists (default_admin (users site)).
  split; [|split; [|split]].
  - unfold init_system. cbn [users]. rewrite Hnone.
    now apply find_username_app.
  - reflexivity.
  - intros p. unfold has_permission. cbn [permissions default_admin].
    rewrite bool_decide_eq_true.
    change (split "," "dashboard") with ["dashboard"].
    rewrite list_elem_of_singleton. reflexivity.
  - intros f w data s. reflexivity.
Qed.

Lemma default_admin_passes_only_dashboard_guard_witness :
  exists u,
    find_username "admin" (users fresh_site) = Some u /\
    is_admin u = true /\
    has_permission "controls" u = false /\
    update_settings app_py (route_calm 0) u (Some "60") (core fresh_site)
    = (core fresh_site, Ok (Json_error "Permission denied" 403)).
Proof.
  destruct (default_admin_passes_only_dashboard_guard (blank_site false)
              eq_refl) as (u & Hfind & Hadmin & Hperm & Hupd).
  exists u. split; [exact Hfind|]. split; [exact Hadmin|]. split.
  - destruct (has_permission "controls" u) eqn:E; [|reflexivity].
    apply Hperm in E. discriminate.
  - apply Hupd.
Defined.

End Users.

Section UserTable.

Implicit Types (f : source_file) (site : Site) (u : User) (l : list User).

Lemma next_user_id_above l u : In u l -> user_id u < next_user_id l.
Proof.
  unfold next_user_id. induction l as [|v l IH]; [contradiction|].
  cbn [fold_right]. intros [->|H]; [lia|]. specialize (IH H). lia.
Qed.

Lemma update_user_usernames uid a p l :
  map username (update_user uid a p l) = map username l.
Proof.
  unfold update_user. rewrite map_map. apply map_ext.
  intros u. destruct (user_id u =? uid); reflexivity.
Qed.

Lemma update_user_ids uid a p l :
  map user_id (update_user uid a p l) = map user_id l.
Proof.
  unfold update_user. rewrite map_map. apply map_ext.
  intros u. destruct (user_id u =? uid); reflexivity.
Qed.

Lemma NoDup_map_filter {A B} (g : A -> B) (p : A -> bool) (xs : list A) :
  NoDup (map g xs) -> NoDup (map g (List.filter p xs)).
Proof.
  induction xs as [|x xs IH]; [trivial|]. cbn [map List.filter].
  intros H. apply NoDup_cons in H as [Hx Hxs].
  destruct (p x); [|now apply IH]. cbn [map]. apply NoDup_cons.
  split; [|now apply IH].
  intros Hin. apply Hx. apply list_elem_of_In in Hin.
  apply list_elem_of_In. apply in_map_iff in Hin as (y & <- & Hy).
  apply filter_In in Hy as [Hy _]. now apply in_map.
Qed.

(** Creation changes the table only by appending a row under a new name. *)
Lemma create_user_users f w cu form site :
  users (fst (create_user f w cu form site)) = users site \/
  exists name password,
    find_username name (users site) = None /\
    users (fst (create_user f w cu form site))
    = users site ++ [new_user (users site) name password
                       (form_is_admin form) (selected_permissions form)].
Proof.
  unfold create_user. destruct (is_admin cu); cbn [negb]; [|now left].
  destruct (validation_errors form) as [|x xs]; [|now left].
  destruct (form_username form) as [name|]; [|now left].
  destruct (form_password form) as [password|]; [|now left].
  destruct (find_username name (users site)) eqn:Hfind; [now left|].
  destruct (route_commit_raises w); [now left|].
  right. exists name, password. split; [exact Hfind|].
  destruct (log_event f _ _ _ _) as [s2 [o|e]]; reflexivity.
Qed.

(** [manage_user] changes the table only by rewriting the two columns of the
    rows with the given id, or by deleting those rows when the row found is
    not named 'admin'. *)
Lemma manage_user_users f w cu uid m site :
  users (fst (manage_user f w cu uid m site)) = users site \/
  (exists a p,
     is_admin cu = true /\
     users (fst (manage_user f w cu uid m site))
     = update_user uid a p (users site)) \/
  (exists user,
     is_admin cu = true /\
     find_user_id uid (users site) = Some user /\ username user <> "admin" /\
     users (fst (manage_user f w cu uid m site))
     = delete_user uid (users site)).
Proof.
  unfold manage_user. destruct (is_admin cu); cbn [negb]; [|now left].
  destruct (find_user_id uid (users site)) as [user|] eqn:Hfind; [|now left].
  destruct m as [a p|].
  - destruct (route_commit_raises w); [now left|].
    right. left. exists (default false a), (default "" p).
    split; [reflexivity|].
    destruct (log_event f _ _ _ _) as [s2 [o|e]]; reflexivity.
  - destruct (String.eqb_spec (username user) "admin") as [E|E]; [now left|].
    destruct (route_commit_raises w); [now left|].
    right. right. exists user. repeat split; auto.
    destruct (log_event f _ _ _ _) as [s2 [o|e]]; reflexivity.
Qed.

Lemma same_id_same_row l a b :
  NoDup (map user_id l) -> In a l -> In b l -> user_id a = user_id b -> a = b.
Proof.
  induction l as [|x l IH]; [contradiction|]. cbn [map].
  intros H. apply NoDup_cons in H as [Hx Hl].
  rewrite list_elem_of_In in Hx.
  intros [->|Ha] [->|Hb] E; auto.
  - contradiction Hx. rewrite E. now apply in_map.
  - contradiction Hx. rewrite <- E. now apply in_map.
Qed.

Lemma serve_keeps_table f r site :
  users_ok site ->
  users_ok (serve f r site) /\
  (In "admin" (usernames site) -> In "admin" (usernames (serve f r site))).
Proof.
  intros [Hnames Hids]. unfold serve.
  destruct (find_user_id (session_user r) (users site)) as [cu|];
    [|split; [split|]; auto].
  destruct (request_route r) as [form|uid m|data|ty d];
    [| |(split; [split|]; auto)|(destruct f; (split; [split|]; auto))].
  - destruct (create_user_users f (request_world r) cu form site)
      as [E|(name & password & Hnone & E)];
      unfold users_ok, usernames; rewrite E; [split; [split|]; auto|].
    rewrite !map_app. cbn [map new_user username user_id].
    split; [split|].
    + apply NoDup_app. split; [exact Hnames|]. split; [|apply NoDup_singleton].
      intros x Hx Hx'. apply list_elem_of_singleton in Hx'. subst x.
      apply find_username_none in Hnone. apply Hnone.
      now apply list_elem_of_In.
    + apply NoDup_app. split; [exact Hids|]. split; [|apply NoDup_singleton].
      intros x Hx Hx'. apply list_elem_of_singleton in Hx'. subst x.
      apply list_elem_of_In, in_map_iff in Hx as (v & Hv & Hin).
      apply next_user_id_above in Hin. lia.
    + intros H. apply in_app_iff. now left.
  - destruct (manage_user_users f (request_world r) cu uid m site)
      as [E|[(a & p & _ & E)|(user & _ & Hfind & Hname & E)]];
      unfold users_ok, usernames; rewrite E.
    + split; [split|]; auto.
    + rewrite update_user_usernames, update_user_ids. split; [split|]; auto.
    + unfold delete_user. split; [split|].
      * now apply NoDup_map_filter.
      * now apply NoDup_map_filter.
      * intros H. apply in_map_iff in H as (v & Hv & Hin).
        apply in_map_iff. exists v. split; [exact Hv|].
        apply filter_In. split; [exact Hin|].
        apply negb_true_iff, Z.eqb_neq. intros Hid.
        apply find_user_id_some in Hfind as [Hin' Hid'].
        assert (v = user).
        { apply (same_id_same_row (users site)); auto. congruence. }
        subst v. contradiction.
Qed.

Lemma init_system_users site :
  users (init_system site)
  = match find_username "admin" (users site) with
    | Some _ => users site
    | None => users site ++ [default_admin (users site)]
    end.
Proof. reflexivity. Qed.

Lemma init_system_keeps_table site :
  users_ok site ->
  users_ok (init_system site) /\ In "admin" (usernames (init_system site)).
Proof.
  intros [Hnames Hids]. unfold users_ok, usernames.
  rewrite init_system_users.
  destruct (find_username "admin" (users site)) as [u|] eqn:Hfind.
  - split; [split; auto|].
    apply find_username_some in Hfind as [Hin <-]. now apply in_map.
  - rewrite !map_app. cbn [map default_admin username user_id].
    split; [split|].
    + apply NoDup_app. split; [exact Hnames|]. split; [|apply NoDup_singleton].
      intros x Hx Hx'. apply list_elem_of_singleton in Hx'. subst x.
      apply find_username_none in Hfind. apply Hfind.
      now apply list_elem_of_In.
    + apply NoDup_app. split; [exact Hids|]. split; [|apply NoDup_singleton].
      intros x Hx Hx'. apply list_elem_of_singleton in Hx'. subst x.
      apply list_elem_of_In, in_map_iff in Hx as (v & Hv & Hin).
      apply next_user_id_above in Hin. lia.
    + apply in_app_iff. right. now left.
Qed.

(** X15: the user table stays well formed and keeps its 'admin'.  Starting
    from any table whose names and ids are unique, after [init_system] and
    any sequence of requests to [create_user], [manage_user],
    [update_settings] and [test_event], whatever the world decides during
    them, user names are still unique, ids are still unique, and a user
    named 'admin' still exists. *)
Theorem user_table_stays_well_formed f rs site0 :
  users_ok site0 ->
  users_ok (serve_all f rs (init_system site0)) /\
  In "admin" (usernames (serve_all f rs (init_system site0))).
Proof.
  intros H0. apply init_system_keeps_table in H0.
  revert H0. generalize (init_system site0). unfold serve_all.
  induction rs as [|r rs IH]; intros site [Hok Hadmin]; [auto|].
  cbn [fold_left]. apply IH.
  destruct (serve_keeps_table f r site Hok) as [Hok' Hadmin']. auto.
Qed.

Lemma user_table_stays_well_formed_witness :
  users_ok (serve_all app_py example_requests (init_system (blank_site false)))
  /\ In "admin"
       (usernames
          (serve_all app_py example_requests (init_system (blank_site false)))).
Proof.
  exact (user_table_stays_well_formed app_py example_requests
           (blank_site false) ltac:(split; constructor)).
Defined.

Lemma serve_without_admin f r site :
  no_admin site -> users (serve f r site) = users site.
Proof.
  intros Hno. unfold serve.
  destruct (find_user_id (session_user r) (users site)) as [cu|] eqn:Hfind;
    [|reflexivity].
  apply find_user_id_some in Hfind as [Hin _].
  assert (Hcu : is_admin cu = false).
  { unfold no_admin in Hno. rewrite Forall_forall in Hno.
    apply Hno. now apply list_elem_of_In. }
  destruct (request_route r) as [form|uid m|data|ty d];
    [| |reflexivity|destruct f; reflexivity].
  - unfold create_user. rewrite Hcu. reflexivity.
  - unfold manage_user. rewrite Hcu. reflexivity.
Qed.

Lemma serve_all_without_admin f rs :
  forall site, no_admin site -> users (serve_all f rs site) = users site.
Proof.
  unfold serve_all. induction rs as [|r rs IH]; intros site Hno; [reflexivity|].
  cbn [fold_left]. pose proof (serve_without_admin f r site Hno) as E.
  rewrite IH; [exact E|]. unfold no_admin. now rewrite E.
Qed.

(** X16: administrator rights can be lost for good.  When the only
    administrator sends [manage_user] a PUT for the own row with an empty
    body, the defaults of [data.get] clear the row's [is_admin] and
    permissions, so no administrator is left; from then on no sequence of
    requests changes the user table, and [init_system] at the next start
    does not restore the rights, because the row named 'admin' still
    exists. *)
Theorem admin_rights_lost_for_good f w site u rs :
  find_user_id (user_id u) (users site) = Some u ->
  is_admin u = true ->
  (forall v, In v (users site) -> is_admin v = true -> user_id v = user_id u) ->
  route_commit_raises w = None ->
  no_admin (serve f (demote_self w u) site) /\
  users (serve_all f rs (serve f (demote_self w u) site))
  = users (serve f (demote_self w u) site) /\
  (In "admin" (usernames site) ->
   users (init_system (serve_all f rs (serve f (demote_self w u) site)))
   = users (serve f (demote_self w u) site)).
Proof.
  intros Hfind Hadmin Honly Hcommit.
  assert (E : users (serve f (demote_self w u) site)
              = update_user (user_id u) false "" (users site)).
  { unfold serve, demote_self.
    cbn [session_user request_route request_world].
    rewrite Hfind. unfold manage_user. rewrite Hadmin, Hfind, Hcommit.
    cbn [negb default].
    destruct (log_event f _ _ _ _) as [s2 [o|e]]; reflexivity. }
  assert (Hno : no_admin (serve f (demote_self w u) site)).
  { unfold no_admin. rewrite E. unfold update_user.
    apply Forall_forall. intros x Hx.
    apply list_elem_of_In, in_map_iff in Hx as (v & <- & Hin).
    destruct (user_id v =? user_id u) eqn:Hid; [reflexivity|].
    destruct (is_admin v) eqn:Hv; [|reflexivity].
    apply Z.eqb_neq in Hid. contradiction Hid. now apply Honly. }
  split; [exact Hno|]. split; [now apply serve_all_without_admin|].
  intros Hname. rewrite init_system_users.
  rewrite (serve_all_without_admin f rs _ Hno).
  destruct (find_username "admin" _) eqn:Hf; [reflexivity|].
  apply find_username_none in Hf. contradiction Hf.
  rewrite E, update_user_usernames. exact Hname.
Qed.

Lemma admin_rights_lost_for_good_witness :
  no_admin (serve app_py (demote_self (route_calm 0) admin) fresh_site) /\
  users (serve_all app_py example_requests
           (serve app_py (demote_self (route_calm 0) admin) fresh_site))
  = users (serve app_py (demote_self (route_calm 0) admin) fresh_site).
Proof.
  destruct (admin_rights_lost_for_good app_py (route_calm 0) fresh_site admin
              example_requests eq_refl eq_refl) as (H1 & H2 & _).
  - intros v [<-|[]] _. reflexivity.
  - reflexivity.
  - exact (conj H1 H2).
Defined.

End UserTable.

Section StartUp.

Implicit Types (f : source_file) (site : Site) (s : State).

Lemma leds_twice (m : gmap Z bool) :
  <[16 := false]> (<[13 := false]> (<[22 := true]>
    (<[16 := false]> (<[13 := false]> (<[22 := true]> m)))))
  = <[16 := false]> (<[13 := false]> (<[22 := true]> m)).
Proof.
  apply map_eq. intros i.
  destruct (decide (i = 16)) as [->|H16]; [now rewrite !lookup_insert_eq|].
  rewrite !(lookup_insert_ne _ 16) by congruence.
  destruct (decide (i = 13)) as [->|H13]; [now rewrite !lookup_insert_eq|].
  rewrite !(lookup_insert_ne _ 13) by congruence.
  destruct (decide (i = 22)) as [->|H22]; [now rewrite !lookup_insert_eq|].
  rewrite !(lookup_insert_ne _ 22) by congruence.
  rewrite ?(lookup_insert_ne _ 16) by congruence.
  rewrite ?(lookup_insert_ne _ 13) by congruence.
  rewrite ?(lookup_insert_ne _ 22) by congruence.
  reflexivity.
Qed.

Lemma GPIO_output_setting pin level s :
  setting (GPIO_output pin level s) = setting s /\
  TESTING (GPIO_output pin level s) = TESTING s.
Proof. unfold GPIO_output. destruct (TESTING s) eqn:E; auto. Qed.

Lemma GPIO_output_testing pin level s :
  TESTING s = true -> GPIO_output pin level s = s.
Proof. unfold GPIO_output. now intros ->. Qed.

Lemma GPIO_output_live pin level s :
  TESTING s = false ->
  GPIO_output pin level s = set_gpio_out (<[pin := level]> (gpio_out s)) s.
Proof. unfold GPIO_output. now intros ->. Qed.

(** The three LED writes of [init_system] as one update. *)
Lemma init_leds s :
  GPIO_output 16 false (GPIO_output 13 false (GPIO_output 22 true s))
  = if TESTING s then s
    else set_gpio_out
           (<[16 := false]> (<[13 := false]> (<[22 := true]> (gpio_out s)))) s.
Proof.
  destruct (TESTING s) eqn:Ht.
  - rewrite (GPIO_output_testing 22 true s Ht).
    rewrite (GPIO_output_testing 13 false s Ht).
    now rewrite (GPIO_output_testing 16 false s Ht).
  - rewrite (GPIO_output_live 22) by exact Ht.
    rewrite (GPIO_output_live 13) by exact Ht.
    rewrite (GPIO_output_live 16) by exact Ht.
    reflexivity.
Qed.

(** X17: [init_system] only fills in what is missing, and running it again
    changes nothing.  A stored timer setting keeps its value and the default
    '30' appears only when there was none; the state it yields on an empty
    database, next to the one row of the default administrator, is the
    initial state of the controller. *)
Theorem init_system_fills_in_once :
  (forall site, init_system (init_system site) = init_system site) /\
  (forall site,
     setting (core (init_system site)) !! "timer_duration"
     = Some (default "30" (setting (core site) !! "timer_duration"))) /\
  (forall testing,
     init_system (blank_site testing)
     = {| core := initial_state testing; users := [default_admin []] |}).
Proof.
  split; [|split].
  - intros [s l]. unfold init_system. cbn [core users]. rewrite !init_leds.
    f_equal.
    + destruct (setting s !! "timer_duration") as [v|] eqn:Hv;
        destruct (TESTING s) eqn:Ht;
        repeat (cbn [setting set_gpio_out set_setting TESTING gpio_out];
                rewrite ?Hv, ?Ht, ?lookup_insert_eq);
        rewrite ?leds_twice; reflexivity.
    + destruct (find_username "admin" l) as [u|] eqn:Hfind.
      * now rewrite Hfind.
      * now rewrite (find_username_app "admin" l (default_admin l) Hfind
                       eq_refl).
  - intros [s l]. unfold init_system. cbn [core].
    rewrite !(proj1 (GPIO_output_setting _ _ _)).
    destruct (setting s !! "timer_duration") as [v|] eqn:Hv; cbn [default].
    + exact Hv.
    + apply lookup_insert_eq.
  - intros testing. unfold init_system. rewrite init_leds.
    unfold blank_site, initial_state. cbn [core users setting].
    rewrite lookup_empty. cbn [TESTING set_setting].
    destruct testing.
    + cbn [setting]. rewrite insert_empty. reflexivity.
    + cbn [setting set_gpio_out TESTING gpio_out].
      rewrite !insert_empty. reflexivity.
Qed.

End StartUp.

Section Creation.

Implicit Types (f : source_file) (site : Site) (u : User).

(** X18: [create_user] can report an error for a user it has created.  The
    row is committed before [log_event] is called inside the same [try]; when
    that call raises, the handler flashes 'Error creating user' and nothing
    else, yet the row is in the table, and a second submission of the same
    form is answered with 'already exists'. *)
Theorem create_user_error_after_commit f w cu form site name password s2 e :
  is_admin cu = true ->
  validation_errors form = [] ->
  form_username form = Some name -> form_password form = Some password ->
  find_username name (users site) = None ->
  route_commit_raises w = None ->
  log_event f (route_log w) "user_created"
    ("User " +:+ name +:+ " created by admin") (core site) = (s2, Raise e) ->
  exists site',
    create_user f w cu form site
    = (site', To_admin_panel [Error_creating_user e]) /\
    find_username name (users site')
    = Some (new_user (users site) name password (form_is_admin form)
              (selected_permissions form)) /\
    (forall w', create_user f w' cu form site'
                = (site', To_admin_panel [User_already_exists name])).
Proof.
  intros Hadmin Hval Hname Hpw Hfind Hcommit Hlog.
  eexists. split; [|split].
  - unfold create_user. rewrite Hadmin, Hval, Hname, Hpw, Hfind, Hcommit.
    cbn [negb set_users core]. rewrite Hlog. reflexivity.
  - cbn [users set_core set_users]. now apply find_username_app.
  - intros w'. unfold create_user. rewrite Hadmin, Hval, Hname, Hpw.
    cbn [negb users set_core set_users].
    rewrite (find_username_app name (users site)
               (new_user (users site) name password (form_is_admin form)
                  (selected_permissions form)) Hfind eq_refl).
    reflexivity.
Qed.

Lemma create_user_error_after_commit_witness :
  exists site',
    create_user app_py (emit_fails 0 ConnectionError) admin guard_form
      fresh_site
    = (site', To_admin_panel [Error_creating_user ConnectionError]) /\
    map username (users site') = ["admin"; "guard"].
Proof.
  destruct (create_user_error_after_commit app_py
              (emit_fails 0 ConnectionError) admin guard_form fresh_site
              "guard" "s3cret!" _ ConnectionError
              eq_refl eq_refl eq_refl eq_refl eq_refl eq_refl eq_refl)
    as (site' & Hrun & Hfind & _).
  exists site'. split; [exact Hrun|].
  vm_compute in Hrun. injection Hrun as <-. reflexivity.
Defined.

End Creation.
